(** * zeabur-monitor: credential, session and notification core

    A shallow embedding of the persistence module (file and PostgreSQL
    back ends), the session store, the password utilities, the webhook
    registry and dispatcher, and the request handlers of server.js for
    the administrator password, sessions, stored accounts and webhooks,
    followed by the properties proved about them.

    Conventions.
    - Times are milliseconds since the epoch, in [Z]; every [Date.now()]
      reading is an explicit argument.
    - A JavaScript slot that may hold [null]/[undefined] is an [option].
    - Module-level mutable variables are threaded as explicit state.
    - Code that can throw returns an [Outcome].
    - A string is the sequence of its UTF-8 bytes. *)

From stdpp Require Import base option list gmap strings.
From Stdlib Require Import ZArith Lia Sorting.Sorted Sorting.Permutation Strings.Ascii Strings.Byte.

(** ** JavaScript truthiness of the slots the code tests *)

Module Js.

(** [!!s] for a slot holding a string, [null] or [undefined]. *)
Definition truthy_str (s : option string) : bool :=
  match s with
  | Some (String _ _) => true
  | _ => false
  end.

(** [!!n] for a slot holding an integer, [null] or [undefined]. *)
Definition truthy_num (n : option Z) : bool :=
  match n with
  | Some n => negb (n =? 0)%Z
  | None => false
  end.

(** [s.startsWith(p)] *)
Definition startsWith (s p : string) : bool := String.prefix p s.

(** [xs.includes(x)] on an array of strings. *)
Definition includes (xs : list string) (x : string) : bool :=
  existsb (String.eqb x) xs.

(** [xs.findIndex(p)], with [None] for the result -1. *)
Fixpoint findIndex {A} (p : A -> bool) (xs : list A) : option nat :=
  match xs with
  | [] => None
  | x :: xs' => if p x then Some O else S <$> findIndex p xs'
  end.

(** [xs.splice(i, 1)]: the array that remains. *)
Fixpoint splice1 {A} (i : nat) (xs : list A) : list A :=
  match xs, i with
  | [], _ => []
  | _ :: xs', O => xs'
  | x :: xs', S i' => x :: splice1 i' xs'
  end.

(** A stable sort by an integer key, smallest first: what
    [xs.sort((a, b) => key(a) - key(b))] and [ORDER BY key] produce. *)
Fixpoint insertBy {A} (key : A -> Z) (x : A) (l : list A) : list A :=
  match l with
  | [] => [x]
  | y :: l' => if (key x <=? key y)%Z then x :: y :: l' else y :: insertBy key x l'
  end.

Definition sortBy {A} (key : A -> Z) (l : list A) : list A :=
  foldr (insertBy key) [] l.

(** [buffer.toString('hex')]: two lower-case digits per byte. *)
Definition hexDigit (n : N) : ascii :=
  match n with
  | 0 => "0" | 1 => "1" | 2 => "2" | 3 => "3" | 4 => "4" | 5 => "5" | 6 => "6" | 7 => "7"
  | 8 => "8" | 9 => "9" | 10 => "a" | 11 => "b" | 12 => "c" | 13 => "d" | 14 => "e"
  | _ => "f"
  end%N%char.

Fixpoint toHex (bytes : list byte) : string :=
  match bytes with
  | [] => EmptyString
  | b :: bytes' =>
      String (hexDigit (Byte.to_N b / 16)) (String (hexDigit (Byte.to_N b mod 16)) (toHex bytes'))
  end.

(** The value of a hex digit and the bytes a hex text stands for; the
    inverse of [toHex], used to tell texts of different bytes apart. *)
Definition hexValue (c : ascii) : option N :=
  let n := N_of_ascii c in
  if ((48 <=? n) && (n <=? 57))%N then Some (n - 48)%N
  else if ((97 <=? n) && (n <=? 102))%N then Some (n - 87)%N
  else None.

Fixpoint fromHex (s : string) : option (list byte) :=
  match s with
  | EmptyString => Some []
  | String hi (String lo s') =>
      match hexValue hi, hexValue lo, fromHex s' with
      | Some h, Some l, Some bytes =>
          match Byte.of_N (h * 16 + l) with
          | Some b => Some (b :: bytes)
          | None => None
          end
      | _, _, _ => None
      end
  | String _ EmptyString => None
  end.

(** The number of characters of a text held as UTF-8: its bytes other
    than continuation bytes (0x80 to 0xBF). *)
Fixpoint characters (s : string) : nat :=
  match s with
  | EmptyString => O
  | String c s' =>
      if ((128 <=? N_of_ascii c) && (N_of_ascii c <? 192))%N
      then characters s'
      else S (characters s')
  end.

(** The order [sortBy key] establishes. *)
Definition ascending {A} (key : A -> Z) (a b : A) : Prop := (key a <= key b)%Z.

End Js.

(** ** password-utils.js *)

Module PasswordUtils.

Definition SALT_ROUNDS : nat := 12.

Section Bcrypt.

(** The bcrypt library is consumed as a black box: [bcrypt_hash password
    rounds salt] and [bcrypt_compare password hash]. *)
Variable bcrypt_hash : string -> nat -> string -> string.
Variable bcrypt_compare : string -> string -> bool.

Definition hashPassword (password salt : string) : string :=
  bcrypt_hash password SALT_ROUNDS salt.

Definition verifyPassword (password hash : string) : bool :=
  if negb (Js.startsWith hash "$2") then String.eqb password hash
  else bcrypt_compare password hash.

End Bcrypt.

Definition isHashed (password : option string) : bool :=
  match password with
  | None => false
  | Some p => if negb (Js.truthy_str (Some p)) then false else Js.startsWith p "$2"
  end.

End PasswordUtils.

(** ** session-store.js *)

Module SessionStore.

Local Open Scope Z_scope.

Definition SESSION_DURATION : Z := 10 * 24 * 60 * 60 * 1000.
Definition SESSION_PREFIX : string := "session:".

Record Session := mkSession {
  userId : string;
  createdAt : Z;
  expiresAt : Z
}.

(** The external cache: keys with a native expiry instant.  Only the three
    commands the module issues are modelled; the stored JSON text is
    represented by the record it serialises. *)
Module Redis.

Record Entry := mkEntry { payload : Session; expireAt : Z }.

Definition setex (key : string) (seconds : Z) (v : Session) (now : Z)
  (db : gmap string Entry) : gmap string Entry :=
  <[key := mkEntry v (now + seconds * 1000)]> db.

Definition get (key : string) (now : Z) (db : gmap string Entry) : option Session :=
  match db !! key with
  | Some e => if now <? expireAt e then Some (payload e) else None
  | None => None
  end.

Definition del (key : string) (db : gmap string Entry) : gmap string Entry :=
  delete key db.

(** [KEYS prefix*]: the live keys that start with [prefix]. *)
Definition keys (prefix : string) (now : Z) (db : gmap string Entry) : list string :=
  (map_to_list
     (filter (fun kv => String.prefix prefix kv.1 = true /\ now < expireAt kv.2) db)).*1.

End Redis.

(** The module-level variables. *)
Record State := mkState {
  redisClient : option (gmap string Redis.Entry);
  isRedisEnabled : bool;
  memorySessions : gmap string Session
}.

(** [rnd] is [crypto.randomBytes(32).toString('hex')]. *)
Definition generateSessionToken (rnd : string) : string := "session_" +:+ rnd.

(** [now1], [now2] are the two [Date.now()] readings, in program order. *)
Definition createSession (userId : option string) (rnd : string) (now1 now2 : Z)
  (st : State) : string * State :=
  let userId := default "admin"%string userId in
  let token := generateSessionToken rnd in
  let session := mkSession userId now1 (now2 + SESSION_DURATION) in
  match isRedisEnabled st, redisClient st with
  | true, Some db =>
      (token,
       mkState (Some (Redis.setex (SESSION_PREFIX +:+ token)
                        (SESSION_DURATION / 1000) session now2 db))
               (isRedisEnabled st) (memorySessions st))
  | _, _ =>
      (token,
       mkState (redisClient st) (isRedisEnabled st)
               (<[token := session]> (memorySessions st)))
  end.

Definition destroySession (token : string) (st : State) : State :=
  match isRedisEnabled st, redisClient st with
  | true, Some db =>
      mkState (Some (Redis.del (SESSION_PREFIX +:+ token) db))
              (isRedisEnabled st) (memorySessions st)
  | _, _ =>
      mkState (redisClient st) (isRedisEnabled st)
              (delete token (memorySessions st))
  end.

(** The record found for [token] by the first half of [validateSession]. *)
Definition lookupSession (token : string) (now : Z) (st : State) : option Session :=
  match isRedisEnabled st, redisClient st with
  | true, Some db => Redis.get (SESSION_PREFIX +:+ token) now db
  | _, _ => memorySessions st !! token
  end.

Definition validateSession (token : option string) (now : Z) (st : State)
  : option Session * State :=
  if negb (Js.truthy_str token) then (None, st)
  else
    let token := default ""%string token in
    match lookupSession token now st with
    | None => (None, st)
    | Some session =>
        if now >? expiresAt session then (None, destroySession token st)
        else (Some session, st)
    end.

Definition cleanExpiredSessions (now : Z) (st : State) : State :=
  if isRedisEnabled st then st
  else mkState (redisClient st) (isRedisEnabled st)
         (filter (fun kv => negb (now >? expiresAt kv.2) = true) (memorySessions st)).

(** The calls a client of the module can make, for reasoning about
    arbitrary histories. *)
Inductive Call :=
| CreateSession (userId : option string) (rnd : string) (now1 now2 : Z)
| ValidateSession (token : option string) (now : Z)
| DestroySession (token : string)
| CleanExpiredSessions (now : Z).

Definition step (c : Call) (st : State) : State :=
  match c with
  | CreateSession u rnd t1 t2 => (createSession u rnd t1 t2 st).2
  | ValidateSession tok now => (validateSession tok now st).2
  | DestroySession tok => destroySession tok st
  | CleanExpiredSessions now => cleanExpiredSessions now st
  end.

Definition run (cs : list Call) (st : State) : State :=
  foldl (fun s c => step c s) st cs.

(** A call that mints [token]. *)
Definition mints (token : string) (c : Call) : Prop :=
  match c with
  | CreateSession _ rnd _ _ => generateSessionToken rnd = token
  | _ => False
  end.

(** No record is kept under [token], in whichever store is active. *)
Definition absent (token : string) (st : State) : Prop :=
  match isRedisEnabled st, redisClient st with
  | true, Some db => db !! (SESSION_PREFIX +:+ token) = None
  | _, _ => memorySessions st !! token = None
  end.

(** [now] is the cache's clock when it answers KEYS. *)
Definition getActiveSessionCount (now : Z) (st : State) : nat :=
  match isRedisEnabled st, redisClient st with
  | true, Some db => length (Redis.keys SESSION_PREFIX now db)
  | _, _ => size (memorySessions st)
  end.

Definition closeSessionStore (st : State) : State :=
  match redisClient st with
  | Some _ => mkState None false (memorySessions st)
  | None => st
  end.

Definition isRedisSessionEnabled (st : State) : bool := isRedisEnabled st.

(** The record [session] is kept under [token], in whichever store is
    active (in the cache, with some expiry instant [ttl]). *)
Definition stored (token : string) (session : Session) (ttl : Z) (st : State) : Prop :=
  match isRedisEnabled st, redisClient st with
  | true, Some db => db !! (SESSION_PREFIX +:+ token) = Some (Redis.mkEntry session ttl)
  | _, _ => memorySessions st !! token = Some session
  end.

(** A call that cannot remove or replace the record [session] kept under
    [token]: it creates, validates or destroys another token, or it
    validates or sweeps no later than the session's own expiry. *)
Definition spares (token : string) (session : Session) (c : Call) : Prop :=
  match c with
  | CreateSession _ rnd _ _ => generateSessionToken rnd <> token
  | ValidateSession tok now => tok <> Some token \/ now <= expiresAt session
  | DestroySession tok => tok <> token
  | CleanExpiredSessions now => now <= expiresAt session
  end.

End SessionStore.

(** ** notifications.js *)

Module Notifications.

Local Open Scope Z_scope.

Definition QUOTA_WARNING : string := "quota_warning".
Definition QUOTA_EXCEEDED : string := "quota_exceeded".
Definition SERVICE_DOWN : string := "service_down".
Definition SERVICE_ERROR : string := "service_error".
Definition LOGIN_FAILED : string := "login_failed".
Definition ACCOUNT_ADDED : string := "account_added".
Definition ACCOUNT_REMOVED : string := "account_removed".

(** A registration, with the properties the dispatcher reads.
    [events = None] is a registration without an [events] property (or
    with [null]); [events = Some []] is one that carries an empty array. *)
Record WebhookConfig := mkConfig {
  id : string;
  url : string;
  secret : option string;
  events : option (list string);
  createdAt : Z
}.

(** The envelope [{event, timestamp, data}] before serialisation. *)
Record Envelope := mkEnvelope {
  event : string;
  timestamp : Z;
  data : string
}.

Inductive HeaderValue :=
| Text (s : string)
| Number (n : nat)
| Undefined.

Record Request := mkRequest {
  req_url : string;
  req_headers : list (string * HeaderValue);
  req_body : string
}.

(** What the HTTP client reports for a request it has sent: a response,
    an [error] event or the ten-second timeout. *)
Inductive NetOutcome :=
| Responded (statusCode : Z) (body : string)
| NetError (message : string)
| TimedOut.

(** The reason a delivery is rejected with.  [InvalidRequest] is a throw
    inside the promise executor, before anything is sent: [new URL] on an
    unparsable URL, or [client.request] on a header whose value is
    [undefined] (ERR_HTTP_INVALID_HEADER_VALUE). *)
Inductive DeliveryError :=
| HttpError (statusCode : Z) (body : string)     (* `HTTP ${statusCode}: ${body}` *)
| RequestError (message : string)
| RequestTimeout
| InvalidRequest.

(** A settled promise of [sendToWebhook]. *)
Inductive Settled :=
| Fulfilled (status : Z) (body : string)
| Rejected (reason : DeliveryError).

Definition fulfilled (r : Settled) : bool :=
  match r with Fulfilled _ _ => true | Rejected _ => false end.

Definition rejected (r : Settled) : bool :=
  match r with Fulfilled _ _ => false | Rejected _ => true end.

Record SendResult := mkSendResult { success : nat; failed : nat }.

(** [webhookConfigs], the module-level registry. *)
Definition setWebhookConfigs (configs : option (list WebhookConfig)) : list WebhookConfig :=
  default [] configs.

Definition removeWebhook (wid : string) (webhookConfigs : list WebhookConfig)
  : bool * list WebhookConfig :=
  match Js.findIndex (fun w => String.eqb (id w) wid) webhookConfigs with
  | Some index => (true, Js.splice1 index webhookConfigs)
  | None => (false, webhookConfigs)
  end.

Section Dispatch.

(** Black boxes: [JSON.stringify] of the envelope, HMAC-SHA-256 in hex
    (key first), and the HTTP client. *)
Variable JSON_stringify : Envelope -> string.
Variable hmac_sha256_hex : string -> string -> string.
Variable transport : Request -> NetOutcome.

Definition generateSignature (payload secret : string) : string :=
  hmac_sha256_hex secret payload.

(** The request [sendToWebhook] builds.  [payload] is the serialised
    string, so [payload.event] is [undefined]. *)
Definition buildRequest (config : WebhookConfig) (payload : string) : Request :=
  let headers :=
    [("Content-Type"%string, Text "application/json");
     ("Content-Length"%string, Number (String.length payload));
     ("User-Agent"%string, Text "Zeabur-Monitor-Webhook/2.0");
     ("X-Webhook-Event"%string, Undefined)] in
  let headers :=
    if Js.truthy_str (secret config)
    then headers ++ [("X-Webhook-Signature"%string,
                      Text (generateSignature payload (default ""%string (secret config))))]
    else headers in
  mkRequest (url config) headers payload.

(** Node's [http.request] and [https.request] validate the headers of
    [options] when the request object is created and throw on a value
    that is [undefined]. *)
Definition undefinedValue (header : string * HeaderValue) : bool :=
  match header.2 with
  | Undefined => true
  | _ => false
  end.

(** The promise [sendToWebhook] returns, settled.  A throw inside the
    executor rejects the promise; the request is handed to the network
    only if [client.request] accepted it. *)
Definition sendToWebhook (config : WebhookConfig) (payload : string) : Settled :=
  let request := buildRequest config payload in
  if existsb undefinedValue (req_headers request) then Rejected InvalidRequest
  else
    match transport request with
    | Responded statusCode body =>
        if (200 <=? statusCode) && (statusCode <? 300)
        then Fulfilled statusCode body
        else Rejected (HttpError statusCode body)
    | NetError message => Rejected (RequestError message)
    | TimedOut => Rejected RequestTimeout
    end.

(** The filter predicate [!config.events || config.events.includes(event)]:
    an array, empty or not, is truthy. *)
Definition subscribed (event : string) (config : WebhookConfig) : bool :=
  match events config with
  | None => true
  | Some evs => Js.includes evs event
  end.

(** The registrations a call delivers to, in registry order. *)
Definition recipients (event : string) (webhookConfigs : list WebhookConfig)
  : list WebhookConfig :=
  List.filter (subscribed event) webhookConfigs.

(** The settled results of [Promise.allSettled], paired with their target. *)
Definition deliveries (event data : string) (now : Z)
  (webhookConfigs : list WebhookConfig) : list (WebhookConfig * Settled) :=
  let payload := JSON_stringify (mkEnvelope event now data) in
  List.map (fun config => (config, sendToWebhook config payload))
    (recipients event webhookConfigs).

Definition sendWebhook (event data : string) (now : Z)
  (webhookConfigs : list WebhookConfig) : SendResult :=
  let results := List.map snd (deliveries event data now webhookConfigs) in
  mkSendResult (length (List.filter fulfilled results))
               (length (List.filter rejected results)).

End Dispatch.

(** The filter as the specification words it: a registration whose
    [events] is empty or absent receives every event type. *)
Definition spec_subscribed (event : string) (config : WebhookConfig) : bool :=
  match events config with
  | None | Some [] => true
  | Some evs => Js.includes evs event
  end.

(** The two registrations of the specification's concrete case, and the
    variant of the second one that carries no [events] property. *)
Definition regA : WebhookConfig :=
  mkConfig "a1" "https://a.example/hook" None (Some ["service_down"%string]) 0.
Definition regB_empty : WebhookConfig :=
  mkConfig "b2" "https://b.example/hook" None (Some []) 0.
Definition regB_absent : WebhookConfig :=
  mkConfig "b2" "https://b.example/hook" None None 0.

(** The object a caller hands to [addWebhook].  [in_id] is an [id]
    property of its own, if it carries one: the spread copies it over the
    generated id. *)
Record WebhookInput := mkInput {
  in_id : option string;
  in_url : string;
  in_secret : option string;
  in_events : option (list string)
}.

(** [bytes] is what [crypto.randomBytes(8)] draws.  The call returns the
    generated id and pushes onto the registry. *)
Definition addWebhook (bytes : list byte) (now : Z) (config : WebhookInput)
  (webhookConfigs : list WebhookConfig) : string * list WebhookConfig :=
  let generated := Js.toHex bytes in
  (generated,
   webhookConfigs ++ [mkConfig (default generated (in_id config)) (in_url config)
                        (in_secret config) (in_events config) now]).

End Notifications.

(** ** Outcomes of code that can throw *)

Module Exn.

Inductive Error :=
| PgError (code : string)      (* an error raised by [query] *)
| IoError                      (* an [fs] call or [JSON.parse] failed *)
| TypeError                    (* property access on [null] *)
| CipherError                  (* [encryptFn] or [decryptFn] threw *)
| UserExists.                  (* [new Error('...')], duplicate user name *)

Inductive Outcome (A : Type) :=
| Return (a : A)
| Throw (e : Error).

Arguments Return {A} a.
Arguments Throw {A} e.

End Exn.

(** ** The PostgreSQL server, as far as the module talks to it

    The schema is the one [createTables] declares.  A statement is one of
    the SQL texts the module sends; [exec] gives its effect on the tables.
    Constraint violations are the errors the schema itself can raise;
    any other failure of a statement is injected through the connection's
    fault schedule (see [Pg]).  A refused INSERT consumes no id here;
    PostgreSQL consumes one, which only widens the gaps between ids. *)

Module Sql.

Local Open Scope Z_scope.

(** The structure [encryptFn] returns, stored in a JSONB column or under
    the [encryptedToken] property; only its identity matters here. *)
Definition EncryptedToken : Type := string.

Record UserRow := mkUserRow {
  users_id : Z;
  users_username : string;
  users_password_hash : string;
  users_role : string;
  users_created_at : Z
}.

Record AccountRow := mkAccountRow {
  accounts_id : Z;
  accounts_user_id : option Z;
  accounts_name : string;
  accounts_token : option string;
  accounts_encrypted_token : option EncryptedToken
}.

Record WebhookRow := mkWebhookRow {
  webhooks_id : string;
  webhooks_user_id : option Z;
  webhooks_name : option string;
  webhooks_url : string;
  webhooks_secret : option string;
  webhooks_events : option (list string);
  webhooks_enabled : bool;
  webhooks_created_at : Z
}.

(** [usage_amount] is DECIMAL(10, 4): an amount is counted in
    ten-thousandths, the resolution of the column.  A finer amount, which
    the column rounds and the JSON file keeps, has no counterpart here. *)
Record UsageRow := mkUsageRow {
  usage_history_id : Z;
  account_name : string;
  usage_amount : Z;
  recorded_at : Z
}.

Record Database := mkDatabase {
  users : list UserRow;
  users_id_seq : Z;
  accounts : list AccountRow;
  accounts_id_seq : Z;
  config : gmap string string;
  webhooks : list WebhookRow;
  usage_history : list UsageRow;
  usage_history_id_seq : Z
}.

Definition empty : Database := mkDatabase [] 1 [] 1 ∅ [] [] 1.

Inductive Stmt :=
| BEGIN
| COMMIT
| ROLLBACK
| SelectAccounts (user_id : option Z)
| DeleteAccountsOfUser (user_id : Z)
| DeleteAccountsUnowned
| DeleteAccountsAll
| InsertAccountEncrypted (user_id : option Z) (name : string) (enc : EncryptedToken)
| InsertAccountClear (user_id : option Z) (name : string) (token : option string)
| SelectAdminPassword
| UpsertAdminPassword (value : string)
| InsertUser (username password_hash role : string)
| SelectUserByName (username : string)
| SelectUsers
| DeleteUser (id : Z)
| SelectWebhooks (user_id : option Z)
| UpsertWebhook (row : WebhookRow)
| DeleteWebhook (id : string)
| InsertUsage (name : string) (amount : Z)
| SelectUsage (since : Z) (name : option string).

(** What [result.rows], [result.rowCount] or [RETURNING id] carry. *)
Definition Result (s : Stmt) : Type :=
  match s with
  | SelectAccounts _ => list AccountRow
  | SelectAdminPassword => list string
  | InsertUser _ _ _ => Z
  | SelectUserByName _ | SelectUsers => list UserRow
  | DeleteUser _ | DeleteWebhook _ => nat
  | SelectWebhooks _ => list WebhookRow
  | SelectUsage _ _ => list UsageRow
  | _ => unit
  end.

Definition unique_violation : string := "23505".
Definition foreign_key_violation : string := "23503".
Definition string_data_right_truncation : string := "22001".
Definition in_failed_sql_transaction : string := "25P02".
Definition numeric_value_out_of_range : string := "22003".
Definition connection_failure : string := "08006".
Definition server_fault : string := "XX000".

Definition owner_is (uid : Z) (o : option Z) : bool :=
  match o with Some u => u =? uid | None => false end.

Definition unowned (o : option Z) : bool :=
  match o with Some _ => false | None => true end.

(** [REFERENCES users(id)]: a null reference is always accepted. *)
Definition references_user (db : Database) (o : option Z) : bool :=
  match o with
  | None => true
  | Some uid => existsb (fun u => users_id u =? uid) (users db)
  end.

(** VARCHAR(n) bounds the number of characters. *)
Definition varchar (n : nat) (s : string) : bool :=
  (Js.characters s <=? n)%nat.

(** DECIMAL(10, 4) holds ten digits, four of them after the point: fewer
    than 10^10 ten-thousandths in absolute value. *)
Definition decimal_10_4 (amount : Z) : bool :=
  Z.abs amount <? 10 ^ 10.

Definition with_accounts (db : Database) (rows : list AccountRow) (seq : Z) : Database :=
  mkDatabase (users db) (users_id_seq db) rows seq (config db)
             (webhooks db) (usage_history db) (usage_history_id_seq db).

Definition insert_account (db : Database) (uid : option Z) (name : string)
  (token : option string) (enc : option EncryptedToken) : string + Database :=
  if negb (varchar 255 name) then inl string_data_right_truncation
  else if negb (references_user db uid) then inl foreign_key_violation
  else inr (with_accounts db
              (accounts db ++ [mkAccountRow (accounts_id_seq db) uid name token enc])
              (accounts_id_seq db + 1)).

Definition upsert_webhook (row : WebhookRow) (rows : list WebhookRow) : list WebhookRow :=
  if existsb (fun r => String.eqb (webhooks_id r) (webhooks_id row)) rows
  then List.map (fun r =>
         if String.eqb (webhooks_id r) (webhooks_id row)
         then mkWebhookRow (webhooks_id r) (webhooks_user_id r)
                (webhooks_name row) (webhooks_url row) (webhooks_secret row)
                (webhooks_events row) (webhooks_enabled row) (webhooks_created_at r)
         else r) rows
  else rows ++ [row].

(** The effect of one statement on the tables at server time [now];
    [inl code] is the SQLSTATE of a constraint violation.  Transaction
    control is handled by the connection, not here. *)
Definition exec (now : Z) (s : Stmt) (db : Database) : string + (Database * Result s) :=
  match s return string + (Database * Result s) with
  | BEGIN | COMMIT | ROLLBACK => inr (db, tt)
  | SelectAccounts None =>
      inr (db, Js.sortBy accounts_id (accounts db))
  | SelectAccounts (Some uid) =>
      inr (db, Js.sortBy accounts_id
                 (List.filter (fun r => owner_is uid (accounts_user_id r)) (accounts db)))
  | DeleteAccountsOfUser uid =>
      inr (with_accounts db
             (List.filter (fun r => negb (owner_is uid (accounts_user_id r))) (accounts db))
             (accounts_id_seq db), tt)
  | DeleteAccountsUnowned =>
      inr (with_accounts db
             (List.filter (fun r => negb (unowned (accounts_user_id r))) (accounts db))
             (accounts_id_seq db), tt)
  | DeleteAccountsAll =>
      inr (with_accounts db [] (accounts_id_seq db), tt)
  | InsertAccountEncrypted uid name enc =>
      match insert_account db uid name None (Some enc) with
      | inl code => inl code
      | inr db' => inr (db', tt)
      end
  | InsertAccountClear uid name token =>
      match insert_account db uid name token None with
      | inl code => inl code
      | inr db' => inr (db', tt)
      end
  | SelectAdminPassword =>
      inr (db, match config db !! "admin_password"%string with
               | Some v => [v]
               | None => []
               end)
  | UpsertAdminPassword value =>
      inr (mkDatabase (users db) (users_id_seq db) (accounts db) (accounts_id_seq db)
             (<["admin_password"%string := value]> (config db))
             (webhooks db) (usage_history db) (usage_history_id_seq db), tt)
  | InsertUser username password_hash role =>
      if negb (varchar 50 username && varchar 255 password_hash && varchar 20 role)
      then inl string_data_right_truncation
      else if existsb (fun u => String.eqb (users_username u) username) (users db)
      then inl unique_violation
      else inr (mkDatabase
                  (users db ++ [mkUserRow (users_id_seq db) username password_hash role now])
                  (users_id_seq db + 1) (accounts db) (accounts_id_seq db) (config db)
                  (webhooks db) (usage_history db) (usage_history_id_seq db),
                users_id_seq db)
  | SelectUserByName username =>
      inr (db, List.filter (fun u => String.eqb (users_username u) username) (users db))
  | SelectUsers =>
      inr (db, Js.sortBy users_id (users db))
  | DeleteUser id =>
      let gone := List.filter (fun u => users_id u =? id) (users db) in
      inr (mkDatabase
             (List.filter (fun u => negb (users_id u =? id)) (users db))
             (users_id_seq db)
             (match gone with
              | [] => accounts db
              | _ => List.filter (fun r => negb (owner_is id (accounts_user_id r))) (accounts db)
              end)
             (accounts_id_seq db) (config db)
             (match gone with
              | [] => webhooks db
              | _ => List.filter (fun r => negb (owner_is id (webhooks_user_id r))) (webhooks db)
              end)
             (usage_history db) (usage_history_id_seq db),
           length gone)
  | SelectWebhooks None =>
      inr (db, webhooks db)
  | SelectWebhooks (Some uid) =>
      inr (db, List.filter (fun r => owner_is uid (webhooks_user_id r)) (webhooks db))
  | UpsertWebhook row =>
      if negb (varchar 32 (webhooks_id row)
               && varchar 100 (default ""%string (webhooks_name row))
               && varchar 256 (default ""%string (webhooks_secret row)))
      then inl string_data_right_truncation
      else if negb (existsb (fun r => String.eqb (webhooks_id r) (webhooks_id row))
                      (webhooks db))
                && negb (references_user db (webhooks_user_id row))
      then inl foreign_key_violation
      else inr (mkDatabase (users db) (users_id_seq db) (accounts db) (accounts_id_seq db)
                  (config db) (upsert_webhook row (webhooks db))
                  (usage_history db) (usage_history_id_seq db), tt)
  | DeleteWebhook id =>
      let gone := List.filter (fun r => String.eqb (webhooks_id r) id) (webhooks db) in
      inr (mkDatabase (users db) (users_id_seq db) (accounts db) (accounts_id_seq db)
             (config db)
             (List.filter (fun r => negb (String.eqb (webhooks_id r) id)) (webhooks db))
             (usage_history db) (usage_history_id_seq db),
           length gone)
  | InsertUsage name amount =>
      if negb (varchar 255 name) then inl string_data_right_truncation
      else if negb (decimal_10_4 amount) then inl numeric_value_out_of_range
      else inr (mkDatabase (users db) (users_id_seq db) (accounts db) (accounts_id_seq db)
                  (config db) (webhooks db)
                  (usage_history db ++ [mkUsageRow (usage_history_id_seq db) name amount now])
                  (usage_history_id_seq db + 1), tt)
  | SelectUsage since None =>
      inr (db, Js.sortBy recorded_at
                 (List.filter (fun r => recorded_at r >? since) (usage_history db)))
  | SelectUsage since (Some name) =>
      inr (db, Js.sortBy recorded_at
                 (List.filter (fun r => (recorded_at r >? since)
                                        && String.eqb (account_name r) name)
                    (usage_history db)))
  end.

End Sql.

(** ** The connection pool

    One server, reached either through [pool.query] (each statement its
    own transaction) or through the client checked out by
    [pool.connect()], which carries a transaction state.  After an error
    inside an open transaction the server refuses every statement until
    the transaction ends.  [faults] schedules failures: its head tells
    whether the next exchange with the server fails, be it a statement or
    the check-out of a client.  A ROLLBACK cannot fail at the SQL level;
    one that fails has lost its connection, and the server discards the
    transaction of a lost connection.  [log] records every statement sent
    and whether it succeeded, most recent last.

    The id sequences are kept with the tables they number; that
    PostgreSQL does not rewind a sequence on rollback only leaves gaps in
    the ids. *)

Module Pg.

Import Sql.

Inductive Tx :=
| Idle
| Open (work : Database)
| Aborted.

Record Server := mkServer {
  committed : Database;
  session : Tx;
  faults : list bool;
  log : list (Stmt * bool)
}.

Definition connect (db : Database) : Server := mkServer db Idle [] [].

Definition next_fault (sv : Server) : bool * list bool :=
  match faults sv with
  | [] => (false, [])
  | f :: rest => (f, rest)
  end.

Definition Answer (s : Stmt) : Type := (string + Result s)%type.

(** [pool.query(s)] *)
Definition pool_query (now : Z) (s : Stmt) (sv : Server) : Answer s * Server :=
  let '(f, rest) := next_fault sv in
  if f then (inl server_fault, mkServer (committed sv) (session sv) rest (log sv ++ [(s, false)]))
  else
    match exec now s (committed sv) with
    | inl code => (inl code, mkServer (committed sv) (session sv) rest (log sv ++ [(s, false)]))
    | inr (db', r) => (inr r, mkServer db' (session sv) rest (log sv ++ [(s, true)]))
    end.

(** A data statement sent on the checked-out client. *)
Definition client_statement (now : Z) (s : Stmt) (sv : Server) : Answer s * Server :=
  let '(f, rest) := next_fault sv in
  let refused code tx :=
    (inl code, mkServer (committed sv) tx rest (log sv ++ [(s, false)])) in
  match session sv with
  | Aborted => refused in_failed_sql_transaction Aborted
  | Open work =>
      if f then refused server_fault Aborted
      else
        match exec now s work with
        | inl code => refused code Aborted
        | inr (work', r) =>
            (inr r, mkServer (committed sv) (Open work') rest (log sv ++ [(s, true)]))
        end
  | Idle =>
      if f then refused server_fault Idle
      else
        match exec now s (committed sv) with
        | inl code => refused code Idle
        | inr (db', r) => (inr r, mkServer db' Idle rest (log sv ++ [(s, true)]))
        end
  end.

Definition begin (sv : Server) : Answer BEGIN * Server :=
  let '(f, rest) := next_fault sv in
  if f then (inl server_fault, mkServer (committed sv) (session sv) rest (log sv ++ [(BEGIN, false)]))
  else
    (inr tt,
     mkServer (committed sv)
       (match session sv with Idle => Open (committed sv) | tx => tx end)
       rest (log sv ++ [(BEGIN, true)])).

(** A COMMIT that fails leaves nothing behind; a COMMIT sent in a failed
    transaction is answered as a rollback, without error. *)
Definition commit (sv : Server) : Answer COMMIT * Server :=
  let '(f, rest) := next_fault sv in
  match session sv with
  | Open work =>
      if f then (inl server_fault, mkServer (committed sv) Idle rest (log sv ++ [(COMMIT, false)]))
      else (inr tt, mkServer work Idle rest (log sv ++ [(COMMIT, true)]))
  | _ =>
      if f then (inl server_fault, mkServer (committed sv) Idle rest (log sv ++ [(COMMIT, false)]))
      else (inr tt, mkServer (committed sv) Idle rest (log sv ++ [(COMMIT, true)]))
  end.

Definition rollback (sv : Server) : Answer ROLLBACK * Server :=
  let '(f, rest) := next_fault sv in
  if f
  then (inl connection_failure,
        mkServer (committed sv) Idle rest (log sv ++ [(ROLLBACK, false)]))
  else (inr tt, mkServer (committed sv) Idle rest (log sv ++ [(ROLLBACK, true)])).

(** [pool.connect()] *)
Definition checkout (sv : Server) : (string + unit) * Server :=
  let '(f, rest) := next_fault sv in
  (if f then inl connection_failure else inr tt,
   mkServer (committed sv) (session sv) rest (log sv)).

(** [client.query(s)] *)
Definition client_query (now : Z) (s : Stmt) (sv : Server) : Answer s * Server :=
  match s as s0 return Answer s0 * Server with
  | BEGIN => begin sv
  | COMMIT => commit sv
  | ROLLBACK => rollback sv
  | s0 => client_statement now s0 sv
  end.

End Pg.

(** ** The persistence module (the multi-user version of db.js) *)

Module Db.

Import Exn.
Export Sql.

Local Open Scope Z_scope.

(** *** Objects exchanged with callers and kept in the JSON files *)

Record Account := mkAccount {
  name : string;
  token : option string;
  encryptedToken : option EncryptedToken
}.

Record User := mkUser {
  id : Z;
  username : string;
  passwordHash : string;
  role : string;
  createdAt : Z
}.

Record Webhook := mkWebhook {
  wh_id : string;
  wh_userId : option Z;
  wh_name : option string;
  wh_url : string;
  wh_secret : option string;
  wh_events : option (list string);
  wh_enabled : option bool;
  wh_createdAt : Z
}.

(** [usageAmount] is counted in ten-thousandths, as the column that
    stores it in database mode (see [Sql.UsageRow]). *)
Record UsageRecord := mkUsageRecord {
  accountName : string;
  usageAmount : Z;
  recordedAt : Z
}.

(** *** The files *)

Inductive File :=
| ACCOUNTS_FILE
| PASSWORD_FILE
| USERS_FILE
| WEBHOOKS_FILE
| USAGE_HISTORY_FILE.

(** What a file holds once parsed. *)
Definition Content (f : File) : Type :=
  match f with
  | ACCOUNTS_FILE => list Account
  | PASSWORD_FILE => string
  | USERS_FILE => list User
  | WEBHOOKS_FILE => list Webhook
  | USAGE_HISTORY_FILE => list UsageRecord
  end.

(** [Unreadable]: the file exists but [readFileSync] or [JSON.parse]
    throws on it. *)
Inductive FileState (A : Type) :=
| Missing
| Unreadable
| Stored (content : A).

Arguments Missing {A}.
Arguments Unreadable {A}.
Arguments Stored {A} content.

Record FileSystem := mkFileSystem {
  data_dir : bool;              (* DATA_DIR exists *)
  writable : bool;              (* writes are permitted *)
  accounts_json : FileState (list Account);
  password_json : FileState string;
  users_json : FileState (list User);
  webhooks_json : FileState (list Webhook);
  usage_history_json : FileState (list UsageRecord)
}.

Definition file (f : File) (d : FileSystem) : FileState (Content f) :=
  match f with
  | ACCOUNTS_FILE => accounts_json d
  | PASSWORD_FILE => password_json d
  | USERS_FILE => users_json d
  | WEBHOOKS_FILE => webhooks_json d
  | USAGE_HISTORY_FILE => usage_history_json d
  end.

Definition set_file (f : File) : Content f -> FileSystem -> FileSystem :=
  match f with
  | ACCOUNTS_FILE => fun c d =>
      mkFileSystem (data_dir d) (writable d) (Stored c) (password_json d)
        (users_json d) (webhooks_json d) (usage_history_json d)
  | PASSWORD_FILE => fun c d =>
      mkFileSystem (data_dir d) (writable d) (accounts_json d) (Stored c)
        (users_json d) (webhooks_json d) (usage_history_json d)
  | USERS_FILE => fun c d =>
      mkFileSystem (data_dir d) (writable d) (accounts_json d) (password_json d)
        (Stored c) (webhooks_json d) (usage_history_json d)
  | WEBHOOKS_FILE => fun c d =>
      mkFileSystem (data_dir d) (writable d) (accounts_json d) (password_json d)
        (users_json d) (Stored c) (usage_history_json d)
  | USAGE_HISTORY_FILE => fun c d =>
      mkFileSystem (data_dir d) (writable d) (accounts_json d) (password_json d)
        (users_json d) (webhooks_json d) (Stored c)
  end.

Definition in_data_dir (f : File) : bool :=
  match f with
  | ACCOUNTS_FILE | PASSWORD_FILE => false
  | _ => true
  end.

(** *** The module state and the monad of its functions *)

Record World := mkWorld {
  pool : option Pg.Server;
  isDbEnabled : bool;
  fs : FileSystem
}.

Definition M (A : Type) : Type := World -> Outcome A * World.

Definition ret {A} (a : A) : M A := fun w => (Return a, w).

Definition throw {A} (e : Error) : M A := fun w => (Throw e, w).

Definition bind {A B} (m : M A) (k : A -> M B) : M B :=
  fun w =>
    match m w with
    | (Return a, w') => k a w'
    | (Throw e, w') => (Throw e, w')
    end.

(** [try { m } catch (e) { h e }] *)
Definition try_catch {A} (m : M A) (h : Error -> M A) : M A :=
  fun w =>
    match m w with
    | (Return a, w') => (Return a, w')
    | (Throw e, w') => h e w'
    end.

Declare Scope js_scope.
Delimit Scope js_scope with js.
Notation "x ← m ; k" := (bind m (fun x => k))
  (at level 20, m at level 100, k at level 200, only parsing) : js_scope.
Notation "m ;; k" := (bind m (fun _ => k))
  (at level 100, k at level 200, only parsing, right associativity) : js_scope.
Local Open Scope js_scope.

(** [for (const x of xs) { body x }] *)
Fixpoint for_of {A} (xs : list A) (body : A -> M unit) : M unit :=
  match xs with
  | [] => ret tt
  | x :: xs' => body x ;; for_of xs' body
  end.

Definition isDatabaseEnabled (w : World) : bool :=
  isDbEnabled w && bool_decide (is_Some (pool w)).

Definition lift_pg {A} (f : Pg.Server -> (string + A) * Pg.Server) : M A :=
  fun w =>
    match pool w with
    | None => (Throw TypeError, w)
    | Some sv =>
        let '(r, sv') := f sv in
        (match r with inl code => Throw (PgError code) | inr a => Return a end,
         mkWorld (Some sv') (isDbEnabled w) (fs w))
    end.

Definition pool_query (now : Z) (s : Stmt) : M (Result s) :=
  lift_pg (Pg.pool_query now s).

Definition client_query (now : Z) (s : Stmt) : M (Result s) :=
  lift_pg (Pg.client_query now s).

(** [pool.connect()]; [client.release()] leaves nothing to model. *)
Definition pool_connect : M unit := lift_pg Pg.checkout.

Definition existsSync (f : File) : M bool :=
  fun w => (Return (match file f (fs w) with Missing => false | _ => true end), w).

(** [JSON.parse(fs.readFileSync(f, 'utf8'))] *)
Definition readJson (f : File) : M (Content f) :=
  fun w =>
    match file f (fs w) with
    | Stored c => (Return c, w)
    | _ => (Throw IoError, w)
    end.

(** [fs.writeFileSync(f, JSON.stringify(c, null, 2), 'utf8')] *)
Definition writeJson (f : File) (c : Content f) : M unit :=
  fun w =>
    if writable (fs w) && (negb (in_data_dir f) || data_dir (fs w))
    then (Return tt, mkWorld (pool w) (isDbEnabled w) (set_file f c (fs w)))
    else (Throw IoError, w).

Definition ensureDataDir : M unit :=
  fun w =>
    if data_dir (fs w) then (Return tt, w)
    else if writable (fs w)
    then (Return tt,
          mkWorld (pool w) (isDbEnabled w)
            (mkFileSystem true (writable (fs w)) (accounts_json (fs w))
               (password_json (fs w)) (users_json (fs w)) (webhooks_json (fs w))
               (usage_history_json (fs w))))
    else (Throw IoError, w).

(** The pattern shared by the four file readers: the parsed content if
    the file exists and parses, the fallback otherwise. *)
Definition readOr (f : File) (fallback : Content f) : M (Content f) :=
  try_catch
    (present ← existsSync f;
     if present then readJson f else ret fallback)
    (fun _ => ret fallback).

(** What [readOr] yields, read off the file system. *)
Definition contentOr (f : File) (fallback : Content f) (d : FileSystem) : Content f :=
  match file f d with
  | Stored c => c
  | _ => fallback
  end.

(** The final world of a call. *)
Definition after {A} (m : M A) (w : World) : World := (m w).2.

(** The value a call returns, if it returns. *)
Definition returned {A} (m : M A) (w : World) : option A :=
  match (m w).1 with
  | Return a => Some a
  | Throw _ => None
  end.

(** A world in file mode over a fresh, writable directory tree. *)
Definition freshFiles : World :=
  mkWorld None false (mkFileSystem true true Missing Missing Missing Missing Missing).

(** *** Accounts *)

(** The cipher is passed in by the caller; [None] stands for a throw. *)
Definition Encrypt : Type := string -> string -> option EncryptedToken.
Definition Decrypt : Type := EncryptedToken -> string -> option string.

(** The scope chosen by [if (userId)]. *)
Definition scope (userId : option Z) : option Z :=
  if Js.truthy_num userId then userId else None.

Definition decryptRow (encryptionEnabled : bool) (decryptFn : Decrypt) (secret : string)
  (row : AccountRow) : Account :=
  match encryptionEnabled, accounts_encrypted_token row with
  | true, Some enc =>
      match decryptFn enc secret with
      | Some token => mkAccount (accounts_name row) (Some token) None
      | None => mkAccount (accounts_name row) (accounts_token row) None
      end
  | _, _ => mkAccount (accounts_name row) (accounts_token row) None
  end.

Definition decryptAccount (decryptFn : Decrypt) (secret : string)
  (account : Account) : Account :=
  match encryptedToken account with
  | Some enc =>
      match decryptFn enc secret with
      | Some token => mkAccount (name account) (Some token) None
      | None => account
      end
  | None => account
  end.

Definition loadAccounts (encryptionEnabled : bool) (decryptFn : Decrypt)
  (secret : string) (userId : option Z) (now : Z) : M (list Account) :=
  fun w =>
    if isDatabaseEnabled w then
      try_catch
        (rows ← pool_query now (SelectAccounts (scope userId));
         ret (List.map (decryptRow encryptionEnabled decryptFn secret) rows))
        (fun _ => ret [])
        w
    else
      try_catch
        (present ← existsSync ACCOUNTS_FILE;
         if present then
           accounts ← readJson ACCOUNTS_FILE;
           if encryptionEnabled
           then ret (List.map (decryptAccount decryptFn secret) accounts)
           else ret accounts
         else ret [])
        (fun _ => ret [])
        w.

Definition insertAccount (encryptionEnabled : bool) (encryptFn : Encrypt)
  (secret : string) (userId : option Z) (now : Z) (account : Account) : M unit :=
  if encryptionEnabled && Js.truthy_str (token account) then
    try_catch
      (match encryptFn (default ""%string (token account)) secret with
       | Some encryptedToken =>
           client_query now (InsertAccountEncrypted userId (name account) encryptedToken)
       | None => throw CipherError
       end)
      (fun _ => client_query now (InsertAccountClear userId (name account) (token account)))
  else
    client_query now (InsertAccountClear userId (name account) (token account)).

Definition encryptAccount (encryptFn : Encrypt) (secret : string)
  (account : Account) : Account :=
  if Js.truthy_str (token account) then
    match encryptFn (default ""%string (token account)) secret with
    | Some enc => mkAccount (name account) None (Some enc)
    | None => account
    end
  else account.

Definition saveAccounts (accounts : list Account) (encryptionEnabled : bool)
  (encryptFn : Encrypt) (secret : string) (userId : option Z) (now : Z) : M bool :=
  fun w =>
    if isDatabaseEnabled w then
      (pool_connect;;
       try_catch
         (client_query now BEGIN;;
          (if Js.truthy_num userId
           then client_query now (DeleteAccountsOfUser (default 0 userId))
           else client_query now DeleteAccountsUnowned);;
          for_of accounts (insertAccount encryptionEnabled encryptFn secret userId now);;
          client_query now COMMIT;;
          ret true)
         (fun _ =>
            client_query now ROLLBACK;;
            ret false))
        w
    else
      try_catch
        (let accountsToSave :=
           if encryptionEnabled
           then List.map (encryptAccount encryptFn secret) accounts
           else accounts in
         writeJson ACCOUNTS_FILE accountsToSave;;
         ret true)
        (fun _ => ret false)
        w.


(** *** The administrator password *)

Definition loadPassword (now : Z) : M (option string) :=
  fun w =>
    if isDatabaseEnabled w then
      try_catch
        (rows ← pool_query now SelectAdminPassword;
         match rows with
         | value :: _ => ret (if Js.truthy_str (Some value) then Some value else None)
         | [] => ret None
         end)
        (fun _ => ret None)
        w
    else
      try_catch
        (present ← existsSync PASSWORD_FILE;
         if present then
           password ← readJson PASSWORD_FILE;
           ret (Some password)
         else ret None)
        (fun _ => ret None)
        w.

Definition savePassword (password : string) (now : Z) : M bool :=
  fun w =>
    if isDatabaseEnabled w then
      try_catch
        (pool_query now (UpsertAdminPassword password);;
         ret true)
        (fun _ => ret false)
        w
    else
      try_catch
        (writeJson PASSWORD_FILE password;;
         ret true)
        (fun _ => ret false)
        w.

(** *** Users *)

Definition loadUsersFromFile : M (list User) := readOr USERS_FILE [].

Definition createUser (username passwordHash role : string) (now : Z) : M Z :=
  fun w =>
    if isDatabaseEnabled w then
      try_catch
        (pool_query now (InsertUser username passwordHash role))
        (fun error =>
           match error with
           | PgError code =>
               if String.eqb code unique_violation then throw UserExists else throw error
           | _ => throw error
           end)
        w
    else
      (ensureDataDir;;
       users ← loadUsersFromFile;
       if existsb (fun u => String.eqb (Db.username u) username) users
       then throw UserExists
       else
         let id := Z.of_nat (length users) + 1 in
         let users := users ++ [mkUser id username passwordHash role now] in
         writeJson USERS_FILE users;;
         ret id)
        w.

Definition deleteUser (userId : Z) (now : Z) : M bool :=
  fun w =>
    if isDatabaseEnabled w then
      (rowCount ← pool_query now (DeleteUser userId);
       ret (0 <? rowCount)%nat)
        w
    else
      (users ← loadUsersFromFile;
       match Js.findIndex (fun u => Db.id u =? userId) users with
       | Some index =>
           writeJson USERS_FILE (Js.splice1 index users);;
           ret true
       | None => ret false
       end)
        w.

(** *** Webhook registrations *)

Definition rowToWebhook (r : WebhookRow) : Webhook :=
  mkWebhook (webhooks_id r) (webhooks_user_id r) (webhooks_name r) (webhooks_url r)
    (webhooks_secret r) (webhooks_events r) (Some (webhooks_enabled r))
    (webhooks_created_at r).

(** The parameter list of the upsert; [enabled !== false]. *)
Definition webhookToRow (now : Z) (h : Webhook) : WebhookRow :=
  mkWebhookRow (wh_id h) (wh_userId h) (wh_name h) (wh_url h) (wh_secret h)
    (wh_events h)
    (match wh_enabled h with Some false => false | _ => true end)
    now.

Definition getWebhooks (userId : option Z) (now : Z) : M (list Webhook) :=
  fun w =>
    if isDatabaseEnabled w then
      (rows ← pool_query now (SelectWebhooks (scope userId));
       ret (List.map rowToWebhook rows))
        w
    else
      readOr WEBHOOKS_FILE [] w.

Definition saveWebhook (webhook : Webhook) (now : Z) : M bool :=
  fun w =>
    if isDatabaseEnabled w then
      (pool_query now (UpsertWebhook (webhookToRow now webhook));;
       ret true)
        w
    else
      (ensureDataDir;;
       webhooks ← getWebhooks None now;
       let webhooks :=
         match Js.findIndex (fun h => String.eqb (wh_id h) (wh_id webhook)) webhooks with
         | Some index => <[index := webhook]> webhooks
         | None => webhooks ++ [webhook]
         end in
       writeJson WEBHOOKS_FILE webhooks;;
       ret true)
        w.

Definition deleteWebhook (webhookId : string) (now : Z) : M bool :=
  fun w =>
    if isDatabaseEnabled w then
      (rowCount ← pool_query now (DeleteWebhook webhookId);
       ret (0 <? rowCount)%nat)
        w
    else
      (webhooks ← getWebhooks None now;
       match Js.findIndex (fun h => String.eqb (wh_id h) webhookId) webhooks with
       | Some index =>
           writeJson WEBHOOKS_FILE (Js.splice1 index webhooks);;
           ret true
       | None => ret false
       end)
        w.

(** *** Usage history *)

Definition THIRTY_DAYS : Z := 30 * 24 * 60 * 60 * 1000.

Definition loadUsageHistoryFromFile : M (list UsageRecord) :=
  readOr USAGE_HISTORY_FILE [].

(** [now1] stamps the new record ([new Date()] in file mode, the column
    default CURRENT_TIMESTAMP in database mode); [now2] is the later
    [Date.now()] from which the cut-off is computed.  In database mode
    the insert is not guarded: a refused insert, such as one for an
    amount DECIMAL(10, 4) cannot hold, makes the call throw. *)
Definition recordUsage (accountName : string) (usageAmount : Z) (now1 now2 : Z) : M bool :=
  fun w =>
    if isDatabaseEnabled w then
      (pool_query now1 (InsertUsage accountName usageAmount);;
       ret true)
        w
    else
      (ensureDataDir;;
       history ← loadUsageHistoryFromFile;
       let history := history ++ [mkUsageRecord accountName usageAmount now1] in
       let thirtyDaysAgo := now2 - THIRTY_DAYS in
       let filtered := List.filter (fun h => recordedAt h >? thirtyDaysAgo) history in
       writeJson USAGE_HISTORY_FILE filtered;;
       ret true)
        w.

Definition rowToUsage (r : UsageRow) : UsageRecord :=
  mkUsageRecord (account_name r) (usage_amount r) (recorded_at r).

Definition getUsageHistory (accountName : option string) (days : Z) (now : Z)
  : M (list UsageRecord) :=
  fun w =>
    let since := now - days * 24 * 60 * 60 * 1000 in
    if isDatabaseEnabled w then
      (rows ← pool_query now
                (SelectUsage since (if Js.truthy_str accountName then accountName else None));
       ret (List.map rowToUsage rows))
        w
    else
      (history ← loadUsageHistoryFromFile;
       ret (Js.sortBy recordedAt
              (List.filter
                 (fun h =>
                    let recordTime := recordedAt h in
                    let matchAccount :=
                      negb (Js.truthy_str accountName)
                      || String.eqb (Db.accountName h) (default ""%string accountName) in
                    (recordTime >? since) && matchAccount)
                 history)))
        w.

(** *** What the statements below observe *)

(** Stored content. *)

(** The users the file holds, as [loadUsersFromFile] reads them. *)
Definition storedUsers (w : World) : list User := contentOr USERS_FILE [] (fs w).

(** Create two users, delete the first, create a third. *)
Definition collisionScenario : World :=
  after (createUser "carol" "$2b$h3" "user" 40)
    (after (deleteUser 1 30)
       (after (createUser "bob" "$2b$h2" "user" 20)
          (after (createUser "alice" "$2b$h1" "user" 10) freshFiles))).

(** The usage records the file holds, as [loadUsageHistoryFromFile]
    reads them, and the rows of the [usage_history] table. *)
Definition storedUsage (w : World) : list UsageRecord :=
  contentOr USAGE_HISTORY_FILE [] (fs w).

Definition usageRows (w : World) : list UsageRow :=
  match pool w with
  | Some sv => usage_history (Pg.committed sv)
  | None => []
  end.

Definition DAY : Z := 24 * 60 * 60 * 1000.

(** The webhook registrations the file holds, and the rows of the
    [users], [accounts] and [webhooks] tables. *)
Definition storedWebhooks (w : World) : list Webhook :=
  contentOr WEBHOOKS_FILE [] (fs w).

Definition userRows (w : World) : list UserRow :=
  match pool w with
  | Some sv => users (Pg.committed sv)
  | None => []
  end.

Definition accountRows (w : World) : list AccountRow :=
  match pool w with
  | Some sv => accounts (Pg.committed sv)
  | None => []
  end.

Definition webhookRows (w : World) : list WebhookRow :=
  match pool w with
  | Some sv => webhooks (Pg.committed sv)
  | None => []
  end.

(** Reading accounts back. *)

(** [out] is what a caller should see for the stored object [stored]:
    the same name, and the clear token recovered from the ciphertext when
    there is one and it decrypts, the object as stored otherwise. *)
Definition resolves (decryptFn : EncryptedToken -> string -> option string)
  (secret : string) (stored out : Account) : Prop :=
  name out = name stored
  /\ match encryptedToken stored with
     | Some enc =>
         match decryptFn enc secret with
         | Some clear => token out = Some clear /\ encryptedToken out = None
         | None => out = stored
         end
     | None => out = stored
     end.

(** The same for a table row: the object carries the row's name and the
    clear token recovered from the ciphertext when there is one and it
    decrypts, the row's clear-text column otherwise. *)
Definition resolvesRow (decryptFn : EncryptedToken -> string -> option string)
  (secret : string) (row : AccountRow) (out : Account) : Prop :=
  name out = accounts_name row
  /\ encryptedToken out = None
  /\ match accounts_encrypted_token row with
     | Some enc =>
         match decryptFn enc secret with
         | Some clear => token out = Some clear
         | None => token out = accounts_token row
         end
     | None => token out = accounts_token row
     end.

(** The cipher gives back what it was given. *)
Definition roundTrips (encryptFn : Encrypt) (decryptFn : Decrypt) (secret : string) : Prop :=
  forall clear enc, encryptFn clear secret = Some enc -> decryptFn enc secret = Some clear.

(** An account as callers pass it: a name and a clear token. *)
Definition plain (account : Account) : Prop := encryptedToken account = None.

(** The save transaction. *)

(** The statement [saveAccounts] sends to clear the scope, and the one
    it ends up sending for an account when nothing fails on the server. *)
Definition deleteStmt (userId : option Z) : Stmt :=
  if Js.truthy_num userId then DeleteAccountsOfUser (default 0 userId)
  else DeleteAccountsUnowned.

Definition insertStmt (encryptionEnabled : bool) (encryptFn : Encrypt)
  (secret : string) (userId : option Z) (account : Account) : Stmt :=
  if encryptionEnabled && Js.truthy_str (token account) then
    match encryptFn (default ""%string (token account)) secret with
    | Some enc => InsertAccountEncrypted userId (name account) enc
    | None => InsertAccountClear userId (name account) (token account)
    end
  else InsertAccountClear userId (name account) (token account).

(** The row an insert for [account] creates under the id [id]. *)
Definition storedRow (encryptionEnabled : bool) (encryptFn : Encrypt)
  (secret : string) (userId : option Z) (id : Z) (account : Account) : AccountRow :=
  if encryptionEnabled && Js.truthy_str (token account) then
    match encryptFn (default ""%string (token account)) secret with
    | Some enc => mkAccountRow id userId (name account) None (Some enc)
    | None => mkAccountRow id userId (name account) (token account) None
    end
  else mkAccountRow id userId (name account) (token account) None.

Fixpoint storedRows (encryptionEnabled : bool) (encryptFn : Encrypt)
  (secret : string) (userId : option Z) (id : Z) (accounts : list Account)
  : list AccountRow :=
  match accounts with
  | [] => []
  | a :: accounts' =>
      storedRow encryptionEnabled encryptFn secret userId id a
      :: storedRows encryptionEnabled encryptFn secret userId (id + 1) accounts'
  end.

(** Whether a row belongs to the scope a save with [userId] clears. *)
Definition inScope (userId : option Z) (row : AccountRow) : bool :=
  if Js.truthy_num userId then owner_is (default 0 userId) (accounts_user_id row)
  else unowned (accounts_user_id row).

(** Statements other than transaction control. *)
Definition isData (s : Stmt) : bool :=
  match s with
  | BEGIN | COMMIT | ROLLBACK => false
  | _ => true
  end.

(** The tables after a list of statements, if none of them is refused. *)
Definition effect (now : Z) (s : Stmt) (db : Database) : option Database :=
  match exec now s db with
  | inr (db', _) => Some db'
  | inl _ => None
  end.

Fixpoint effects (now : Z) (ss : list Stmt) (db : Database) : option Database :=
  match ss with
  | [] => Some db
  | s :: ss' =>
      match effect now s db with
      | Some db' => effects now ss' db'
      | None => None
      end
  end.

Definition succeeded (ss : list Stmt) : list (Stmt * bool) :=
  List.map (fun s => (s, true)) ss.

Definition failed (entry : Stmt * bool) : Prop := entry.2 = false.

(** The shape shared by the database branch of both [saveAccounts]: on
    the client checked out, BEGIN, the clearing statement, the inserts,
    COMMIT, with ROLLBACK in the handler. *)
Definition transaction (delete : Stmt) (accounts : list Account)
  (encryptionEnabled : bool) (encryptFn : Encrypt) (secret : string)
  (userId : option Z) (now : Z) : M bool :=
  try_catch
    (client_query now BEGIN;;
     client_query now delete;;
     for_of accounts (insertAccount encryptionEnabled encryptFn secret userId now);;
     client_query now COMMIT;;
     ret true)
    (fun _ =>
       client_query now ROLLBACK;;
       ret false).

Definition saveTransaction (delete : Stmt) (accounts : list Account)
  (encryptionEnabled : bool) (encryptFn : Encrypt) (secret : string)
  (userId : option Z) (now : Z) : M bool :=
  pool_connect;;
  transaction delete accounts encryptionEnabled encryptFn secret userId now.

(** What a finished save transaction leaves on the server [sv'], given
    the server [sv] it started from and the outcome of the call. *)
Definition txCommitted (now : Z) (ss : list Stmt) (sv sv' : Pg.Server) : Prop :=
  Pg.log sv' = Pg.log sv ++ succeeded (BEGIN :: ss ++ [COMMIT])
  /\ effects now ss (Pg.committed sv) = Some (Pg.committed sv').

Definition txRolledBack (sv sv' : Pg.Server) : Prop :=
  Pg.committed sv' = Pg.committed sv
  /\ exists entries,
       Pg.log sv' = Pg.log sv ++ entries ++ [(ROLLBACK, true)]
       /\ Exists failed entries.

(** The connection failed: no client could be checked out, or the
    ROLLBACK that ended the call was not delivered. *)
Definition txLost (sv sv' : Pg.Server) : Prop :=
  Pg.committed sv' = Pg.committed sv
  /\ (Pg.log sv' = Pg.log sv
      \/ exists entries,
           Pg.log sv' = Pg.log sv ++ entries ++ [(ROLLBACK, false)]
           /\ Exists failed entries).

Definition txOutcome (now : Z) (ss : list Stmt) (sv sv' : Pg.Server)
  (outcome : Outcome bool) : Prop :=
  match outcome with
  | Return true => txCommitted now ss sv sv'
  | Return false => txRolledBack sv sv'
  | Throw e => e = PgError connection_failure /\ txLost sv sv'
  end.

(** An open transaction that has so far run [ss] on top of [work]. *)
Definition txContinues (now : Z) (sv : Pg.Server) (work : Database)
  (ss : list Stmt) (sv' : Pg.Server) : Prop :=
  Pg.committed sv' = Pg.committed sv
  /\ Pg.log sv' = Pg.log sv ++ succeeded ss
  /\ exists work', Pg.session sv' = Pg.Open work' /\ effects now ss work = Some work'.

(** A transaction that a refused statement has put in the failed state. *)
Definition txAborts (sv sv' : Pg.Server) : Prop :=
  Pg.committed sv' = Pg.committed sv
  /\ Pg.session sv' = Pg.Aborted
  /\ exists entries, Pg.log sv' = Pg.log sv ++ entries /\ Exists failed entries.

(** Worlds used in examples. *)

(** A server with one user, alice, who owns one account row. *)
Definition aliceOwnsAccount : World :=
  mkWorld
    (Some (Pg.connect
             (mkDatabase [mkUserRow 1 "alice" "$2b$h1" "user" 10] 2
                [mkAccountRow 1 (Some 1) "alice-prod" (Some "sk-alice"%string) None] 2
                ∅ [] [] 1)))
    true
    (mkFileSystem true true Missing Missing Missing Missing Missing).

(** A file-mode world with one user, who owns one webhook registration. *)
Definition aliceWithWebhook : World :=
  mkWorld None false
    (mkFileSystem true true
       (Stored [mkAccount "prod" (Some "sk-1"%string) None])
       Missing
       (Stored [mkUser 1 "alice" "$2b$h1" "user" 10])
       (Stored [mkWebhook "w1" (Some 1) (Some "ops"%string) "https://a.example/hook"
                  None None (Some true) 11])
       Missing).

(** *** Looking users up *)

(** What [getUser] and [getUsers] hand out.  In database mode [getUser]
    builds an object without [createdAt]; [getUsers] leaves
    [passwordHash] out in both modes. *)
Record UserInfo := mkUserInfo {
  info_id : Z;
  info_username : string;
  info_passwordHash : option string;
  info_role : string;
  info_createdAt : option Z
}.

Definition getUser (username : string) (now : Z) : M (option UserInfo) :=
  fun w =>
    if isDatabaseEnabled w then
      (rows ← pool_query now (SelectUserByName username);
       match rows with
       | row :: _ =>
           ret (Some (mkUserInfo (users_id row) (users_username row)
                        (Some (users_password_hash row)) (users_role row) None))
       | [] => ret None
       end)
        w
    else
      (users ← loadUsersFromFile;
       ret (match List.find (fun u => String.eqb (Db.username u) username) users with
            | Some u =>
                Some (mkUserInfo (id u) (Db.username u) (Some (passwordHash u)) (role u)
                        (Some (createdAt u)))
            | None => None
            end))
        w.

Definition getUsers (now : Z) : M (list UserInfo) :=
  fun w =>
    if isDatabaseEnabled w then
      (rows ← pool_query now SelectUsers;
       ret (List.map (fun row =>
                        mkUserInfo (users_id row) (users_username row) None (users_role row)
                          (Some (users_created_at row)))
              rows))
        w
    else
      (users ← loadUsersFromFile;
       ret (List.map (fun u =>
                        mkUserInfo (id u) (Db.username u) None (role u) (Some (createdAt u)))
              users))
        w.

(** The list [saveWebhook] writes to the file, given the one it read. *)
Definition upserted (webhook : Webhook) (webhooks : list Webhook) : list Webhook :=
  match Js.findIndex (fun h => String.eqb (wh_id h) (wh_id webhook)) webhooks with
  | Some index => <[index := webhook]> webhooks
  | None => webhooks ++ [webhook]
  end.

(** A database-mode world over the tables [db], with no fault scheduled. *)
Definition online (db : Database) : World :=
  mkWorld (Some (Pg.connect db)) true
    (mkFileSystem true true Missing Missing Missing Missing Missing).

(** The tables a world's server holds. *)
Definition tables (w : World) : Database :=
  match pool w with
  | Some sv => Pg.committed sv
  | None => Sql.empty
  end.

End Db.

(** ** db.js, the single-tenant version of the persistence module

    Its [accounts] table has no owner column: every row is written with a
    null owner, reads are unfiltered and a save clears the whole table.
    The password functions are those of [Db]. *)

Module DbLegacy.

Import Exn.
Import Db.

Local Open Scope Z_scope.
Local Open Scope js_scope.

Definition loadAccounts (encryptionEnabled : bool) (decryptFn : Decrypt)
  (secret : string) (now : Z) : M (list Account) :=
  fun w =>
    if isDatabaseEnabled w then
      try_catch
        (rows ← pool_query now (SelectAccounts None);
         ret (List.map (decryptRow encryptionEnabled decryptFn secret) rows))
        (fun _ => ret [])
        w
    else
      try_catch
        (present ← existsSync ACCOUNTS_FILE;
         if present then
           accounts ← readJson ACCOUNTS_FILE;
           if encryptionEnabled
           then ret (List.map (decryptAccount decryptFn secret) accounts)
           else ret accounts
         else ret [])
        (fun _ => ret [])
        w.

Definition saveAccounts (accounts : list Account) (encryptionEnabled : bool)
  (encryptFn : Encrypt) (secret : string) (now : Z) : M bool :=
  fun w =>
    if isDatabaseEnabled w then
      (pool_connect;;
       try_catch
         (client_query now BEGIN;;
          client_query now DeleteAccountsAll;;
          for_of accounts (insertAccount encryptionEnabled encryptFn secret None now);;
          client_query now COMMIT;;
          ret true)
         (fun _ =>
            client_query now ROLLBACK;;
            ret false))
        w
    else
      try_catch
        (let accountsToSave :=
           if encryptionEnabled
           then List.map (encryptAccount encryptFn secret) accounts
           else accounts in
         writeJson ACCOUNTS_FILE accountsToSave;;
         ret true)
        (fun _ => ret false)
        w.

End DbLegacy.

(** ** server.js: the handlers for the administrator password, sessions,
    stored accounts and webhooks *)

Module Server.

Import Exn.
Import Db.

Local Open Scope Z_scope.
Local Open Scope js_scope.

Section Handlers.

Variable bcrypt_hash : string -> nat -> string -> string.
Variable bcrypt_compare : string -> string -> bool.

Definition loadAdminPassword (now : Z) : Db.M (option string) := Db.loadPassword now.

(** [salt] is the random salt bcrypt draws for this hash. *)
Definition saveAdminPassword (password salt : string) (now : Z) : Db.M bool :=
  let hashed := PasswordUtils.hashPassword bcrypt_hash password salt in
  Db.savePassword hashed now.

Inductive LoginResponse :=
| LoginOk (sessionToken : string)         (* 200 {success: true, sessionToken} *)
| LoginNoPassword                          (* 400 *)
| LoginWrongPassword.                      (* 401 *)

(** POST /api/verify-password, after the rate limiter and the input
    validator have let the request through.  The notification sent on a
    wrong password is fire-and-forget and leaves both stores untouched. *)
Definition verifyPasswordHandler (password salt rnd : string) (now : Z)
  (sessions : SessionStore.State)
  : Db.M (LoginResponse * SessionStore.State) :=
  savedPassword ← loadAdminPassword now;
  if negb (Js.truthy_str savedPassword) then Db.ret (LoginNoPassword, sessions)
  else
    let saved := default ""%string savedPassword in
    let isValid := PasswordUtils.verifyPassword bcrypt_compare password saved in
    if isValid then
      (if negb (PasswordUtils.isHashed savedPassword)
       then saveAdminPassword password salt now;; Db.ret tt
       else Db.ret tt);;
      let '(sessionToken, sessions') :=
        SessionStore.createSession None rnd now now sessions in
      Db.ret (LoginOk sessionToken, sessions')
    else Db.ret (LoginWrongPassword, sessions).

Inductive AuthDecision :=
| Next (session : option SessionStore.Session)
| Unauthorized.

(** The [requireAuth] middleware; [password] and [sessionToken] are the
    two request headers it reads. *)
Definition requireAuth (password sessionToken : option string) (now : Z)
  (sessions : SessionStore.State)
  : Db.M (AuthDecision * SessionStore.State) :=
  savedPassword ← loadAdminPassword now;
  if negb (Js.truthy_str savedPassword) then Db.ret (Next None, sessions)
  else
    let '(session, sessions') :=
      if Js.truthy_str sessionToken
      then SessionStore.validateSession sessionToken now sessions
      else (None, sessions) in
    match session with
    | Some s => Db.ret (Next (Some s), sessions')
    | None =>
        if Js.truthy_str password
           && PasswordUtils.verifyPassword bcrypt_compare
                (default ""%string password) (default ""%string savedPassword)
        then Db.ret (Next None, sessions')
        else Db.ret (Unauthorized, sessions')
    end.

Inductive SetPasswordResponse :=
| SetOk                 (* 200 {success: true} *)
| SetAlreadySet         (* 400 *)
| SetFailed.            (* 500 *)

(** POST /api/set-password, after the rate limiter and the validator. *)
Definition setPasswordHandler (password salt : string) (now : Z)
  : Db.M SetPasswordResponse :=
  savedPassword ← loadAdminPassword now;
  if Js.truthy_str savedPassword then Db.ret SetAlreadySet
  else
    ok ← saveAdminPassword password salt now;
    if ok then Db.ret SetOk else Db.ret SetFailed.

(** GET /api/check-password: the [hasPassword] it reports. *)
Definition checkPasswordHandler (now : Z) : Db.M bool :=
  savedPassword ← loadAdminPassword now;
  Db.ret (Js.truthy_str savedPassword).

End Handlers.

(** POST /api/logout; the response is [{success: true}] in every case. *)
Definition logoutHandler (sessionToken : option string) (sessions : SessionStore.State)
  : SessionStore.State :=
  if Js.truthy_str sessionToken
  then SessionStore.destroySession (default ""%string sessionToken) sessions
  else sessions.

Section Accounts.

(** [encryptData], [decryptData] of crypto-utils and the ACCOUNTS_SECRET
    environment variable. *)
Variable encryptData : Encrypt.
Variable decryptData : Decrypt.
Variable ACCOUNTS_SECRET : option string.

Definition ENCRYPTION_ENABLED : bool :=
  Js.truthy_str ACCOUNTS_SECRET
  && (String.length (default ""%string ACCOUNTS_SECRET) =? 64)%nat.

Definition loadServerAccounts (now : Z) : Db.M (list Account) :=
  Db.loadAccounts ENCRYPTION_ENABLED decryptData (default ""%string ACCOUNTS_SECRET) None now.

Definition saveServerAccounts (accounts : list Account) (now : Z) : Db.M bool :=
  Db.saveAccounts accounts ENCRYPTION_ENABLED encryptData
    (default ""%string ACCOUNTS_SECRET) None now.

Inductive DeleteAccountResponse :=
| AccountDeleted        (* 200 *)
| AccountDeleteFailed   (* 500 *)
| AccountNotFound       (* 404 *)
| AccountBadIndex.      (* 400 *)

(** [validateIndex]: the parameter is the text of an integer from 0 to
    999.  [None] stands for a text that is not an integer. *)
Definition validateIndex (index : option Z) : bool :=
  match index with
  | Some i => (0 <=? i) && (i <=? 999)
  | None => false
  end.

(** DELETE /api/server-accounts/:index, after [requireAuth]; the
    notification it sends is fire-and-forget. *)
Definition deleteServerAccountHandler (index : option Z) (now : Z)
  : Db.M DeleteAccountResponse :=
  if negb (validateIndex index) then Db.ret AccountBadIndex
  else
    let index := default 0 index in
    accounts ← loadServerAccounts now;
    if (0 <=? index) && (index <? Z.of_nat (length accounts)) then
      ok ← saveServerAccounts (Js.splice1 (Z.to_nat index) accounts) now;
      if ok then Db.ret AccountDeleted else Db.ret AccountDeleteFailed
    else Db.ret AccountNotFound.

End Accounts.

(** The webhook API.  The registry of notifications.js is refilled with
    the objects [getWebhooks] returns; [toConfig] is such an object as the
    dispatcher reads it. *)
Definition toConfig (h : Webhook) : Notifications.WebhookConfig :=
  Notifications.mkConfig (wh_id h) (wh_url h) (wh_secret h) (wh_events h) (wh_createdAt h).

Inductive WebhookResponse :=
| WebhookSaved (id : string)   (* 200 {success: true, id} *)
| WebhookSaveFailed            (* 500 *)
| WebhookDeleted               (* 200 *)
| WebhookNotFound.             (* 404 *)

(** POST /api/webhooks, after [requireAuth] and the validator; [bytes]
    is what [crypto.randomBytes(8)] draws, [registry] the registry as the
    request finds it. *)
Definition postWebhookHandler (url : string) (name secret : option string)
  (events : option (list string)) (bytes : list byte) (now : Z)
  (registry : list Notifications.WebhookConfig)
  : Db.M (WebhookResponse * list Notifications.WebhookConfig) :=
  let id := Js.toHex bytes in
  let webhook := mkWebhook id None name url secret events (Some true) now in
  ok ← Db.saveWebhook webhook now;
  if ok then
    webhooks ← Db.getWebhooks None now;
    Db.ret (WebhookSaved id,
            Notifications.setWebhookConfigs (Some (List.map toConfig webhooks)))
  else Db.ret (WebhookSaveFailed, registry).

(** DELETE /api/webhooks/:id *)
Definition deleteWebhookHandler (webhookId : string) (now : Z)
  (registry : list Notifications.WebhookConfig)
  : Db.M (WebhookResponse * list Notifications.WebhookConfig) :=
  ok ← Db.deleteWebhook webhookId now;
  if ok then
    webhooks ← Db.getWebhooks None now;
    Db.ret (WebhookDeleted,
            Notifications.setWebhookConfigs (Some (List.map toConfig webhooks)))
  else Db.ret (WebhookNotFound, registry).

(** The administrator password as it is stored, in whichever back end is
    active. *)
Definition storedPassword (w : World) : option string :=
  if isDatabaseEnabled w then
    match pool w with
    | Some sv => config (Pg.committed sv) !! "admin_password"%string
    | None => None
    end
  else
    match password_json (fs w) with
    | Stored p => Some p
    | _ => None
    end.

(** A stand-in for bcrypt in examples: the prefix of a real hash, then
    salt and password. *)
Definition toy_hash (password : string) (rounds : nat) (salt : string) : string :=
  "$2b$12$" +:+ salt +:+ password.

Definition toy_compare (password hash : string) : bool :=
  String.eqb hash (toy_hash password 12 "salt").

(** A file-mode world whose password file holds the legacy clear text
    "abc123". *)
Definition legacyPasswordFile : World :=
  mkWorld None false
    (mkFileSystem true true Missing (Stored "abc123"%string) Missing Missing Missing).

End Server.

(** * Properties *)

(** ** Sorting by a key *)

Module JsProofs.

Import Js.

Local Open Scope Z_scope.

Section SortBy.

Context {A : Type} (key : A -> Z).

Local Abbreviation ascending := (Js.ascending key).

Lemma insertBy_In x y (l : list A) : In y (insertBy key x l) <-> y = x \/ In y l.
Proof.
  induction l as [|z l IH]; simpl.
  - intuition.
  - destruct (key x <=? key z); simpl; [intuition|].
    rewrite IH. intuition.
Qed.

Lemma sortBy_In y (l : list A) : In y (sortBy key l) <-> In y l.
Proof.
  induction l as [|x l IH]; simpl; [done|].
  unfold sortBy in *. simpl. rewrite insertBy_In, IH. intuition.
Qed.

Lemma insertBy_Permutation x (l : list A) : Permutation (insertBy key x l) (x :: l).
Proof.
  induction l as [|z l IH]; simpl; [done|].
  destruct (key x <=? key z); [done|].
  rewrite IH. apply perm_swap.
Qed.

Lemma sortBy_Permutation (l : list A) : Permutation (sortBy key l) l.
Proof.
  induction l as [|x l IH]; simpl; [done|].
  unfold sortBy in *. simpl. rewrite insertBy_Permutation. by constructor.
Qed.

Lemma insertBy_sorted x (l : list A) :
  StronglySorted ascending l -> StronglySorted ascending (insertBy key x l).
Proof.
  induction 1 as [|z l Hl IH Hz]; simpl.
  - repeat constructor.
  - destruct (Z.leb_spec (key x) (key z)) as [Hle|Hgt].
    + constructor; [by constructor|].
      constructor; [done|].
      eapply Forall_impl; [exact Hz|]. unfold ascending. intros; simpl in *; lia.
    + constructor; [done|].
      apply Forall_forall. intros y Hy. apply list_elem_of_In, insertBy_In in Hy.
      destruct Hy as [->|Hy]; [unfold ascending; lia|].
      rewrite Forall_forall in Hz. by apply Hz, list_elem_of_In.
Qed.

Lemma sortBy_sorted (l : list A) : StronglySorted ascending (sortBy key l).
Proof.
  induction l as [|x l IH]; simpl; [constructor|].
  unfold sortBy in *. simpl. by apply insertBy_sorted.
Qed.

(** Sorting leaves a list with strictly increasing keys as it is. *)
Lemma sortBy_increasing (l : list A) :
  StronglySorted (fun a b => key a < key b) l -> sortBy key l = l.
Proof.
  induction 1 as [|x l Hl IH Hx]; [done|].
  unfold sortBy in *. simpl. rewrite IH.
  destruct l as [|y l]; [done|]. simpl.
  apply Forall_cons_1 in Hx as [Hxy _].
  destruct (Z.leb_spec (key x) (key y)); [done|lia].
Qed.

End SortBy.

Lemma sorted_map {A B} (f : A -> B) (key : B -> Z) (l : list A) :
  StronglySorted (ascending (fun a => key (f a))) l ->
  StronglySorted (ascending key) (List.map f l).
Proof.
  induction 1 as [|x l Hl IH Hx]; simpl; constructor; [done|].
  rewrite Forall_forall in Hx. apply Forall_forall. intros y Hy.
  apply list_elem_of_In, List.in_map_iff in Hy as (a & <- & Ha).
  by apply Hx, list_elem_of_In.
Qed.

End JsProofs.

(** ** Sessions *)

Module SessionStoreProofs.

Import SessionStore.

Local Open Scope Z_scope.

Lemma append_inj_r (p s1 s2 : string) : p +:+ s1 = p +:+ s2 -> s1 = s2.
Proof.
  induction p as [|a p IH]; simpl; [done|].
  intros H. injection H as H. by apply IH.
Qed.

Lemma token_truthy rnd : Js.truthy_str (Some (generateSessionToken rnd)) = true.
Proof. reflexivity. Qed.

Lemma absent_lookup token st now :
  absent token st -> lookupSession token now st = None.
Proof.
  unfold absent, lookupSession, Redis.get.
  destruct (isRedisEnabled st), (redisClient st); intros ->; done.
Qed.

Lemma absent_destroySession token st : absent token (destroySession token st).
Proof.
  unfold absent, destroySession, Redis.del.
  destruct (isRedisEnabled st) eqn:E, (redisClient st) eqn:R; simpl;
    rewrite ?E, ?R; simpl; apply lookup_delete_eq.
Qed.

Lemma absent_destroySession_other token token' st :
  absent token st -> absent token (destroySession token' st).
Proof.
  unfold absent, destroySession, Redis.del.
  destruct (isRedisEnabled st) eqn:E, (redisClient st) eqn:R; simpl;
    rewrite ?E, ?R; simpl; intros H;
    apply lookup_delete_None; by right.
Qed.

Lemma absent_validateSession token tok now st :
  absent token st -> absent token (validateSession tok now st).2.
Proof.
  intros H. unfold validateSession.
  destruct (negb (Js.truthy_str tok)); [done|].
  destruct (lookupSession _ now st) as [s|]; [|done].
  destruct (now >? expiresAt s); [|done].
  by apply absent_destroySession_other.
Qed.

Lemma absent_createSession token u rnd t1 t2 st :
  generateSessionToken rnd ≠ token ->
  absent token st -> absent token (createSession u rnd t1 t2 st).2.
Proof.
  intros Hne. unfold absent, createSession, Redis.setex.
  destruct (isRedisEnabled st) eqn:E, (redisClient st) eqn:R; simpl;
    rewrite ?E, ?R; simpl; intros H;
    rewrite lookup_insert_ne; try done.
  intros Heq. apply Hne. by apply append_inj_r in Heq.
Qed.

Lemma absent_cleanExpiredSessions token now st :
  absent token st -> absent token (cleanExpiredSessions now st).
Proof.
  unfold absent, cleanExpiredSessions.
  destruct (isRedisEnabled st) eqn:E; [by rewrite ?E|].
  simpl. rewrite ?E. intros H.
  apply map_lookup_filter_None. by left.
Qed.

Lemma absent_step token c st :
  ¬ mints token c -> absent token st -> absent token (step c st).
Proof.
  destruct c; simpl; intros Hm H.
  - by apply absent_createSession.
  - by apply absent_validateSession.
  - by apply absent_destroySession_other.
  - by apply absent_cleanExpiredSessions.
Qed.

Lemma absent_run token cs st :
  Forall (fun c => ¬ mints token c) cs -> absent token st -> absent token (run cs st).
Proof.
  unfold run. intros Hcs. revert st.
  induction Hcs as [|c cs Hc _ IH]; intros st H; simpl; [done|].
  apply IH. by apply absent_step.
Qed.

Lemma validate_absent token now st :
  absent token st -> validateSession (Some token) now st = (None, st).
Proof.
  intros H. unfold validateSession.
  destruct (negb _); [done|]. simpl.
  by rewrite (absent_lookup _ _ _ H).
Qed.

Lemma validate_unknown token now st :
  lookupSession token now st = None ->
  validateSession (Some token) now st = (None, st).
Proof.
  intros H. unfold validateSession.
  destruct (negb _); [done|]. simpl. by rewrite H.
Qed.

Lemma validate_expired token s now st :
  token ≠ ""%string -> lookupSession token now st = Some s -> expiresAt s < now ->
  validateSession (Some token) now st = (None, destroySession token st).
Proof.
  intros Hne H Hexp. unfold validateSession.
  destruct token as [|a token]; [done|]. simpl in *. rewrite H.
  destruct (Z.gtb_spec now (expiresAt s)); [done|lia].
Qed.

Lemma validate_live token s now st :
  token ≠ ""%string -> lookupSession token now st = Some s -> now <= expiresAt s ->
  validateSession (Some token) now st = (Some s, st).
Proof.
  intros Hne H Hexp. unfold validateSession.
  destruct token as [|a token]; [done|]. simpl in *. rewrite H.
  destruct (Z.gtb_spec now (expiresAt s)); [lia|done].
Qed.

Lemma lookup_created u rnd t1 t2 now st :
  now < t2 + SESSION_DURATION ->
  lookupSession (generateSessionToken rnd) now (createSession u rnd t1 t2 st).2
  = Some (mkSession (default "admin"%string u) t1 (t2 + SESSION_DURATION)).
Proof.
  intros Hnow. unfold lookupSession, createSession, Redis.get, Redis.setex.
  destruct (isRedisEnabled st) eqn:E, (redisClient st) eqn:R;
    cbn [snd isRedisEnabled redisClient memorySessions]; rewrite ?E, ?R;
    rewrite lookup_insert_eq; try done.
  cbn [Redis.expireAt Redis.payload].
  replace (SESSION_DURATION / 1000 * 1000) with SESSION_DURATION by reflexivity.
  destruct (Z.ltb_spec now (t2 + SESSION_DURATION)); [done|lia].
Qed.

(** C2.  [validateSession] returns null for an absent, empty or unknown
    token; for a stored session whose [expiresAt] is before the current
    time it destroys the record (which is then gone at every later time)
    and returns null; it returns the stored record, leaving the store
    alone, otherwise.  A session just created validates, and returns the
    record [createSession] built, at any time before its [expiresAt]; and
    once a token has been destroyed it fails validation after any history
    of calls in which that token is not minted again. *)
Theorem validateSession_spec (st : State) (now : Z) :
  validateSession None now st = (None, st)
  /\ validateSession (Some ""%string) now st = (None, st)
  /\ (forall token, lookupSession token now st = None ->
        validateSession (Some token) now st = (None, st))
  /\ (forall token s,
        token ≠ ""%string -> lookupSession token now st = Some s -> expiresAt s < now ->
        validateSession (Some token) now st = (None, destroySession token st)
        /\ forall later, lookupSession token later (destroySession token st) = None)
  /\ (forall token s,
        token ≠ ""%string -> lookupSession token now st = Some s -> now <= expiresAt s ->
        validateSession (Some token) now st = (Some s, st))
  /\ (forall userId rnd now1 now2,
        now < now2 + SESSION_DURATION ->
        let '(token, st') := createSession userId rnd now1 now2 st in
        validateSession (Some token) now st'
        = (Some (mkSession (default "admin"%string userId) now1 (now2 + SESSION_DURATION)), st'))
  /\ (forall token history later,
        Forall (fun c => ¬ mints token c) history ->
        validateSession (Some token) later (run history (destroySession token st))
        = (None, run history (destroySession token st))).
Proof.
  split; [reflexivity|]. split; [reflexivity|].
  split; [intros token; apply validate_unknown|].
  split; [intros token s Hne Hl Hexp; split|].
  { by apply validate_expired with s. }
  { intros later. apply absent_lookup, absent_destroySession. }
  split; [intros token s; apply validate_live|].
  split.
  - intros u rnd t1 t2 Hnow.
    pose proof (lookup_created u rnd t1 t2 now st Hnow) as Hl.
    destruct (createSession u rnd t1 t2 st) as [token st'] eqn:Hc.
    assert (token = generateSessionToken rnd) as ->.
    { unfold createSession in Hc.
      destruct (isRedisEnabled st), (redisClient st); by inversion Hc. }
    simpl in Hl. apply validate_live; [done|done|]. simpl. lia.
  - intros token history later Hh.
    apply validate_absent, absent_run; [done|]. apply absent_destroySession.
Qed.

(** The theorem at a memory-mode store holding one session that expires
    at time 100: read at 100 it is returned, read at 101 it is destroyed. *)
Lemma validateSession_spec_witness :
  let st := mkState None false {[ "session_ab"%string := mkSession "admin" 0 100 ]} in
  validateSession (Some "session_ab"%string) 100 st = (Some (mkSession "admin" 0 100), st)
  /\ validateSession (Some "session_ab"%string) 101 st
     = (None, destroySession "session_ab" st).
Proof.
  intros st. split.
  - destruct (validateSession_spec st 100) as (_ & _ & _ & _ & H & _).
    apply H; [discriminate | vm_compute; reflexivity | simpl; lia].
  - destruct (validateSession_spec st 101) as (_ & _ & _ & H & _).
    apply (H "session_ab"%string (mkSession "admin" 0 100));
      [discriminate | vm_compute; reflexivity | simpl; lia].
Defined.

End SessionStoreProofs.

(** ** Webhook fan-out *)

Module NotificationsProofs.

Import Notifications.

Local Open Scope Z_scope.

Lemma includes_In (xs : list string) (x : string) :
  Js.includes xs x = true <-> In x xs.
Proof.
  unfold Js.includes. rewrite existsb_exists. split.
  - intros (y & Hy & Heq). apply String.eqb_eq in Heq. by subst.
  - intros H. exists x. split; [done|]. apply String.eqb_refl.
Qed.

Lemma subscribed_iff (event : string) (config : WebhookConfig) :
  subscribed event config = true
  <-> events config = None \/ exists evs, events config = Some evs /\ In event evs.
Proof.
  unfold subscribed. destruct (events config) as [evs|].
  - rewrite includes_In. split.
    + intros H. right. by exists evs.
    + intros [H|(evs' & H & Hin)]; [done|]. by inversion H; subst.
  - split; [by left|done].
Qed.

Section Counts.

Variable JSON_stringify : Envelope -> string.
Variable hmac_sha256_hex : string -> string -> string.
Variable transport : Request -> NetOutcome.

Let send := sendToWebhook hmac_sha256_hex transport.

Lemma rejected_fulfilled (r : Settled) : rejected r = negb (fulfilled r).
Proof. by destruct r. Qed.

Lemma filter_split_length {A} (p : A -> bool) (l : list A) :
  (length (List.filter p l) + length (List.filter (fun x => negb (p x)) l))%nat = length l.
Proof.
  induction l as [|x l IH]; simpl; [done|].
  destruct (p x); simpl; lia.
Qed.

Lemma settled_split_length (results : list Settled) :
  (length (List.filter fulfilled results) + length (List.filter rejected results))%nat
  = length results.
Proof.
  rewrite <- (filter_split_length fulfilled results). f_equal. f_equal.
  apply List.filter_ext. intros r. apply rejected_fulfilled.
Qed.

(** The request built for any registration carries the X-Webhook-Event
    header without a value, so the promise is rejected before anything
    is sent. *)
Lemma sendToWebhook_rejected config payload :
  send config payload = Rejected InvalidRequest.
Proof.
  unfold send, sendToWebhook, buildRequest.
  by destruct (Js.truthy_str (secret config)).
Qed.

Lemma sendWebhook_counts event data now configs :
  sendWebhook JSON_stringify hmac_sha256_hex transport event data now configs
  = mkSendResult 0 (length (recipients event configs)).
Proof.
  unfold sendWebhook, deliveries. rewrite List.map_map. simpl.
  fold send. induction (recipients event configs) as [|c cs IH]; simpl; [done|].
  rewrite sendToWebhook_rejected. simpl. injection IH as H0 H1. by rewrite H0, H1.
Qed.

End Counts.

(** C1, as stated, fails: with A(events=["service_down"]) and
    B(events=[]) registered and every endpoint answering 200, the call
    for "login_failed" reaches nobody and returns {success:0, failed:0};
    the recipients are not those the specification's filter selects, and
    the result is not {success:1, failed:0}. *)
Lemma sendWebhook_empty_events_counterexample :
  let transport := fun _ : Request => Responded 200 "ok" in
  let stringify := fun e : Envelope => event e in
  let hmac := fun key msg : string => key in
  recipients "login_failed" [regA; regB_empty] = []
  /\ recipients "login_failed" [regA; regB_empty]
     <> List.filter (spec_subscribed "login_failed") [regA; regB_empty]
  /\ sendWebhook stringify hmac transport "login_failed" "{}" 0 [regA; regB_empty]
     = mkSendResult 0 0
  /\ sendWebhook stringify hmac transport "login_failed" "{}" 0 [regA; regB_empty]
     <> mkSendResult 1 0.
Proof. repeat split; vm_compute; congruence. Qed.

(** C1, amended.  [sendWebhook] hands to [sendToWebhook], in registry
    order and once per registration, exactly the registrations whose
    [events] is absent or contains the event type (a registration
    carrying an empty list receives nothing); [success] counts the
    deliveries whose promise was fulfilled, [failed] those whose promise
    was rejected, so the two add up to the number of deliveries.  With
    A(events=["service_down"]) and B without an [events] list, a
    "login_failed" call is delivered to B only, and its two counts add up
    to one. *)
Theorem sendWebhook_fanout
  (JSON_stringify : Envelope -> string)
  (hmac_sha256_hex : string -> string -> string)
  (transport : Request -> NetOutcome)
  (event data : string) (now : Z) (configs : list WebhookConfig) :
  let sent := deliveries JSON_stringify hmac_sha256_hex transport event data now configs in
  let result := sendWebhook JSON_stringify hmac_sha256_hex transport event data now configs in
  let sentB := deliveries JSON_stringify hmac_sha256_hex transport
                 "login_failed" data now [regA; regB_absent] in
  let resultB := sendWebhook JSON_stringify hmac_sha256_hex transport
                   "login_failed" data now [regA; regB_absent] in
  List.map fst sent = List.filter (subscribed event) configs
  /\ (forall c, In c (List.map fst sent) <->
        In c configs /\
        (events c = None \/ exists evs, events c = Some evs /\ In event evs))
  /\ (forall c, events c = Some [] -> ~ In c (List.map fst sent))
  /\ success result = length (List.filter fulfilled (List.map snd sent))
  /\ failed result = length (List.filter rejected (List.map snd sent))
  /\ (success result + failed result)%nat = length sent
  /\ List.map fst sentB = [regB_absent]
  /\ (success resultB + failed resultB)%nat = 1%nat.
Proof.
  intros sent result sentB resultB.
  assert (Hfst : forall ev cs,
            List.map fst (deliveries JSON_stringify hmac_sha256_hex transport ev data now cs)
            = recipients ev cs).
  { intros ev cs. unfold deliveries. rewrite List.map_map. simpl. apply List.map_id. }
  assert (Hsum : forall ev cs,
            (success (sendWebhook JSON_stringify hmac_sha256_hex transport ev data now cs)
             + failed (sendWebhook JSON_stringify hmac_sha256_hex transport ev data now cs))%nat
            = length (deliveries JSON_stringify hmac_sha256_hex transport ev data now cs)).
  { intros ev cs. unfold sendWebhook. simpl.
    by rewrite settled_split_length, List.length_map. }
  split; [apply Hfst|].
  split.
  { intros c. unfold sent. rewrite Hfst. unfold recipients.
    rewrite List.filter_In, subscribed_iff. reflexivity. }
  split.
  { intros c Hc. unfold sent. rewrite Hfst. unfold recipients.
    rewrite List.filter_In. unfold subscribed. rewrite Hc. simpl.
    intros [_ H]. discriminate. }
  split; [done|]. split; [done|].
  split; [apply Hsum|].
  split; [unfold sentB; by rewrite Hfst|].
  unfold resultB. rewrite Hsum, <- (List.length_map fst), Hfst. reflexivity.
Qed.

End NotificationsProofs.

(** ** The persistence module *)

Module DbProofs.

Import Exn.
Import Db.

Local Open Scope Z_scope.

Lemma readOr_spec (f : File) (fallback : Content f) (w : World) :
  readOr f fallback w = (Return (contentOr f fallback (fs w)), w).
Proof.
  unfold readOr, try_catch, bind, existsSync, readJson, contentOr, ret.
  destruct (file f (fs w)) eqn:E; simpl; by rewrite ?E.
Qed.

Lemma isDatabaseEnabled_fs w d :
  isDatabaseEnabled (mkWorld (pool w) (isDbEnabled w) d) = isDatabaseEnabled w.
Proof. reflexivity. Qed.

(** *** User ids in file mode *)

Lemma ensureDataDir_file w u w' :
  ensureDataDir w = (u, w') ->
  (forall f, file f (fs w') = file f (fs w))
  /\ pool w' = pool w /\ isDbEnabled w' = isDbEnabled w.
Proof.
  unfold ensureDataDir.
  destruct (data_dir (fs w)); [by intros [= _ <-]|].
  destruct (writable (fs w)); intros [= _ <-]; (split; [by intros []|done]).
Qed.

Lemma ensureDataDir_users w u w' :
  ensureDataDir w = (u, w') -> storedUsers w' = storedUsers w.
Proof.
  intros H. apply ensureDataDir_file in H as [H _].
  unfold storedUsers, contentOr. by rewrite H.
Qed.

Lemma createUser_file_returns w username passwordHash role now i w' :
  isDatabaseEnabled w = false ->
  createUser username passwordHash role now w = (Return i, w') ->
  i = Z.of_nat (length (storedUsers w)) + 1
  /\ users_json (fs w')
     = Stored (storedUsers w ++ [mkUser i username passwordHash role now]).
Proof.
  intros Hfile. unfold createUser. rewrite Hfile. unfold bind.
  destruct (ensureDataDir w) as [[[]|e] w1] eqn:He; [|done].
  apply ensureDataDir_users in He.
  unfold loadUsersFromFile. rewrite readOr_spec. fold (storedUsers w1). rewrite He.
  destruct (existsb _ _); [done|].
  unfold writeJson, ret.
  destruct (writable (fs w1) && _); [|done].
  intros [= <- <-]. done.
Qed.

Lemma createUser_file_progress w username passwordHash role now :
  isDatabaseEnabled w = false ->
  data_dir (fs w) = true -> writable (fs w) = true ->
  existsb (fun u => String.eqb (Db.username u) username) (storedUsers w) = false ->
  returned (createUser username passwordHash role now) w
  = Some (Z.of_nat (length (storedUsers w)) + 1).
Proof.
  intros Hfile Hd Hw Hfresh. unfold returned, createUser. rewrite Hfile.
  unfold bind, ensureDataDir. rewrite Hd.
  unfold loadUsersFromFile. rewrite readOr_spec. fold (storedUsers w).
  rewrite Hfresh. unfold writeJson. rewrite Hw, Hd. reflexivity.
Qed.

(** C10.  In the file back end a [createUser] that returns hands out the
    number of stored users plus one and appends the new record (and it
    does return whenever the directory is writable and the name is free);
    so ids are not unique once a user has been deleted: after creating
    alice and bob, deleting alice and creating carol, the users file
    holds bob and carol, both with id 2. *)
Theorem createUser_file_id_collision :
  (forall w username passwordHash role now i w',
     isDatabaseEnabled w = false ->
     createUser username passwordHash role now w = (Return i, w') ->
     i = Z.of_nat (length (storedUsers w)) + 1
     /\ users_json (fs w')
        = Stored (storedUsers w ++ [mkUser i username passwordHash role now]))
  /\ (forall w username passwordHash role now,
        isDatabaseEnabled w = false ->
        data_dir (fs w) = true -> writable (fs w) = true ->
        existsb (fun u => String.eqb (Db.username u) username) (storedUsers w) = false ->
        returned (createUser username passwordHash role now) w
        = Some (Z.of_nat (length (storedUsers w)) + 1))
  /\ storedUsers collisionScenario
     = [mkUser 2 "bob" "$2b$h2" "user" 20; mkUser 2 "carol" "$2b$h3" "user" 40]
  /\ exists u1 u2,
       storedUsers collisionScenario !! 0%nat = Some u1
       /\ storedUsers collisionScenario !! 1%nat = Some u2
       /\ Db.username u1 <> Db.username u2
       /\ Db.id u1 = Db.id u2.
Proof.
  split; [apply createUser_file_returns|].
  split; [apply createUser_file_progress|].
  split; [reflexivity|].
  exists (mkUser 2 "bob" "$2b$h2" "user" 20), (mkUser 2 "carol" "$2b$h3" "user" 40).
  repeat split; try reflexivity. simpl. discriminate.
Qed.

(** The first user created in a fresh directory gets id 1. *)
Lemma createUser_file_id_collision_witness :
  returned (createUser "alice" "$2b$h1" "user" 10) freshFiles = Some 1.
Proof.
  destruct createUser_file_id_collision as (_ & H & _).
  apply (H freshFiles); reflexivity.
Defined.

(** *** Reading accounts *)

Lemma pool_query_world now s sv b d :
  pool_query now s (mkWorld (Some sv) b d)
  = (match (Pg.pool_query now s sv).1 with
     | inl code => Throw (PgError code)
     | inr a => Return a
     end,
     mkWorld (Some (Pg.pool_query now s sv).2) b d).
Proof.
  unfold pool_query, lift_pg. simpl. by destruct (Pg.pool_query now s sv).
Qed.

Lemma enabled_pool w :
  isDatabaseEnabled w = true -> exists sv, w = mkWorld (Some sv) true (fs w).
Proof.
  unfold isDatabaseEnabled. destruct w as [[sv|] [] d]; simpl; try done.
  intros _. by exists sv.
Qed.

(** In database mode the call returns the SELECT's rows, each mapped on
    its own, or the empty list when the SELECT is refused. *)
Lemma loadAccounts_db enc decryptFn secret userId now sv d :
  loadAccounts enc decryptFn secret userId now (mkWorld (Some sv) true d)
  = (Return (match (Pg.pool_query now (SelectAccounts (scope userId)) sv).1 with
             | inl _ => []
             | inr rows => List.map (decryptRow enc decryptFn secret) rows
             end),
     mkWorld (Some (Pg.pool_query now (SelectAccounts (scope userId)) sv).2) true d).
Proof.
  unfold loadAccounts. simpl. unfold try_catch, bind.
  rewrite pool_query_world.
  by destruct ((Pg.pool_query now (SelectAccounts (scope userId)) sv).1).
Qed.

Lemma loadAccounts_legacy_db enc decryptFn secret now sv d :
  DbLegacy.loadAccounts enc decryptFn secret now (mkWorld (Some sv) true d)
  = (Return (match (Pg.pool_query now (SelectAccounts None) sv).1 with
             | inl _ => []
             | inr rows => List.map (decryptRow enc decryptFn secret) rows
             end),
     mkWorld (Some (Pg.pool_query now (SelectAccounts None) sv).2) true d).
Proof.
  unfold DbLegacy.loadAccounts. simpl. unfold try_catch, bind.
  rewrite pool_query_world.
  by destruct ((Pg.pool_query now (SelectAccounts None) sv).1).
Qed.

(** In file mode the world is left as it was and the result is read off
    the accounts file. *)
Lemma loadAccounts_file enc decryptFn secret userId now w :
  isDatabaseEnabled w = false ->
  loadAccounts enc decryptFn secret userId now w
  = (Return (match accounts_json (fs w) with
             | Stored accounts =>
                 if enc then List.map (decryptAccount decryptFn secret) accounts
                 else accounts
             | _ => []
             end), w).
Proof.
  intros Hfile. unfold loadAccounts. rewrite Hfile.
  unfold try_catch, bind, existsSync, readJson, ret. simpl.
  destruct (accounts_json (fs w)) eqn:E; simpl; rewrite ?E; try done.
  by destruct enc.
Qed.

Lemma loadAccounts_legacy_file enc decryptFn secret now w :
  isDatabaseEnabled w = false ->
  DbLegacy.loadAccounts enc decryptFn secret now w
  = loadAccounts enc decryptFn secret None now w.
Proof.
  intros Hfile. unfold DbLegacy.loadAccounts, loadAccounts. by rewrite Hfile.
Qed.

(** C9.  [loadAccounts] never throws: in every world it returns a list
    and leaves the files alone.  When the SELECT is refused in database
    mode, and when the accounts file is missing or cannot be read or
    parsed in file mode, the list is empty.  The same holds for the
    single-tenant db.js. *)
Theorem loadAccounts_total
  (encryptionEnabled : bool) (decryptFn : Decrypt) (secret : string)
  (userId : option Z) (now : Z) (w : World) :
  (exists l w',
     loadAccounts encryptionEnabled decryptFn secret userId now w = (Return l, w')
     /\ fs w' = fs w)
  /\ (forall sv code,
        isDatabaseEnabled w = true -> pool w = Some sv ->
        (Pg.pool_query now (SelectAccounts (scope userId)) sv).1 = inl code ->
        returned (loadAccounts encryptionEnabled decryptFn secret userId now) w = Some [])
  /\ (isDatabaseEnabled w = false -> accounts_json (fs w) = Missing ->
      loadAccounts encryptionEnabled decryptFn secret userId now w = (Return [], w))
  /\ (isDatabaseEnabled w = false -> accounts_json (fs w) = Unreadable ->
      loadAccounts encryptionEnabled decryptFn secret userId now w = (Return [], w))
  /\ (exists l w',
        DbLegacy.loadAccounts encryptionEnabled decryptFn secret now w = (Return l, w')
        /\ fs w' = fs w)
  /\ (forall sv code,
        isDatabaseEnabled w = true -> pool w = Some sv ->
        (Pg.pool_query now (SelectAccounts None) sv).1 = inl code ->
        returned (DbLegacy.loadAccounts encryptionEnabled decryptFn secret now) w = Some [])
  /\ (isDatabaseEnabled w = false -> accounts_json (fs w) = Missing ->
      DbLegacy.loadAccounts encryptionEnabled decryptFn secret now w = (Return [], w))
  /\ (isDatabaseEnabled w = false -> accounts_json (fs w) = Unreadable ->
      DbLegacy.loadAccounts encryptionEnabled decryptFn secret now w = (Return [], w)).
Proof.
  assert (Hfm : forall u, isDatabaseEnabled w = false -> accounts_json (fs w) = Missing ->
            loadAccounts encryptionEnabled decryptFn secret u now w = (Return [], w)).
  { intros u Hf Hm. rewrite loadAccounts_file by done. by rewrite Hm. }
  assert (Hfu : forall u, isDatabaseEnabled w = false -> accounts_json (fs w) = Unreadable ->
            loadAccounts encryptionEnabled decryptFn secret u now w = (Return [], w)).
  { intros u Hf Hm. rewrite loadAccounts_file by done. by rewrite Hm. }
  split.
  { destruct (isDatabaseEnabled w) eqn:Hen.
    - destruct (enabled_pool w Hen) as [sv ->]. rewrite loadAccounts_db. eauto.
    - rewrite loadAccounts_file by done. eauto. }
  split.
  { intros sv code Hen Hp Hq. destruct (enabled_pool w Hen) as [sv' Hw].
    rewrite Hw in Hp |- *. simpl in Hp. injection Hp as ->.
    unfold returned. rewrite loadAccounts_db. simpl. by rewrite Hq. }
  split; [apply Hfm|]. split; [apply Hfu|].
  split.
  { destruct (isDatabaseEnabled w) eqn:Hen.
    - destruct (enabled_pool w Hen) as [sv ->]. rewrite loadAccounts_legacy_db. eauto.
    - rewrite loadAccounts_legacy_file, loadAccounts_file by done. eauto. }
  split.
  { intros sv code Hen Hp Hq. destruct (enabled_pool w Hen) as [sv' Hw].
    rewrite Hw in Hp |- *. simpl in Hp. injection Hp as ->.
    unfold returned. rewrite loadAccounts_legacy_db. simpl. by rewrite Hq. }
  split; intros Hf Hm; rewrite loadAccounts_legacy_file by done; auto.
Qed.

(** A server that refuses the next statement, and an unreadable file. *)
Lemma loadAccounts_total_witness :
  returned (loadAccounts true (fun _ _ => None) "k" (Some 7) 0)
    (mkWorld (Some (Pg.mkServer Sql.empty Pg.Idle [true] [])) true (fs freshFiles))
  = Some []
  /\ loadAccounts true (fun _ _ => None) "k" None 0
       (mkWorld None false (mkFileSystem true true Unreadable Missing Missing Missing Missing))
     = (Return [],
        mkWorld None false (mkFileSystem true true Unreadable Missing Missing Missing Missing)).
Proof.
  split.
  - refine (proj1 (proj2 (loadAccounts_total true (fun _ _ => None) "k" (Some 7) 0 _))
              (Pg.mkServer Sql.empty Pg.Idle [true] []) Sql.server_fault _ _ _);
      reflexivity.
  - apply (loadAccounts_total true (fun _ _ => None) "k" None 0); reflexivity.
Defined.

(** *** One corrupted record *)

Lemma decryptAccount_resolves decryptFn secret (l : list Account) :
  Forall2 (resolves decryptFn secret) l (List.map (decryptAccount decryptFn secret) l).
Proof.
  induction l as [|a l IH]; simpl; constructor; [|done].
  unfold resolves, decryptAccount.
  destruct (encryptedToken a) as [enc|] eqn:E; [|done].
  by destruct (decryptFn enc secret) eqn:D.
Qed.

Lemma decryptRow_resolves decryptFn secret (l : list AccountRow) :
  Forall2 (resolvesRow decryptFn secret) l (List.map (decryptRow true decryptFn secret) l).
Proof.
  induction l as [|a l IH]; simpl; constructor; [|done].
  unfold resolvesRow, decryptRow.
  destruct (accounts_encrypted_token a) as [enc|]; [|done].
  by destruct (decryptFn enc secret).
Qed.

(** C5.  With encryption enabled, a stored record whose ciphertext does
    not decrypt does not make [loadAccounts] throw and does not disturb
    its neighbours.  In file mode the call returns the record as stored
    (clear token if it has one, ciphertext still attached) between the
    resolved records before and after it; in database mode it returns
    the row's name with the row's clear-text token between the resolved
    rows before and after it. *)
Theorem loadAccounts_isolates_corruption
  (decryptFn : Decrypt) (secret : string) (userId : option Z) (now : Z) :
  (forall w pre bad post enc,
     isDatabaseEnabled w = false ->
     accounts_json (fs w) = Stored (pre ++ bad :: post) ->
     encryptedToken bad = Some enc -> decryptFn enc secret = None ->
     exists pre' post',
       loadAccounts true decryptFn secret userId now w
       = (Return (pre' ++ bad :: post'), w)
       /\ Forall2 (resolves decryptFn secret) pre pre'
       /\ Forall2 (resolves decryptFn secret) post post')
  /\ (forall sv d pre bad post enc,
        (Pg.pool_query now (SelectAccounts (scope userId)) sv).1
        = inr (pre ++ bad :: post) ->
        accounts_encrypted_token bad = Some enc -> decryptFn enc secret = None ->
        exists pre' post',
          returned (loadAccounts true decryptFn secret userId now)
            (mkWorld (Some sv) true d)
          = Some (pre' ++ mkAccount (accounts_name bad) (accounts_token bad) None :: post')
          /\ Forall2 (resolvesRow decryptFn secret) pre pre'
          /\ Forall2 (resolvesRow decryptFn secret) post post').
Proof.
  split.
  - intros w pre bad post enc Hf Hs He Hd.
    exists (List.map (decryptAccount decryptFn secret) pre),
           (List.map (decryptAccount decryptFn secret) post).
    split; [|split; apply decryptAccount_resolves].
    rewrite loadAccounts_file by done. rewrite Hs.
    rewrite List.map_app. simpl.
    unfold decryptAccount at 2. by rewrite He, Hd.
  - intros sv d pre bad post enc Hq He Hd.
    exists (List.map (decryptRow true decryptFn secret) pre),
           (List.map (decryptRow true decryptFn secret) post).
    split; [|split; apply decryptRow_resolves].
    unfold returned. rewrite loadAccounts_db. simpl. rewrite Hq.
    rewrite List.map_app. simpl.
    unfold decryptRow at 2. by rewrite He, Hd.
Qed.

(** Three stored objects, the middle one with a ciphertext the cipher
    rejects: the outer two come back in the clear, the middle one as
    stored. *)
Lemma loadAccounts_isolates_corruption_witness :
  let decryptFn : Decrypt :=
    fun enc _ => if String.eqb enc "bad" then None else Some ("clear-" +:+ enc) in
  let a1 := mkAccount "one" None (Some "c1"%string) in
  let a2 := mkAccount "two" None (Some "bad"%string) in
  let a3 := mkAccount "three" None (Some "c3"%string) in
  let w := mkWorld None false
             (mkFileSystem true true (Stored [a1; a2; a3]) Missing Missing Missing Missing) in
  exists pre' post',
    loadAccounts true decryptFn "k" None 0 w = (Return (pre' ++ a2 :: post'), w)
    /\ Forall2 (resolves decryptFn "k") [a1] pre'
    /\ Forall2 (resolves decryptFn "k") [a3] post'.
Proof.
  intros decryptFn a1 a2 a3 w.
  apply (proj1 (loadAccounts_isolates_corruption decryptFn "k" None 0)
           w [a1] a2 [a3] "bad"%string); reflexivity.
Defined.

(** *** Usage history *)

Lemma recordUsage_file w accountName usageAmount now1 now2 w' :
  isDatabaseEnabled w = false ->
  recordUsage accountName usageAmount now1 now2 w = (Return true, w') ->
  isDatabaseEnabled w' = false
  /\ usage_history_json (fs w')
     = Stored (List.filter (fun h => recordedAt h >? now2 - THIRTY_DAYS)
                 (storedUsage w ++ [mkUsageRecord accountName usageAmount now1])).
Proof.
  intros Hfile. unfold recordUsage. rewrite Hfile. unfold bind.
  destruct (ensureDataDir w) as [[[]|e] w1] eqn:He; [|done].
  apply ensureDataDir_file in He as (Hf & Hp & Hb).
  unfold loadUsageHistoryFromFile. rewrite readOr_spec.
  unfold writeJson, ret.
  destruct (writable (fs w1) && _); [|done].
  intros [= <-]. split.
  - unfold isDatabaseEnabled in *. simpl. by rewrite Hp, Hb.
  - simpl. unfold storedUsage, contentOr. by rewrite (Hf USAGE_HISTORY_FILE).
Qed.

Lemma getUsageHistory_file w accountName days now :
  isDatabaseEnabled w = false ->
  getUsageHistory accountName days now w
  = (Return
       (Js.sortBy recordedAt
          (List.filter
             (fun h =>
                (recordedAt h >? now - days * 24 * 60 * 60 * 1000)
                && (negb (Js.truthy_str accountName)
                    || String.eqb (Db.accountName h) (default ""%string accountName)))
             (storedUsage w))), w).
Proof.
  intros Hfile. unfold getUsageHistory. rewrite Hfile. unfold bind.
  unfold loadUsageHistoryFromFile. by rewrite readOr_spec.
Qed.

Lemma recordUsage_db sv d accountName usageAmount now1 now2 w' :
  recordUsage accountName usageAmount now1 now2 (mkWorld (Some sv) true d) = (Return true, w') ->
  exists sv',
    w' = mkWorld (Some sv') true d
    /\ usage_history (Pg.committed sv')
       = usage_history (Pg.committed sv)
         ++ [mkUsageRow (usage_history_id_seq (Pg.committed sv)) accountName usageAmount now1].
Proof.
  unfold recordUsage. simpl. unfold bind. rewrite pool_query_world.
  unfold Pg.pool_query. destruct (Pg.next_fault sv) as [[] rest]; simpl; [done|].
  destruct (Sql.varchar 255 accountName); simpl; [|done].
  destruct (Sql.decimal_10_4 usageAmount); simpl; [|done].
  intros [= <-]. eexists. split; [reflexivity|]. reflexivity.
Qed.

Lemma getUsageHistory_db sv d accountName days now l w' :
  getUsageHistory accountName days now (mkWorld (Some sv) true d) = (Return l, w') ->
  exists sv',
    w' = mkWorld (Some sv') true d
    /\ Pg.committed sv' = Pg.committed sv
    /\ l = List.map rowToUsage
             (Js.sortBy recorded_at
                (List.filter
                   (fun r =>
                      (recorded_at r >? now - days * 24 * 60 * 60 * 1000)
                      && (negb (Js.truthy_str accountName)
                          || String.eqb (account_name r) (default ""%string accountName)))
                   (usage_history (Pg.committed sv)))).
Proof.
  unfold getUsageHistory. simpl. unfold bind. rewrite pool_query_world.
  unfold Pg.pool_query. destruct (Pg.next_fault sv) as [[] rest]; simpl; [done|].
  destruct accountName as [[|c a]|]; simpl; intros [= <- <-];
    (eexists; split; [reflexivity|]; split; [reflexivity|]); simpl;
    f_equal; f_equal; apply List.filter_ext; intros r;
    by rewrite ?andb_true_r.
Qed.

(** No statement the module sends removes a usage row. *)
Lemma exec_keeps_usage now s db db' (r : Result s) :
  exec now s db = inr (db', r) ->
  exists extra, usage_history db' = usage_history db ++ extra.
Proof.
  destruct s as [| | |[u|]|u| | |u n e|u n t| |v|un ph ro|un| |i|[u|]|row|i|n a|si [n|]];
    simpl; unfold insert_account;
    repeat match goal with
           | |- context [if ?c then _ else _] => destruct c
           end;
    intros H; try discriminate; injection H as <- _; simpl;
    first [ by exists []; rewrite app_nil_r | by eexists ].
Qed.

(** C8.  File mode: a [recordUsage] that succeeds rewrites the file with
    exactly the records, old and new, stamped after the cut-off of thirty
    days before the call; so a record stamped thirty days or more before
    it (one recorded 31 days ago, say) is gone from the file and from
    every later read, while younger ones are kept.  Database mode: a
    [recordUsage] that succeeds appends one row and deletes none, and
    [getUsageHistory] leaves the table as it is and returns just the rows
    stamped after its own cut-off (and matching the account, if one is
    given); so a row stamped [days] days or more before the read stays
    in the table and is left out of the result by the filter alone.  In
    both modes the result is ascending in record time.  No statement the
    module ever sends removes a row of the usage table. *)
Theorem usage_retention_asymmetry :
  (forall w accountName usageAmount now1 now2 w',
     isDatabaseEnabled w = false ->
     recordUsage accountName usageAmount now1 now2 w = (Return true, w') ->
     usage_history_json (fs w')
     = Stored (List.filter (fun h => recordedAt h >? now2 - THIRTY_DAYS)
                 (storedUsage w ++ [mkUsageRecord accountName usageAmount now1]))
     /\ (forall h, In h (storedUsage w') -> now2 - THIRTY_DAYS < recordedAt h)
     /\ (forall h, In h (storedUsage w) -> now2 - THIRTY_DAYS < recordedAt h ->
          In h (storedUsage w'))
     /\ (forall h, recordedAt h <= now2 - 31 * DAY -> ~ In h (storedUsage w'))
     /\ (forall h account days now l w'',
          recordedAt h <= now2 - THIRTY_DAYS ->
          getUsageHistory account days now w' = (Return l, w'') -> ~ In h l))
  /\ (forall sv d accountName usageAmount now1 now2 w',
        recordUsage accountName usageAmount now1 now2 (mkWorld (Some sv) true d)
        = (Return true, w') ->
        exists row,
          usageRows w' = usage_history (Pg.committed sv) ++ [row]
          /\ rowToUsage row = mkUsageRecord accountName usageAmount now1)
  /\ (forall sv d account days now l w',
        getUsageHistory account days now (mkWorld (Some sv) true d) = (Return l, w') ->
        usageRows w' = usage_history (Pg.committed sv)
        /\ (forall h, In h l -> now - days * DAY < recordedAt h)
        /\ (forall r, In r (usage_history (Pg.committed sv)) ->
             now - days * DAY < recorded_at r ->
             (Js.truthy_str account = true -> account = Some (account_name r)) ->
             In (rowToUsage r) l)
        /\ (forall r, In r (usage_history (Pg.committed sv)) ->
             recorded_at r <= now - days * DAY ->
             In r (usageRows w') /\ ~ In (rowToUsage r) l)
        /\ StronglySorted (Js.ascending recordedAt) l)
  /\ (forall w account days now l w',
        isDatabaseEnabled w = false ->
        getUsageHistory account days now w = (Return l, w') ->
        w' = w /\ StronglySorted (Js.ascending recordedAt) l)
  /\ (forall now s db db' (r : Result s),
        exec now s db = inr (db', r) ->
        exists extra, usage_history db' = usage_history db ++ extra).
Proof.
  split; [|split; [|split; [|split]]].
  - intros w a u now1 now2 w' Hfile Hrec.
    destruct (recordUsage_file _ _ _ _ _ _ Hfile Hrec) as [Hfile' Hst].
    assert (Hafter : storedUsage w'
              = List.filter (fun h => recordedAt h >? now2 - THIRTY_DAYS)
                  (storedUsage w ++ [mkUsageRecord a u now1])).
    { unfold storedUsage at 1, contentOr. simpl. by rewrite Hst. }
    assert (Hyoung : forall h, In h (storedUsage w') -> now2 - THIRTY_DAYS < recordedAt h).
    { intros h. rewrite Hafter, List.filter_In. intros [_ H]. lia. }
    split; [done|]. split; [done|]. split; [|split].
    + intros h Hin Hy. rewrite Hafter, List.filter_In. split; [|lia].
      apply List.in_or_app. by left.
    + intros h Hold Hin. apply Hyoung in Hin. unfold THIRTY_DAYS, DAY in *. lia.
    + intros h account days now l w'' Hold Hget.
      rewrite getUsageHistory_file in Hget by done. injection Hget as <- _.
      rewrite JsProofs.sortBy_In, List.filter_In. intros [Hin _].
      apply Hyoung in Hin. lia.
  - intros sv d a u now1 now2 w' Hrec.
    destruct (recordUsage_db _ _ _ _ _ _ _ Hrec) as (sv' & -> & Hrows).
    eexists. split; [exact Hrows|reflexivity].
  - intros sv d account days now l w' Hget.
    destruct (getUsageHistory_db _ _ _ _ _ _ _ Hget) as (sv' & -> & Hc & ->).
    unfold usageRows. simpl. rewrite Hc.
    assert (Hin : forall h,
              In h (List.map rowToUsage
                      (Js.sortBy recorded_at
                         (List.filter
                            (fun r =>
                               (recorded_at r >? now - days * 24 * 60 * 60 * 1000)
                               && (negb (Js.truthy_str account)
                                   || String.eqb (account_name r)
                                        (default ""%string account)))
                            (usage_history (Pg.committed sv)))))
              <-> exists r, rowToUsage r = h
                            /\ In r (usage_history (Pg.committed sv))
                            /\ now - days * DAY < recorded_at r
                            /\ (negb (Js.truthy_str account)
                                || String.eqb (account_name r)
                                     (default ""%string account)) = true).
    { intros h. rewrite List.in_map_iff. unfold DAY.
      split; intros (r & Hr & H); exists r; (split; [done|]).
      - rewrite JsProofs.sortBy_In, List.filter_In, andb_true_iff in H.
        destruct H as (? & ? & ?). repeat split; [done|lia|done].
      - rewrite JsProofs.sortBy_In, List.filter_In, andb_true_iff.
        destruct H as (? & ? & ?). repeat split; [done|lia|done]. }
    split; [done|]. split; [|split; [|split]].
    + intros h Hh. apply Hin in Hh as (r & <- & _ & Hr & _). done.
    + intros r Hr Hyoung Hacc. apply Hin. exists r. repeat split; try done.
      destruct (Js.truthy_str account) eqn:Ht; [|done]. simpl.
      rewrite (Hacc eq_refl). simpl. apply String.eqb_refl.
    + intros r Hr Hold. split; [done|].
      intros Hh. apply Hin in Hh as (r' & Heq & _ & Hyoung & _).
      assert (recorded_at r' = recorded_at r) by (by injection Heq). lia.
    + apply (JsProofs.sorted_map rowToUsage recordedAt).
      apply (JsProofs.sortBy_sorted recorded_at).
  - intros w account days now l w' Hfile Hget.
    rewrite getUsageHistory_file in Hget by done. injection Hget as <- <-.
    split; [done|]. apply JsProofs.sortBy_sorted.
  - intros now s db db' r. apply exec_keeps_usage.
Qed.

(** One record stamped 31 days before the write: the write leaves only
    records younger than thirty days. *)
Lemma usage_retention_asymmetry_witness :
  let old := mkUsageRecord "acct" 5 0 in
  let now := 31 * DAY in
  let w := mkWorld None false
             (mkFileSystem true true Missing Missing Missing Missing (Stored [old])) in
  Forall (fun h => now - THIRTY_DAYS < recordedAt h)
    (storedUsage (after (recordUsage "acct" 7 now now) w))
  /\ Forall (fun h => h <> old) (storedUsage (after (recordUsage "acct" 7 now now) w)).
Proof.
  intros old now w.
  destruct usage_retention_asymmetry as (H & _).
  destruct (H w "acct"%string 7 now now (after (recordUsage "acct" 7 now now) w))
    as (_ & Hyoung & _ & Hgone & _); [reflexivity|reflexivity|].
  split; apply List.Forall_forall.
  - exact Hyoung.
  - intros h Hin ->. revert Hin. apply Hgone. vm_compute. discriminate.
Defined.

(** *** Deleting a user *)

Lemma deleteUser_db sv d userId now w' :
  deleteUser userId now (mkWorld (Some sv) true d) = (Return true, w') ->
  exists sv',
    w' = mkWorld (Some sv') true d
    /\ (exists u, In u (users (Pg.committed sv)) /\ users_id u = userId)
    /\ users (Pg.committed sv')
       = List.filter (fun u => negb (users_id u =? userId)) (users (Pg.committed sv))
    /\ accounts (Pg.committed sv')
       = List.filter (fun r => negb (owner_is userId (accounts_user_id r)))
           (accounts (Pg.committed sv))
    /\ webhooks (Pg.committed sv')
       = List.filter (fun r => negb (owner_is userId (webhooks_user_id r)))
           (webhooks (Pg.committed sv)).
Proof.
  unfold deleteUser. simpl. unfold bind. rewrite pool_query_world.
  unfold Pg.pool_query. destruct (Pg.next_fault sv) as [[] rest]; simpl; [done|].
  destruct (List.filter (fun u => users_id u =? userId) (users (Pg.committed sv)))
    as [|u gone] eqn:Hgone; simpl; [done|].
  intros [= <-]. eexists. split; [reflexivity|]. simpl.
  split; [|done].
  exists u. assert (Hin : In u (List.filter (fun u => users_id u =? userId)
                              (users (Pg.committed sv)))) by (rewrite Hgone; by left).
  apply List.filter_In in Hin as [Hin Hid]. split; [done|lia].
Qed.

Lemma owner_is_Some uid o : owner_is uid o = true <-> o = Some uid.
Proof.
  destruct o as [u|]; simpl; [|done].
  rewrite Z.eqb_eq. split; [by intros ->|by intros [= ->]].
Qed.

Lemma deleteUser_file w userId now w' :
  isDatabaseEnabled w = false ->
  deleteUser userId now w = (Return true, w') ->
  exists index,
    Js.findIndex (fun u => Db.id u =? userId) (storedUsers w) = Some index
    /\ fs w' = set_file USERS_FILE (Js.splice1 index (storedUsers w)) (fs w).
Proof.
  intros Hfile. unfold deleteUser. rewrite Hfile. unfold bind.
  unfold loadUsersFromFile. rewrite readOr_spec. fold (storedUsers w).
  destruct (Js.findIndex _ _) as [index|]; [|done].
  unfold writeJson, ret. destruct (writable (fs w) && _); [|done].
  intros [= <-]. by exists index.
Qed.

(** C7, as stated, fails in the file back end: deleting alice succeeds
    and empties the users file, yet the webhook registration she owns is
    still stored. *)
Lemma deleteUser_file_no_cascade_counterexample :
  returned (deleteUser 1 20) aliceWithWebhook = Some true
  /\ storedUsers (after (deleteUser 1 20) aliceWithWebhook) = []
  /\ exists h, In h (storedWebhooks (after (deleteUser 1 20) aliceWithWebhook))
               /\ wh_userId h = Some 1.
Proof.
  split; [reflexivity|]. split; [reflexivity|].
  eexists. split; [left; reflexivity|reflexivity].
Qed.

(** C7, amended.  In the relational back end a [deleteUser] that returns
    true has removed the user row and, with it, every account row and
    every webhook row that referenced it, and nothing else from those
    tables.  In the file back end a [deleteUser] that returns true has
    removed the first stored user with that id from the users file and
    has left every other file, the accounts and webhooks files included,
    as it was. *)
Theorem deleteUser_cascade (userId : Z) (now : Z) :
  (forall sv d w',
     deleteUser userId now (mkWorld (Some sv) true d) = (Return true, w') ->
     (exists u, In u (users (Pg.committed sv)) /\ users_id u = userId)
     /\ (forall u, In u (userRows w') -> users_id u <> userId)
     /\ (forall r, In r (accountRows w') -> accounts_user_id r <> Some userId)
     /\ (forall r, In r (webhookRows w') -> webhooks_user_id r <> Some userId)
     /\ (forall r, In r (accounts (Pg.committed sv)) ->
          accounts_user_id r <> Some userId -> In r (accountRows w'))
     /\ (forall r, In r (webhooks (Pg.committed sv)) ->
          webhooks_user_id r <> Some userId -> In r (webhookRows w')))
  /\ (forall w w',
        isDatabaseEnabled w = false ->
        deleteUser userId now w = (Return true, w') ->
        (exists index,
           Js.findIndex (fun u => Db.id u =? userId) (storedUsers w) = Some index
           /\ users_json (fs w') = Stored (Js.splice1 index (storedUsers w)))
        /\ accounts_json (fs w') = accounts_json (fs w)
        /\ webhooks_json (fs w') = webhooks_json (fs w)
        /\ password_json (fs w') = password_json (fs w)
        /\ usage_history_json (fs w') = usage_history_json (fs w)).
Proof.
  split.
  - intros sv d w' Hdel.
    destruct (deleteUser_db _ _ _ _ _ Hdel) as (sv' & -> & Hex & Hu & Ha & Hw).
    unfold userRows, accountRows, webhookRows. simpl. rewrite Hu, Ha, Hw.
    split; [done|].
    split. { intros u [_ H]%List.filter_In. lia. }
    split. { intros r [_ H]%List.filter_In Heq. apply owner_is_Some in Heq.
             rewrite Heq in H. done. }
    split. { intros r [_ H]%List.filter_In Heq. apply owner_is_Some in Heq.
             rewrite Heq in H. done. }
    split.
    + intros r Hin Hne. apply List.filter_In. split; [done|].
      destruct (owner_is userId (accounts_user_id r)) eqn:E; [|done].
      by apply owner_is_Some in E.
    + intros r Hin Hne. apply List.filter_In. split; [done|].
      destruct (owner_is userId (webhooks_user_id r)) eqn:E; [|done].
      by apply owner_is_Some in E.
  - intros w w' Hfile Hdel.
    destruct (deleteUser_file _ _ _ _ Hfile Hdel) as (index & Hfind & ->).
    split; [by exists index|]. done.
Qed.

(** A server holding alice with one account and one webhook of hers. *)
Lemma deleteUser_cascade_witness :
  let db := mkDatabase [mkUserRow 1 "alice" "$2b$h1" "user" 10] 2
              [mkAccountRow 1 (Some 1) "prod" (Some "sk-1"%string) None] 2 ∅
              [mkWebhookRow "w1" (Some 1) None "https://a.example/hook" None None true 11]
              [] 1 in
  let w := mkWorld (Some (Pg.connect db)) true (fs freshFiles) in
  Forall (fun r => webhooks_user_id r <> Some 1) (webhookRows (after (deleteUser 1 20) w))
  /\ Forall (fun r => accounts_user_id r <> Some 1) (accountRows (after (deleteUser 1 20) w)).
Proof.
  intros db w.
  destruct (proj1 (deleteUser_cascade 1 20) (Pg.connect db) (fs freshFiles)
              (after (deleteUser 1 20) w)) as (_ & _ & Ha & Hw & _);
    [reflexivity|].
  split; apply List.Forall_forall; assumption.
Defined.

(** *** The save transaction *)

Lemma client_query_world now s sv b d :
  client_query now s (mkWorld (Some sv) b d)
  = (match (Pg.client_query now s sv).1 with
     | inl code => Throw (PgError code)
     | inr a => Return a
     end,
     mkWorld (Some (Pg.client_query now s sv).2) b d).
Proof.
  unfold client_query, lift_pg. simpl. by destruct (Pg.client_query now s sv).
Qed.

Lemma client_query_data now s sv :
  isData s = true -> Pg.client_query now s sv = Pg.client_statement now s sv.
Proof. by destruct s. Qed.

Lemma client_statement_open now s sv work :
  Pg.session sv = Pg.Open work ->
  (exists code,
     Pg.client_statement now s sv
     = (inl code,
        Pg.mkServer (Pg.committed sv) Pg.Aborted (Pg.next_fault sv).2
          (Pg.log sv ++ [(s, false)])))
  \/ (exists work' r,
        exec now s work = inr (work', r)
        /\ Pg.client_statement now s sv
           = (inr r,
              Pg.mkServer (Pg.committed sv) (Pg.Open work') (Pg.next_fault sv).2
                (Pg.log sv ++ [(s, true)]))).
Proof.
  intros Hs. unfold Pg.client_statement. rewrite Hs.
  destruct (Pg.next_fault sv) as [[] rest]; simpl; [left; eauto|].
  destruct (exec now s work) as [code|[work' r]]; [left; eauto|right; eauto].
Qed.

Lemma client_statement_aborted now s sv :
  Pg.session sv = Pg.Aborted ->
  Pg.client_statement now s sv
  = (inl in_failed_sql_transaction,
     Pg.mkServer (Pg.committed sv) Pg.Aborted (Pg.next_fault sv).2
       (Pg.log sv ++ [(s, false)])).
Proof.
  intros Hs. unfold Pg.client_statement. rewrite Hs.
  by destruct (Pg.next_fault sv) as [[] rest].
Qed.

(** One data statement sent inside an open transaction: it either joins
    the transaction or aborts it. *)
Lemma client_query_tx now s sv b d work :
  isData s = true -> Pg.session sv = Pg.Open work ->
  exists sv',
    (client_query now s (mkWorld (Some sv) b d)).2 = mkWorld (Some sv') b d
    /\ (((exists r, (client_query now s (mkWorld (Some sv) b d)).1 = Return r)
         /\ txContinues now sv work [s] sv')
        \/ ((exists e, (client_query now s (mkWorld (Some sv) b d)).1 = Throw e)
            /\ txAborts sv sv'
            /\ Pg.log sv' = Pg.log sv ++ [(s, false)])).
Proof.
  intros Hd Hs. rewrite client_query_world, client_query_data by done.
  destruct (client_statement_open now s sv work Hs)
    as [(code & ->)|(work' & r & Hex & ->)]; simpl; eexists; (split; [reflexivity|]).
  - right. split; [eauto|]. split; [|done].
    split; [done|]. split; [done|]. eexists. split; [reflexivity|].
    by apply Exists_cons_hd.
  - left. split; [eauto|]. split; [done|]. split; [done|].
    exists work'. split; [done|]. simpl. unfold effect. by rewrite Hex.
Qed.

Lemma txAborts_log_failed sv sv' s :
  Pg.committed sv' = Pg.committed sv -> Pg.session sv' = Pg.Aborted ->
  Pg.log sv' = Pg.log sv ++ [(s, false)] -> txAborts sv sv'.
Proof.
  intros Hc Hs Hl. split; [done|]. split; [done|].
  eexists. split; [exact Hl|]. by apply Exists_cons_hd.
Qed.

Lemma txContinues_trans now sv work ss1 sv1 work1 ss2 sv2 :
  txContinues now sv work ss1 sv1 -> Pg.session sv1 = Pg.Open work1 ->
  txContinues now sv1 work1 ss2 sv2 ->
  txContinues now sv work (ss1 ++ ss2) sv2.
Proof.
  intros (Hc1 & Hl1 & w1 & Hs1 & He1) Hopen (Hc2 & Hl2 & w2 & Hs2 & He2).
  rewrite Hopen in Hs1. injection Hs1 as <-.
  split; [congruence|]. split.
  { rewrite Hl2, Hl1. unfold succeeded. by rewrite List.map_app, <- app_assoc. }
  exists w2. split; [done|].
  clear -He1 He2. revert work He1.
  induction ss1 as [|s ss1 IH]; simpl; intros work He1.
  - by injection He1 as ->.
  - destruct (effect now s work); [by apply IH|done].
Qed.

Lemma txAborts_after now sv work ss sv1 sv2 :
  txContinues now sv work ss sv1 -> txAborts sv1 sv2 -> txAborts sv sv2.
Proof.
  intros (Hc1 & Hl1 & _) (Hc2 & Hs2 & entries & Hl2 & Hex).
  split; [congruence|]. split; [done|].
  exists (succeeded ss ++ entries). split.
  - by rewrite Hl2, Hl1, <- app_assoc.
  - apply Exists_app. by right.
Qed.

(** The loop body. *)
Lemma insertAccount_tx enc encryptFn secret userId now a sv b d work :
  Pg.session sv = Pg.Open work ->
  exists sv',
    (insertAccount enc encryptFn secret userId now a (mkWorld (Some sv) b d)).2
    = mkWorld (Some sv') b d
    /\ (((insertAccount enc encryptFn secret userId now a (mkWorld (Some sv) b d)).1
          = Return tt
         /\ txContinues now sv work [insertStmt enc encryptFn secret userId a] sv')
        \/ ((exists e,
               (insertAccount enc encryptFn secret userId now a (mkWorld (Some sv) b d)).1
               = Throw e)
            /\ txAborts sv sv')).
Proof.
  intros Hs. unfold insertAccount, insertStmt.
  destruct (enc && Js.truthy_str (token a)).
  - unfold try_catch.
    destruct (encryptFn (default ""%string (token a)) secret) as [c|].
    + destruct (client_query_tx now (InsertAccountEncrypted userId (name a) c)
                  sv b d work eq_refl Hs) as (sv1 & Hw & H).
      destruct (client_query now (InsertAccountEncrypted userId (name a) c)
                  (mkWorld (Some sv) b d)) as [o w1].
      simpl in Hw. subst w1.
      destruct H as [[[r Hr] Htx]|[[e He] [Hab Hlog]]]; simpl in *; subst o.
      * exists sv1. split; [done|]. left. by destruct r.
      * rewrite client_query_world, client_query_data by done.
        rewrite client_statement_aborted by apply Hab. simpl.
        eexists. split; [reflexivity|]. right. split; [eauto|].
        destruct Hab as (Hc & _ & entries & Hl & Hex).
        split; [done|]. split; [done|].
        eexists. split; [simpl; rewrite Hl; symmetry; apply app_assoc|].
        apply Exists_app. by left.
    + unfold throw.
      destruct (client_query_tx now (InsertAccountClear userId (name a) (token a))
                  sv b d work eq_refl Hs) as (sv1 & Hw & H).
      exists sv1. split; [done|].
      destruct H as [[[r Hr] Htx]|[He [Hab _]]]; [left|right; done].
      split; [|done]. destruct r. exact Hr.
  - destruct (client_query_tx now (InsertAccountClear userId (name a) (token a))
                sv b d work eq_refl Hs) as (sv1 & Hw & H).
    exists sv1. split; [done|].
    destruct H as [[[r Hr] Htx]|[He [Hab _]]]; [left|right; done].
    split; [|done]. destruct r. exact Hr.
Qed.

(** The loop. *)
Lemma for_of_tx enc encryptFn secret userId now accounts sv b d work :
  Pg.session sv = Pg.Open work ->
  exists sv',
    (for_of accounts (insertAccount enc encryptFn secret userId now)
       (mkWorld (Some sv) b d)).2 = mkWorld (Some sv') b d
    /\ (((for_of accounts (insertAccount enc encryptFn secret userId now)
            (mkWorld (Some sv) b d)).1 = Return tt
         /\ txContinues now sv work
              (List.map (insertStmt enc encryptFn secret userId) accounts) sv')
        \/ ((exists e,
               (for_of accounts (insertAccount enc encryptFn secret userId now)
                  (mkWorld (Some sv) b d)).1 = Throw e)
            /\ txAborts sv sv')).
Proof.
  revert sv work.
  induction accounts as [|a accounts IH]; intros sv work Hs; simpl.
  - exists sv. split; [done|]. left. split; [done|].
    split; [done|]. split; [by rewrite app_nil_r|]. by exists work.
  - unfold bind.
    destruct (insertAccount_tx enc encryptFn secret userId now a sv b d work Hs)
      as (sv1 & Hw & H).
    destruct (insertAccount enc encryptFn secret userId now a (mkWorld (Some sv) b d))
      as [o w1].
    simpl in Hw. subst w1.
    destruct H as [[Hr Htx]|[[e He] Hab]]; simpl in *; subst o.
    + pose proof Htx as (_ & _ & work1 & Hs1 & _).
      destruct (IH sv1 work1 Hs1) as (sv2 & Hw2 & H2).
      exists sv2. split; [done|].
      destruct H2 as [[Hr2 Htx2]|[He2 Hab2]]; [left|right].
      * split; [done|].
        by apply (txContinues_trans now sv work
                    [insertStmt enc encryptFn secret userId a] sv1 work1 _ sv2).
      * split; [done|].
        by apply (txAborts_after now sv work
                    [insertStmt enc encryptFn secret userId a] sv1).
    + exists sv1. split; [done|]. right. eauto.
Qed.

Lemma rollback_world now sv b d :
  (client_query now ROLLBACK;; ret false)%js (mkWorld (Some sv) b d)
  = (if (Pg.next_fault sv).1
     then Throw (PgError connection_failure) else Return false,
     mkWorld (Some (Pg.mkServer (Pg.committed sv) Pg.Idle (Pg.next_fault sv).2
                      (Pg.log sv ++ [(ROLLBACK, negb (Pg.next_fault sv).1)]))) b d).
Proof.
  unfold bind. rewrite client_query_world.
  change (Pg.client_query now ROLLBACK sv) with (Pg.rollback sv).
  unfold Pg.rollback. by destruct (Pg.next_fault sv) as [[] rest].
Qed.

(** The handler, entered after a refused statement. *)
Lemma rollback_after_failure now ss sv sv1 b d entries :
  Pg.committed sv1 = Pg.committed sv ->
  Pg.log sv1 = Pg.log sv ++ entries -> Exists failed entries ->
  exists sv' (r : Outcome bool),
    (client_query now ROLLBACK;; ret false)%js (mkWorld (Some sv1) b d)
    = (r, mkWorld (Some sv') b d)
    /\ Pg.session sv' = Pg.Idle
    /\ r <> Return true
    /\ txOutcome now ss sv sv' r.
Proof.
  intros Hc Hl Hex. rewrite rollback_world.
  destruct (Pg.next_fault sv1) as [[] rest]; cbn [fst snd negb];
    eexists _, _; (split; [reflexivity|]); (split; [done|]); (split; [done|]);
    cbn [txOutcome].
  - split; [done|]. split; [done|]. right. exists entries.
    cbn [Pg.log]. split; [|done]. rewrite Hl. symmetry. apply app_assoc.
  - split; [done|]. exists entries.
    cbn [Pg.log]. split; [|done]. rewrite Hl. symmetry. apply app_assoc.
Qed.

(** The transaction on the client checked out. *)
Lemma transaction_spec delete accounts enc encryptFn secret userId now sv b d :
  isData delete = true -> Pg.session sv = Pg.Idle ->
  exists sv' (r : Outcome bool),
    transaction delete accounts enc encryptFn secret userId now
      (mkWorld (Some sv) b d)
    = (r, mkWorld (Some sv') b d)
    /\ Pg.session sv' = Pg.Idle
    /\ txOutcome now
         (delete :: List.map (insertStmt enc encryptFn secret userId) accounts) sv sv' r
    /\ (forall e, r = Throw e -> Pg.log sv' <> Pg.log sv).
Proof.
  intros Hdata Hidle.
  set (ss := delete :: List.map (insertStmt enc encryptFn secret userId) accounts).
  assert (Hfail : forall sv1 entries,
            Pg.committed sv1 = Pg.committed sv ->
            Pg.log sv1 = Pg.log sv ++ entries -> Exists failed entries ->
            exists sv' (r : Outcome bool),
              (client_query now ROLLBACK;; ret false)%js (mkWorld (Some sv1) b d)
              = (r, mkWorld (Some sv') b d)
              /\ Pg.session sv' = Pg.Idle
              /\ txOutcome now ss sv sv' r
              /\ (forall e, r = Throw e -> Pg.log sv' <> Pg.log sv)).
  { intros sv1 entries Hc Hl Hex.
    destruct (rollback_after_failure now ss sv sv1 b d entries Hc Hl Hex)
      as (sv' & r & Heq & Hs & Hr & Hout).
    exists sv', r. split; [done|]. split; [done|]. split; [done|].
    intros e ->. destruct Hout as [_ [_ [Hlog|(es & Hlog & Hes)]]].
    - apply (f_equal (fun x => x.2)) in Heq. rewrite rollback_world in Heq.
      simpl in Heq. injection Heq as <-. simpl in Hlog.
      rewrite Hl, <- app_assoc in Hlog.
      apply (f_equal length) in Hlog. rewrite !length_app in Hlog. simpl in Hlog. lia.
    - rewrite Hlog. intros Heq'. apply (f_equal length) in Heq'.
      rewrite !length_app in Heq'. simpl in Heq'. lia. }
  unfold transaction, try_catch.
  change (bind (client_query now BEGIN) ?k (mkWorld (Some sv) b d))
    with (match client_query now BEGIN (mkWorld (Some sv) b d) with
          | (Return a, w') => k a w'
          | (Throw e, w') => (Throw e, w')
          end).
  rewrite client_query_world.
  change (Pg.client_query now BEGIN sv) with (Pg.begin sv).
  unfold Pg.begin. rewrite Hidle.
  destruct (Pg.next_fault sv) as [[] rest] eqn:Hf; cbn [fst snd].
  { (* BEGIN refused *)
    apply (Hfail _ [(BEGIN, false)]); [done|done|]. by apply Exists_cons_hd. }
  set (sv1 := Pg.mkServer (Pg.committed sv) (Pg.Open (Pg.committed sv)) rest
                (Pg.log sv ++ [(BEGIN, true)])).
  assert (Hroll : forall sv2, txAborts sv1 sv2 ->
            exists sv' (r : Outcome bool),
              (client_query now ROLLBACK;; ret false)%js (mkWorld (Some sv2) b d)
              = (r, mkWorld (Some sv') b d)
              /\ Pg.session sv' = Pg.Idle
              /\ txOutcome now ss sv sv' r
              /\ (forall e, r = Throw e -> Pg.log sv' <> Pg.log sv)).
  { intros sv2 (Hc & _ & entries & Hl & Hex).
    apply (Hfail sv2 ((BEGIN, true) :: entries)); [done| |by apply Exists_cons_tl].
    rewrite Hl. simpl. by rewrite <- app_assoc. }
  unfold bind at 1.
  destruct (client_query_tx now delete sv1 b d (Pg.committed sv) Hdata eq_refl)
    as (sv2 & Hw2 & H2).
  destruct (client_query now delete (mkWorld (Some sv1) b d)) as [o2 w2].
  simpl in Hw2. subst w2.
  destruct H2 as [[[r2 Hr2] Htx2]|[[e2 He2] [Hab2 _]]]; simpl in Hr2 || simpl in He2; subst o2.
  2: { exact (Hroll sv2 Hab2). }
  pose proof Htx2 as (_ & _ & work2 & Hs2 & _).
  unfold bind at 1.
  destruct (for_of_tx enc encryptFn secret userId now accounts sv2 b d work2 Hs2)
    as (sv3 & Hw3 & H3).
  destruct (for_of accounts (insertAccount enc encryptFn secret userId now)
              (mkWorld (Some sv2) b d)) as [o3 w3].
  simpl in Hw3. subst w3.
  destruct H3 as [[Hr3 Htx3]|[[e3 He3] Hab3]]; simpl in Hr3 || simpl in He3; subst o3.
  2: { exact (Hroll sv3 (txAborts_after now sv1 _ [delete] sv2 sv3 Htx2 Hab3)). }
  pose proof (txContinues_trans now sv1 _ [delete] sv2 work2 _ sv3 Htx2 Hs2 Htx3)
    as (Hc3 & Hl3 & work3 & Hs3 & He3).
  unfold bind at 1. rewrite client_query_world.
  change (Pg.client_query now COMMIT sv3) with (Pg.commit sv3).
  unfold Pg.commit. rewrite Hs3.
  destruct (Pg.next_fault sv3) as [[] rest3]; cbn [fst snd].
  { (* COMMIT refused *)
    apply (Hfail _ ((BEGIN, true)
                    :: succeeded ([delete]
                                  ++ List.map (insertStmt enc encryptFn secret userId) accounts)
                    ++ [(COMMIT, false)])).
    - cbn [Pg.committed]. by rewrite Hc3.
    - cbn [Pg.log]. rewrite Hl3. unfold sv1. cbn [Pg.log].
      by rewrite <- !app_assoc.
    - apply Exists_cons_tl, Exists_app. right. by apply Exists_cons_hd. }
  eexists _, (Return true). split; [reflexivity|]. split; [done|].
  split; [|done]. split.
  - cbn [Pg.log]. rewrite Hl3. unfold sv1, ss, succeeded. cbn [Pg.log].
    simpl. rewrite List.map_app. simpl. by rewrite <- !app_assoc.
  - cbn [Pg.committed]. exact He3.
Qed.

Lemma pool_connect_world sv b d :
  pool_connect (mkWorld (Some sv) b d)
  = (if (Pg.next_fault sv).1
     then Throw (PgError connection_failure) else Return tt,
     mkWorld (Some (Pg.mkServer (Pg.committed sv) (Pg.session sv)
                      (Pg.next_fault sv).2 (Pg.log sv))) b d).
Proof.
  unfold pool_connect, lift_pg, Pg.checkout. simpl.
  by destruct (Pg.next_fault sv) as [[] rest].
Qed.

Lemma txOutcome_from now ss sv0 sv sv' r :
  Pg.committed sv0 = Pg.committed sv -> Pg.log sv0 = Pg.log sv ->
  txOutcome now ss sv0 sv' r -> txOutcome now ss sv sv' r.
Proof.
  intros Hc Hl. unfold txOutcome, txCommitted, txRolledBack, txLost.
  by rewrite Hc, Hl.
Qed.

(** The save as a whole: the check-out, then the transaction. *)
Lemma saveTransaction_spec delete accounts enc encryptFn secret userId now sv b d :
  isData delete = true -> Pg.session sv = Pg.Idle ->
  exists sv' (r : Outcome bool),
    saveTransaction delete accounts enc encryptFn secret userId now
      (mkWorld (Some sv) b d)
    = (r, mkWorld (Some sv') b d)
    /\ Pg.session sv' = Pg.Idle
    /\ txOutcome now
         (delete :: List.map (insertStmt enc encryptFn secret userId) accounts) sv sv' r.
Proof.
  intros Hdata Hidle. unfold saveTransaction.
  change (bind pool_connect ?k (mkWorld (Some sv) b d))
    with (match pool_connect (mkWorld (Some sv) b d) with
          | (Return a, w') => k a w'
          | (Throw e, w') => (Throw e, w')
          end).
  rewrite pool_connect_world.
  destruct (Pg.next_fault sv) as [[] rest]; cbn [fst snd].
  - eexists _, _. split; [reflexivity|]. split; [done|].
    cbn [txOutcome]. split; [done|]. split; [done|]. by left.
  - destruct (transaction_spec delete accounts enc encryptFn secret userId now
                (Pg.mkServer (Pg.committed sv) (Pg.session sv) rest (Pg.log sv))
                b d Hdata Hidle) as (sv' & r & Heq & Hs & Hout & _).
    exists sv', r. split; [done|]. split; [done|].
    by apply (txOutcome_from now _ _ sv) in Hout.
Qed.

Lemma saveAccounts_db accounts enc encryptFn secret userId now sv d :
  saveAccounts accounts enc encryptFn secret userId now (mkWorld (Some sv) true d)
  = saveTransaction (deleteStmt userId) accounts enc encryptFn secret userId now
      (mkWorld (Some sv) true d).
Proof.
  unfold saveAccounts, saveTransaction, transaction, deleteStmt. simpl.
  by destruct (Js.truthy_num userId).
Qed.

Lemma saveAccounts_legacy_db accounts enc encryptFn secret now sv d :
  DbLegacy.saveAccounts accounts enc encryptFn secret now (mkWorld (Some sv) true d)
  = saveTransaction DeleteAccountsAll accounts enc encryptFn secret None now
      (mkWorld (Some sv) true d).
Proof. reflexivity. Qed.

Lemma isData_deleteStmt userId : isData (deleteStmt userId) = true.
Proof. unfold deleteStmt. by destruct (Js.truthy_num userId). Qed.

Lemma succeeded_not_failed ss : ~ Exists failed (succeeded ss).
Proof.
  induction ss as [|s ss IH]; simpl; intros H; inversion H; subst; [done|by apply IH].
Qed.

(** What both versions of the save have in common. *)
Lemma saveTransaction_atomic delete accounts enc encryptFn secret userId now sv b d :
  isData delete = true -> Pg.session sv = Pg.Idle ->
  exists sv' (r : Outcome bool),
    saveTransaction delete accounts enc encryptFn secret userId now
      (mkWorld (Some sv) b d)
    = (r, mkWorld (Some sv') b d)
    /\ Pg.session sv' = Pg.Idle
    /\ (r = Return true ->
        txCommitted now
          (delete :: List.map (insertStmt enc encryptFn secret userId) accounts) sv sv')
    /\ (r = Return false -> txRolledBack sv sv')
    /\ (forall e, r = Throw e -> e = PgError connection_failure /\ txLost sv sv')
    /\ (forall entries,
          Pg.log sv' = Pg.log sv ++ entries -> Exists failed entries ->
          r <> Return true /\ Pg.committed sv' = Pg.committed sv).
Proof.
  intros Hdata Hidle.
  destruct (saveTransaction_spec delete accounts enc encryptFn secret userId now
              sv b d Hdata Hidle) as (sv' & r & Heq & Hs & Hout).
  exists sv', r. split; [done|]. split; [done|].
  destruct r as [[]|e]; cbn [txOutcome] in Hout.
  - split; [done|]. split; [done|]. split; [done|].
    intros entries Hl Hex. exfalso.
    destruct Hout as [Hlog _]. rewrite Hlog in Hl. apply app_inv_head in Hl. subst.
    by apply succeeded_not_failed in Hex.
  - split; [done|]. split; [done|]. split; [done|].
    intros entries _ _. split; [done|]. apply Hout.
  - split; [done|]. split; [done|]. split; [by intros ? [= <-]|].
    intros entries _ _. split; [done|]. apply Hout.
Qed.

(** C4.  In the relational back end [saveAccounts] does not return false
    on every failure.  When [pool.connect()] fails, before the [try], the
    call throws; when a statement is refused and the ROLLBACK of the
    handler then fails as well, the call throws from the handler.  In
    both cases the stored tables are the old ones.  Shown on alice's
    server for both versions of the module: first with a check-out that
    fails, then with BEGIN and the delete accepted, the insert refused
    and the ROLLBACK lost. *)
Theorem saveAccounts_connection_failure :
  let db := mkDatabase [mkUserRow 1 "alice" "$2b$h1" "user" 10] 2
              [mkAccountRow 1 (Some 1) "alice-prod" (Some "sk-alice"%string) None] 2
              ∅ [] [] 1 in
  let unreachable := mkWorld (Some (Pg.mkServer db Pg.Idle [true] [])) true
                       (fs freshFiles) in
  let dropped := mkWorld (Some (Pg.mkServer db Pg.Idle [false; false; false; true; true] []))
                   true (fs freshFiles) in
  let save := saveAccounts [mkAccount "x" (Some "sk-x"%string) None] false
                (fun _ _ => None) "k" (Some 1) 50 in
  let save_legacy := DbLegacy.saveAccounts [mkAccount "x" (Some "sk-x"%string) None] false
                       (fun _ _ => None) "k" 50 in
  (save unreachable).1 = Throw (PgError connection_failure)
  /\ returned save unreachable = None
  /\ accountRows (after save unreachable) = accountRows unreachable
  /\ (Pg.log <$> pool (after save unreachable)) = Some []
  /\ (save dropped).1 = Throw (PgError connection_failure)
  /\ accountRows (after save dropped) = accountRows dropped
  /\ (Pg.log <$> pool (after save dropped))
     = Some [(BEGIN, true);
             (DeleteAccountsOfUser 1, true);
             (InsertAccountClear (Some 1) "x" (Some "sk-x"%string), false);
             (ROLLBACK, false)]
  /\ (save_legacy unreachable).1 = Throw (PgError connection_failure)
  /\ accountRows (after save_legacy unreachable) = accountRows unreachable
  /\ (save_legacy dropped).1 = Throw (PgError connection_failure)
  /\ accountRows (after save_legacy dropped) = accountRows dropped.
Proof. repeat split. Qed.

(** An insert that violates the foreign key: the call returns false and
    the table is as before. *)
Example saveAccounts_foreign_key :
  returned (saveAccounts [mkAccount "x" (Some "sk-x"%string) None] false
              (fun _ _ => None) "k" (Some 9) 50) aliceOwnsAccount = Some false
  /\ accountRows (after (saveAccounts [mkAccount "x" (Some "sk-x"%string) None] false
                           (fun _ _ => None) "k" (Some 9) 50) aliceOwnsAccount)
     = accountRows aliceOwnsAccount.
Proof. split; reflexivity. Qed.

(** The server refuses the encrypted insert: the fallback insert of the
    handler runs into the failed transaction, the outer handler rolls
    back, the call returns false and the table is as before. *)
Example saveAccounts_refused_insert :
  let sv := Pg.mkServer
              (mkDatabase [mkUserRow 1 "alice" "$2b$h1" "user" 10] 2
                 [mkAccountRow 1 (Some 1) "alice-prod" (Some "sk-alice"%string) None] 2
                 ∅ [] [] 1)
              Pg.Idle [false; false; false; true] [] in
  let w := mkWorld (Some sv) true (fs freshFiles) in
  let save := saveAccounts [mkAccount "x" (Some "sk-x"%string) None] true
                (fun clear _ => Some ("enc:" +:+ clear)) "k" (Some 1) 50 in
  returned save w = Some false
  /\ accountRows (after save w) = accountRows w
  /\ (Pg.log <$> pool (after save w))
     = Some [(BEGIN, true);
             (DeleteAccountsOfUser 1, true);
             (InsertAccountEncrypted (Some 1) "x" "enc:sk-x", false);
             (InsertAccountClear (Some 1) "x" (Some "sk-x"%string), false);
             (ROLLBACK, true)].
Proof. repeat split. Qed.

(** Nothing is refused: alice's row is replaced by the new one. *)
Example saveAccounts_commits :
  let save := saveAccounts [mkAccount "x" (Some "sk-x"%string) None] true
                (fun clear _ => Some ("enc:" +:+ clear)) "k" (Some 1) 50 in
  returned save aliceOwnsAccount = Some true
  /\ accountRows (after save aliceOwnsAccount)
     = [mkAccountRow 2 (Some 1) "x" None (Some "enc:sk-x"%string)]
  /\ (Pg.log <$> pool (after save aliceOwnsAccount))
     = Some [(BEGIN, true);
             (DeleteAccountsOfUser 1, true);
             (InsertAccountEncrypted (Some 1) "x" "enc:sk-x", true);
             (COMMIT, true)].
Proof. repeat split. Qed.

(** *** Save, then load *)

(** C3 fails in the relational back end when no scope is given: the
    save replaces the unowned rows only, the load reads every row.  On
    alice's server, saving the one-element list [global] without a scope
    succeeds, and the load that follows returns alice's account and then
    [global]. *)
Theorem saveAccounts_loadAccounts_unscoped :
  let saved := [mkAccount "global" (Some "sk-g"%string) None] in
  let save := saveAccounts saved false (fun _ _ => None) "k" None 50 in
  let load := loadAccounts false (fun _ _ => None) "k" None 60 in
  returned save aliceOwnsAccount = Some true
  /\ returned load (after save aliceOwnsAccount)
     = Some [mkAccount "alice-prod" (Some "sk-alice"%string) None;
             mkAccount "global" (Some "sk-g"%string) None]
  /\ returned load (after save aliceOwnsAccount) <> Some saved.
Proof. repeat split; vm_compute; congruence. Qed.

(** What does hold: the round trip through the file, for any scope, and
    through the tables, for the scope of a user. *)

Lemma decryptAccount_encryptAccount encryptFn decryptFn secret a :
  roundTrips encryptFn decryptFn secret -> plain a ->
  decryptAccount decryptFn secret (encryptAccount encryptFn secret a) = a.
Proof.
  intros Hrt Hp. destruct a as [n t e]. unfold plain in Hp. simpl in Hp. subst e.
  unfold encryptAccount, decryptAccount. simpl.
  destruct t as [[|c t]|]; simpl; try done.
  destruct (encryptFn (String c t) secret) as [enc|] eqn:E; simpl; [|done].
  by rewrite (Hrt _ _ E).
Qed.

Lemma decryptRow_storedRow enc encryptFn decryptFn secret userId i a :
  roundTrips encryptFn decryptFn secret -> plain a ->
  decryptRow enc decryptFn secret (storedRow enc encryptFn secret userId i a) = a.
Proof.
  intros Hrt Hp. destruct a as [n t e]. unfold plain in Hp. simpl in Hp. subst e.
  unfold storedRow, decryptRow. simpl.
  destruct enc; simpl; [|done].
  destruct t as [[|c t]|]; simpl; try done.
  destruct (encryptFn (String c t) secret) as [e|] eqn:E; simpl; [|done].
  by rewrite (Hrt _ _ E).
Qed.

Lemma saveAccounts_loadAccounts_file
  accounts enc encryptFn decryptFn secret userId userId' now now' w w' :
  isDatabaseEnabled w = false ->
  roundTrips encryptFn decryptFn secret -> Forall plain accounts ->
  saveAccounts accounts enc encryptFn secret userId now w = (Return true, w') ->
  loadAccounts enc decryptFn secret userId' now' w' = (Return accounts, w').
Proof.
  intros Hfile Hrt Hp. unfold saveAccounts. rewrite Hfile.
  unfold try_catch, bind, writeJson, ret.
  destruct (writable (fs w) && _); [|done].
  intros [= <-]. rewrite loadAccounts_file by done. simpl.
  destruct enc; [|done]. do 2 f_equal.
  induction Hp as [|a l Ha _ IH]; simpl; [done|].
  by rewrite decryptAccount_encryptAccount, IH.
Qed.

Lemma effect_insertStmt enc encryptFn secret userId now a db db' :
  effect now (insertStmt enc encryptFn secret userId a) db = Some db' ->
  accounts db' = accounts db ++ [storedRow enc encryptFn secret userId (accounts_id_seq db) a]
  /\ accounts_id_seq db' = accounts_id_seq db + 1.
Proof.
  unfold effect, insertStmt, storedRow.
  destruct (enc && Js.truthy_str (token a));
    [destruct (encryptFn _ secret)|]; simpl; unfold insert_account;
    destruct (negb (varchar 255 (name a))); try done;
    destruct (negb (references_user db userId)); try done;
    by intros [= <-].
Qed.

Lemma effects_inserts enc encryptFn secret userId now accounts db db' :
  effects now (List.map (insertStmt enc encryptFn secret userId) accounts) db = Some db' ->
  Sql.accounts db'
  = Sql.accounts db ++ storedRows enc encryptFn secret userId (accounts_id_seq db) accounts.
Proof.
  revert db. induction accounts as [|a l IH]; simpl; intros db.
  - intros [= <-]. by rewrite app_nil_r.
  - destruct (effect now _ db) as [db1|] eqn:E; [|done].
    apply effect_insertStmt in E as [Ha Hs]. intros H. apply IH in H.
    by rewrite H, Ha, Hs, <- app_assoc.
Qed.

Lemma effect_deleteStmt userId now db db' :
  effect now (deleteStmt userId) db = Some db' ->
  accounts db' = List.filter (fun r => negb (inScope userId r)) (accounts db)
  /\ accounts_id_seq db' = accounts_id_seq db.
Proof.
  unfold effect, deleteStmt, inScope.
  destruct (Js.truthy_num userId); simpl; by intros [= <-].
Qed.

Lemma txCommitted_accounts enc encryptFn secret userId now accounts sv sv' :
  txCommitted now (deleteStmt userId :: List.map (insertStmt enc encryptFn secret userId) accounts)
    sv sv' ->
  Sql.accounts (Pg.committed sv')
  = List.filter (fun r => negb (inScope userId r)) (Sql.accounts (Pg.committed sv))
    ++ storedRows enc encryptFn secret userId (accounts_id_seq (Pg.committed sv)) accounts.
Proof.
  intros [_ He]. simpl in He.
  destruct (effect now (deleteStmt userId) _) as [db1|] eqn:E; [|done].
  apply effect_deleteStmt in E as [Ha Hs]. apply effects_inserts in He.
  by rewrite He, Ha, Hs.
Qed.

Lemma storedRows_from enc encryptFn secret userId i accounts :
  Forall (fun r => i <= accounts_id r /\ accounts_user_id r = userId)
    (storedRows enc encryptFn secret userId i accounts).
Proof.
  revert i. induction accounts as [|a l IH]; intros i; simpl; constructor.
  - unfold storedRow.
    destruct (enc && _); [destruct (encryptFn _ _)|]; simpl; split; (lia || done).
  - eapply Forall_impl; [apply (IH (i + 1))|]. simpl. intros r [? ?]. split; [lia|done].
Qed.

Lemma storedRow_id enc encryptFn secret userId i a :
  accounts_id (storedRow enc encryptFn secret userId i a) = i.
Proof.
  unfold storedRow. by destruct (enc && _); [destruct (encryptFn _ _)|].
Qed.

Lemma storedRows_increasing enc encryptFn secret userId i accounts :
  StronglySorted (fun a b => accounts_id a < accounts_id b)
    (storedRows enc encryptFn secret userId i accounts).
Proof.
  revert i. induction accounts as [|a l IH]; intros i; simpl; constructor; [apply IH|].
  rewrite storedRow_id.
  eapply Forall_impl; [apply (storedRows_from _ _ _ _ (i + 1))|]. simpl. intros r [? _]. lia.
Qed.

Lemma decryptRow_storedRows enc encryptFn decryptFn secret userId i accounts :
  roundTrips encryptFn decryptFn secret -> Forall plain accounts ->
  List.map (decryptRow enc decryptFn secret)
    (storedRows enc encryptFn secret userId i accounts) = accounts.
Proof.
  intros Hrt Hp. revert i.
  induction Hp as [|a l Ha _ IH]; intros i; simpl; [done|].
  by rewrite decryptRow_storedRow, IH.
Qed.

Lemma filter_nil_of_Forall {A} (p : A -> bool) (l : list A) :
  Forall (fun x => p x = false) l -> List.filter p l = [].
Proof. induction 1 as [|x l Hx _ IH]; simpl; [done|]. by rewrite Hx. Qed.

Lemma filter_all_of_Forall {A} (p : A -> bool) (l : list A) :
  Forall (fun x => p x = true) l -> List.filter p l = l.
Proof. induction 1 as [|x l Hx _ IH]; simpl; [done|]. by rewrite Hx, IH. Qed.

Lemma saveAccounts_loadAccounts_scoped
  accounts enc encryptFn decryptFn secret uid now now' sv d w' :
  Pg.session sv = Pg.Idle -> uid <> 0 ->
  roundTrips encryptFn decryptFn secret -> Forall plain accounts ->
  saveAccounts accounts enc encryptFn secret (Some uid) now (mkWorld (Some sv) true d)
  = (Return true, w') ->
  exists sv',
    w' = mkWorld (Some sv') true d
    /\ ((Pg.next_fault sv').1 = false ->
        returned (loadAccounts enc decryptFn secret (Some uid) now') w' = Some accounts).
Proof.
  intros Hidle Hne Hrt Hp Hsave.
  rewrite saveAccounts_db in Hsave.
  destruct (saveTransaction_atomic (deleteStmt (Some uid)) accounts enc encryptFn secret
              (Some uid) now sv true d (isData_deleteStmt _) Hidle)
    as (sv' & ok & Heq & _ & Hok & _).
  rewrite Hsave in Heq. injection Heq as <- ->.
  exists sv'. split; [done|]. intros Hnf.
  apply (txCommitted_accounts enc encryptFn secret (Some uid) now accounts sv sv') in Hok;
    [|done].
  unfold returned. rewrite loadAccounts_db. simpl.
  assert (Hsc : scope (Some uid) = Some uid).
  { unfold scope. simpl. by destruct (Z.eqb_spec uid 0). }
  rewrite Hsc. unfold Pg.pool_query.
  destruct (Pg.next_fault sv') as [f rest]. simpl in Hnf. subst f. simpl.
  rewrite Hok, List.filter_app.
  rewrite filter_nil_of_Forall, filter_all_of_Forall; simpl.
  - rewrite JsProofs.sortBy_increasing by apply storedRows_increasing.
    by rewrite decryptRow_storedRows.
  - eapply Forall_impl; [apply storedRows_from|]. simpl. intros r [_ ->].
    simpl. by apply Z.eqb_eq.
  - apply Forall_forall. intros r [_ Hr]%list_elem_of_In%List.filter_In.
    unfold inScope in Hr. simpl in Hr.
    destruct (Z.eqb_spec uid 0); [done|]. simpl in Hr.
    by destruct (owner_is uid (accounts_user_id r)).
Qed.

Lemma saveAccounts_loadAccounts_unowned_only
  accounts enc encryptFn decryptFn secret userId now now' sv d w' :
  Pg.session sv = Pg.Idle -> Js.truthy_num userId = false ->
  Forall (fun r => accounts_user_id r = None) (Sql.accounts (Pg.committed sv)) ->
  roundTrips encryptFn decryptFn secret -> Forall plain accounts ->
  saveAccounts accounts enc encryptFn secret userId now (mkWorld (Some sv) true d)
  = (Return true, w') ->
  exists sv',
    w' = mkWorld (Some sv') true d
    /\ ((Pg.next_fault sv').1 = false ->
        returned (loadAccounts enc decryptFn secret userId now') w' = Some accounts).
Proof.
  intros Hidle Hfalsy Hold Hrt Hp Hsave.
  rewrite saveAccounts_db in Hsave.
  destruct (saveTransaction_atomic (deleteStmt userId) accounts enc encryptFn secret
              userId now sv true d (isData_deleteStmt _) Hidle)
    as (sv' & ok & Heq & _ & Hok & _).
  rewrite Hsave in Heq. injection Heq as <- ->.
  exists sv'. split; [done|]. intros Hnf.
  apply (txCommitted_accounts enc encryptFn secret userId now accounts sv sv') in Hok;
    [|done].
  unfold returned. rewrite loadAccounts_db. simpl.
  unfold scope. rewrite Hfalsy. unfold Pg.pool_query.
  destruct (Pg.next_fault sv') as [f rest]. simpl in Hnf. subst f. simpl.
  rewrite Hok, filter_nil_of_Forall; simpl.
  - rewrite JsProofs.sortBy_increasing by apply storedRows_increasing.
    by rewrite decryptRow_storedRows.
  - eapply Forall_impl; [exact Hold|]. simpl. intros r Hr.
    unfold inScope. by rewrite Hfalsy, Hr.
Qed.

End DbProofs.

(** ** The administrator password *)

Module ServerProofs.

Import Exn.
Import Db.
Import Server.

Local Open Scope Z_scope.

Lemma startsWith_differs (a b p : string) :
  Js.startsWith a p = true -> Js.startsWith b p = false -> a <> b.
Proof. intros Ha Hb ->. congruence. Qed.

Lemma isHashed_startsWith (p : string) :
  Js.startsWith p "$2" = true -> PasswordUtils.isHashed (Some p) = true.
Proof.
  unfold PasswordUtils.isHashed. destruct p as [|c p]; [done|]. simpl. by intros ->.
Qed.

Lemma not_isHashed (p : string) :
  Js.startsWith p "$2" = false -> PasswordUtils.isHashed (Some p) = false.
Proof.
  unfold PasswordUtils.isHashed. destruct p as [|c p]; [done|]. simpl. by intros ->.
Qed.

Lemma loadPassword_file now w :
  isDatabaseEnabled w = false ->
  loadPassword now w
  = (Return (match password_json (fs w) with Stored p => Some p | _ => None end), w).
Proof.
  intros Hfile. unfold loadPassword. rewrite Hfile.
  unfold try_catch, bind, existsSync, readJson, ret. simpl.
  destruct (password_json (fs w)) eqn:E; simpl; by rewrite ?E.
Qed.

Lemma savePassword_file password now w :
  isDatabaseEnabled w = false -> writable (fs w) = true ->
  savePassword password now w
  = (Return true, mkWorld (pool w) (isDbEnabled w) (set_file PASSWORD_FILE password (fs w))).
Proof.
  intros Hfile Hw. unfold savePassword. rewrite Hfile.
  unfold try_catch, bind, writeJson, ret. by rewrite Hw.
Qed.

Lemma loadPassword_db now sv d :
  Pg.faults sv = [] ->
  loadPassword now (mkWorld (Some sv) true d)
  = (Return (match config (Pg.committed sv) !! "admin_password"%string with
             | Some v => if Js.truthy_str (Some v) then Some v else None
             | None => None
             end),
     mkWorld (Some (Pg.mkServer (Pg.committed sv) (Pg.session sv) []
                      (Pg.log sv ++ [(SelectAdminPassword, true)]))) true d).
Proof.
  intros Hf. unfold loadPassword. simpl. unfold try_catch, bind.
  rewrite DbProofs.pool_query_world. unfold Pg.pool_query, Pg.next_fault. rewrite Hf. simpl.
  by destruct (config (Pg.committed sv) !! "admin_password"%string).
Qed.

Lemma savePassword_db password now sv d :
  Pg.faults sv = [] ->
  exists sv',
    savePassword password now (mkWorld (Some sv) true d)
    = (Return true, mkWorld (Some sv') true d)
    /\ Pg.faults sv' = []
    /\ config (Pg.committed sv') !! "admin_password"%string = Some password.
Proof.
  intros Hf. unfold savePassword. simpl. unfold try_catch, bind.
  rewrite DbProofs.pool_query_world. unfold Pg.pool_query, Pg.next_fault. rewrite Hf. simpl.
  eexists. split; [reflexivity|]. split; [done|]. simpl. apply lookup_insert_eq.
Qed.

Section Migration.

Variable bcrypt_hash : string -> nat -> string -> string.
Variable bcrypt_compare : string -> string -> bool.

(** What the tests of the module assert of every hash bcrypt returns. *)
Hypothesis bcrypt_format :
  forall password rounds salt, Js.startsWith (bcrypt_hash password rounds salt) "$2" = true.

Lemma verifyPassword_legacy password stored :
  Js.startsWith stored "$2" = false ->
  PasswordUtils.verifyPassword bcrypt_compare password stored = true <-> password = stored.
Proof.
  intros Hl. unfold PasswordUtils.verifyPassword. rewrite Hl. simpl.
  apply String.eqb_eq.
Qed.

Lemma login_file password stored salt rnd now sessions w :
  isDatabaseEnabled w = false -> writable (fs w) = true ->
  password_json (fs w) = Stored stored ->
  Js.truthy_str (Some stored) = true -> Js.startsWith stored "$2" = false ->
  verifyPasswordHandler bcrypt_hash bcrypt_compare password salt rnd now sessions w
  = if String.eqb password stored
    then (Return (LoginOk (SessionStore.generateSessionToken rnd),
                  (SessionStore.createSession None rnd now now sessions).2),
          mkWorld (pool w) (isDbEnabled w)
            (set_file PASSWORD_FILE (PasswordUtils.hashPassword bcrypt_hash password salt)
               (fs w)))
    else (Return (LoginWrongPassword, sessions), w).
Proof.
  intros Hfile Hw Hs Ht Hl.
  unfold verifyPasswordHandler, loadAdminPassword, bind.
  rewrite loadPassword_file by done. rewrite Hs. cbn beta iota.
  rewrite Ht, (not_isHashed _ Hl). cbn [negb default from_option Datatypes.id].
  unfold PasswordUtils.verifyPassword. rewrite Hl. cbn [negb].
  destruct (String.eqb password stored); [|done].
  unfold saveAdminPassword, bind. cbv zeta. rewrite savePassword_file by done.
  unfold ret. unfold SessionStore.createSession.
  by destruct (SessionStore.isRedisEnabled sessions), (SessionStore.redisClient sessions).
Qed.

Lemma login_db stored salt rnd now sessions sv d :
  Pg.faults sv = [] ->
  config (Pg.committed sv) !! "admin_password"%string = Some stored ->
  Js.truthy_str (Some stored) = true -> Js.startsWith stored "$2" = false ->
  exists sv',
    verifyPasswordHandler bcrypt_hash bcrypt_compare stored salt rnd now sessions
      (mkWorld (Some sv) true d)
    = (Return (LoginOk (SessionStore.generateSessionToken rnd),
               (SessionStore.createSession None rnd now now sessions).2),
       mkWorld (Some sv') true d)
    /\ config (Pg.committed sv') !! "admin_password"%string
       = Some (PasswordUtils.hashPassword bcrypt_hash stored salt).
Proof.
  intros Hf Hs Ht Hl.
  unfold verifyPasswordHandler, loadAdminPassword, bind.
  rewrite loadPassword_db by done. rewrite Hs. cbn beta iota.
  rewrite Ht. cbn beta iota.
  rewrite Ht, (not_isHashed _ Hl). cbn [negb default from_option Datatypes.id].
  unfold PasswordUtils.verifyPassword. rewrite Hl. cbn [negb].
  rewrite String.eqb_refl.
  unfold saveAdminPassword, bind. cbv zeta.
  destruct (savePassword_db (PasswordUtils.hashPassword bcrypt_hash stored salt) now
              (Pg.mkServer (Pg.committed sv) (Pg.session sv) []
                 (Pg.log sv ++ [(SelectAdminPassword, true)])) d eq_refl)
    as (sv' & Heq & _ & Hc).
  rewrite Heq.
  exists sv'. split; [|done].
  unfold ret, SessionStore.createSession.
  by destruct (SessionStore.isRedisEnabled sessions), (SessionStore.redisClient sessions).
Qed.

Lemma loadPassword_preserves now w :
  storedPassword (after (loadPassword now) w) = storedPassword w.
Proof.
  unfold after. destruct (isDatabaseEnabled w) eqn:Hen.
  - destruct (DbProofs.enabled_pool w Hen) as [sv ->].
    unfold loadPassword. simpl. unfold try_catch, bind.
    rewrite DbProofs.pool_query_world. unfold Pg.pool_query.
    destruct (Pg.next_fault sv) as [[] rest]; simpl; [done|].
    by destruct (config (Pg.committed sv) !! "admin_password"%string).
  - by rewrite loadPassword_file.
Qed.

Lemma requireAuth_world password sessionToken now sessions w :
  after (requireAuth bcrypt_compare password sessionToken now sessions) w
  = after (loadPassword now) w.
Proof.
  unfold after, requireAuth, loadAdminPassword, bind.
  destruct (loadPassword now w) as [[saved|e] w1]; [|done].
  destruct (negb (Js.truthy_str saved)); [done|].
  destruct (if Js.truthy_str sessionToken
            then SessionStore.validateSession sessionToken now sessions
            else (None, sessions)) as [[session|] sessions']; [done|].
  by destruct (Js.truthy_str password && _).
Qed.

(** C6, amended.  Against a stored value that is not in hashed format,
    [verifyPassword] succeeds exactly when the password equals the stored
    value.  [verifyPassword] itself stores nothing; it is the login
    handler (POST /api/verify-password) that, on a successful check
    against such a value, saves the bcrypt hash of the password before it
    creates the session.  So after a successful login against a legacy
    value, in file mode with a writable directory or in database mode
    with a server that refuses nothing, the stored value is that hash: it
    satisfies [isHashed] and is not the original clear text.  A login
    with a wrong password changes nothing, and the password check of
    [requireAuth] never changes the stored value, whatever it decides. *)
Theorem legacy_password_migration (stored : string) :
  Js.startsWith stored "$2" = false ->
  (forall password,
     PasswordUtils.verifyPassword bcrypt_compare password stored = true <-> password = stored)
  /\ (forall salt rnd now sessions w r w',
        Js.truthy_str (Some stored) = true ->
        (isDatabaseEnabled w = false /\ writable (fs w) = true
         \/ exists sv, w = mkWorld (Some sv) true (fs w) /\ Pg.faults sv = []) ->
        storedPassword w = Some stored ->
        verifyPasswordHandler bcrypt_hash bcrypt_compare stored salt rnd now sessions w
        = (r, w') ->
        exists sessions',
          r = Return (LoginOk (SessionStore.generateSessionToken rnd), sessions')
          /\ storedPassword w' = Some (PasswordUtils.hashPassword bcrypt_hash stored salt)
          /\ PasswordUtils.isHashed (storedPassword w') = true
          /\ storedPassword w' <> Some stored)
  /\ (forall password salt rnd now sessions w,
        Js.truthy_str (Some stored) = true ->
        isDatabaseEnabled w = false -> writable (fs w) = true ->
        storedPassword w = Some stored -> password <> stored ->
        verifyPasswordHandler bcrypt_hash bcrypt_compare password salt rnd now sessions w
        = (Return (LoginWrongPassword, sessions), w))
  /\ (forall password sessionToken now sessions w,
        storedPassword
          (after (requireAuth bcrypt_compare password sessionToken now sessions) w)
        = storedPassword w).
Proof.
  intros Hl.
  split; [intros password; by apply verifyPassword_legacy|].
  split; [|split].
  - intros salt rnd now sessions w r w' Ht Hmode Hst Hrun.
    assert (Hh : Js.startsWith (PasswordUtils.hashPassword bcrypt_hash stored salt) "$2" = true)
      by apply bcrypt_format.
    destruct Hmode as [[Hfile Hw]|(sv & Hwd & Hf)].
    + unfold storedPassword in Hst. rewrite Hfile in Hst.
      destruct (password_json (fs w)) as [| |p] eqn:Hp; try done. injection Hst as ->.
      rewrite (login_file stored stored salt rnd now sessions w) in Hrun by done.
      rewrite String.eqb_refl in Hrun. injection Hrun as <- <-.
      eexists. split; [reflexivity|].
      match goal with
      | |- context [storedPassword ?x] =>
          assert (Hst' : storedPassword x
                         = Some (PasswordUtils.hashPassword bcrypt_hash stored salt))
      end.
      { unfold storedPassword. rewrite DbProofs.isDatabaseEnabled_fs, Hfile. done. }
      rewrite Hst'. split; [done|]. split; [by apply isHashed_startsWith|].
      intros [= Heq]. by apply (startsWith_differs _ _ _ Hh Hl).
    + rewrite Hwd in Hst, Hrun. unfold storedPassword in Hst. simpl in Hst.
      destruct (login_db stored salt rnd now sessions sv (fs w) Hf Hst Ht Hl)
        as (sv' & Heq & Hc).
      rewrite Heq in Hrun. injection Hrun as <- <-.
      eexists. split; [reflexivity|].
      unfold storedPassword. simpl. rewrite Hc.
      split; [done|]. split; [by apply isHashed_startsWith|].
      intros [= Heq']. by apply (startsWith_differs _ _ _ Hh Hl).
  - intros password salt rnd now sessions w Ht Hfile Hw Hst Hne.
    unfold storedPassword in Hst. rewrite Hfile in Hst.
    destruct (password_json (fs w)) as [| |p] eqn:Hp; try done. injection Hst as ->.
    rewrite (login_file password stored salt rnd now sessions w) by done.
    destruct (String.eqb_spec password stored); [congruence|done].
  - intros password sessionToken now sessions w.
    rewrite requireAuth_world. apply loadPassword_preserves.
Qed.

End Migration.

(** C6, as stated, fails: the password check of [requireAuth] is a
    successful verification against the legacy value "abc123" that lets
    the request through and stores nothing; the stored value is still the
    clear text afterwards. *)
Lemma requireAuth_no_migration_counterexample :
  let sessions := SessionStore.mkState None false ∅ in
  PasswordUtils.verifyPassword toy_compare "abc123" "abc123" = true
  /\ requireAuth toy_compare (Some "abc123"%string) None 100 sessions legacyPasswordFile
     = (Return (Next None, sessions), legacyPasswordFile)
  /\ storedPassword legacyPasswordFile = Some "abc123"%string
  /\ PasswordUtils.isHashed (storedPassword legacyPasswordFile) = false.
Proof. repeat split. Qed.

(** The amended statement on the same file, through the login handler. *)
Lemma legacy_password_migration_witness :
  let sessions := SessionStore.mkState None false ∅ in
  let run := verifyPasswordHandler toy_hash toy_compare "abc123" "salt" "00ff" 100 sessions in
  PasswordUtils.isHashed (storedPassword (after run legacyPasswordFile)) = true.
Proof.
  intros sessions run.
  destruct (legacy_password_migration toy_hash toy_compare (fun _ _ _ => eq_refl)
              "abc123" eq_refl) as (_ & H & _).
  destruct (H "salt"%string "00ff"%string 100 sessions legacyPasswordFile
              (run legacyPasswordFile).1 (after run legacyPasswordFile))
    as (sessions' & _ & _ & Hh & _).
  - reflexivity.
  - left. split; reflexivity.
  - reflexivity.
  - vm_compute. reflexivity.
  - exact Hh.
Defined.

End ServerProofs.

(** ** [findIndex], [splice] and hex text *)

Module JsLaws.

Lemma findIndex_None {A} (p : A -> bool) (l : list A) :
  Js.findIndex p l = None <-> Forall (fun x => p x = false) l.
Proof.
  induction l as [|x l IH]; simpl; [by split|].
  destruct (p x) eqn:E.
  - split; [done|]. intros H. inversion H; congruence.
  - destruct (Js.findIndex p l); simpl.
    + split; [done|]. intros H. inversion H as [|? ? _ Hl]; subst.
      apply IH in Hl. done.
    + split; [|done]. intros _. constructor; [done|]. by apply IH.
Qed.

Lemma findIndex_app {A} (p : A -> bool) (pre : list A) (c : A) (post : list A) :
  Forall (fun x => p x = false) pre -> p c = true ->
  Js.findIndex p (pre ++ c :: post) = Some (length pre).
Proof.
  intros Hpre Hc. induction Hpre as [|x pre Hx _ IH]; simpl.
  - by rewrite Hc.
  - by rewrite Hx, IH.
Qed.

Lemma findIndex_Some {A} (p : A -> bool) (l : list A) (i : nat) :
  Js.findIndex p l = Some i ->
  exists pre c post,
    l = pre ++ c :: post /\ length pre = i /\ p c = true
    /\ Forall (fun x => p x = false) pre.
Proof.
  revert i. induction l as [|x l IH]; simpl; [done|]. intros i.
  destruct (p x) eqn:E.
  - intros [= <-]. by exists [], x, l.
  - destruct (Js.findIndex p l) as [j|]; simpl; [|done].
    intros [= <-]. destruct (IH j eq_refl) as (pre & c & post & -> & <- & Hc & Hpre).
    exists (x :: pre), c, post. repeat split; try done. by constructor.
Qed.

Lemma splice1_app {A} (pre : list A) (c : A) (post : list A) :
  Js.splice1 (length pre) (pre ++ c :: post) = pre ++ post.
Proof. induction pre as [|x pre IH]; simpl; [done|]. by rewrite IH. Qed.

Lemma findIndex_Exists {A} (p : A -> bool) (l : list A) :
  is_Some (Js.findIndex p l) <-> Exists (fun x => p x = true) l.
Proof.
  split.
  - intros [i Hi]. apply findIndex_Some in Hi as (pre & c & post & -> & _ & Hc & _).
    apply Exists_app. right. by constructor.
  - intros H. destruct (Js.findIndex p l) eqn:E; [done|].
    apply findIndex_None in E. apply Exists_exists in H as (x & Hx & Hp).
    rewrite Forall_forall in E. specialize (E x Hx). congruence.
Qed.

Lemma prefix_append (p s : string) : String.prefix p (p +:+ s) = true.
Proof.
  induction p as [|a p IH]; simpl; [by destruct s|].
  destruct (Ascii.ascii_dec a a); [exact IH|done].
Qed.

Lemma hex_byte (b : byte) :
  Js.hexValue (Js.hexDigit (Byte.to_N b / 16)) = Some (Byte.to_N b / 16)%N
  /\ Js.hexValue (Js.hexDigit (Byte.to_N b mod 16)) = Some (Byte.to_N b mod 16)%N
  /\ Byte.of_N (Byte.to_N b / 16 * 16 + Byte.to_N b mod 16) = Some b.
Proof. destruct b; repeat split. Qed.

Lemma fromHex_toHex (bytes : list byte) : Js.fromHex (Js.toHex bytes) = Some bytes.
Proof.
  induction bytes as [|b bytes IH]; [done|].
  destruct (hex_byte b) as (Hh & Hl & Hb).
  cbn [Js.toHex Js.fromHex]. by rewrite Hh, Hl, IH, Hb.
Qed.

Lemma toHex_length (bytes : list byte) :
  String.length (Js.toHex bytes) = (2 * length bytes)%nat.
Proof. induction bytes as [|b bytes IH]; simpl; [done|]. rewrite IH. lia. Qed.

Lemma append_length (a b : string) :
  String.length (a +:+ b) = (String.length a + String.length b)%nat.
Proof. induction a as [|c a IH]; simpl; [done|]. by rewrite IH. Qed.

End JsLaws.

(** ** More on sessions *)

Module SessionStoreLaws.

Import SessionStore.
Import JsLaws.

Local Open Scope Z_scope.

Lemma state_eta st :
  mkState (redisClient st) (isRedisEnabled st) (memorySessions st) = st.
Proof. by destruct st. Qed.

Lemma key_inj (t1 t2 : string) :
  SESSION_PREFIX +:+ t1 = SESSION_PREFIX +:+ t2 -> t1 = t2.
Proof. apply SessionStoreProofs.append_inj_r. Qed.

Lemma lookup_destroy_other token other now st :
  other <> token ->
  lookupSession other now (destroySession token st) = lookupSession other now st.
Proof.
  intros Hne. unfold lookupSession, destroySession, Redis.get, Redis.del.
  destruct (isRedisEnabled st) eqn:E, (redisClient st) eqn:R; simpl;
    rewrite ?E, ?R; simpl; rewrite lookup_delete_ne; try done.
  intros H. by apply key_inj in H.
Qed.

(** [destroySession] is idempotent, does nothing for a token that is not
    stored, and never changes what is stored under another token. *)
Theorem destroySession_idempotent (token : string) (st : State) :
  destroySession token (destroySession token st) = destroySession token st
  /\ (absent token st -> destroySession token st = st)
  /\ (forall other now, other <> token ->
        lookupSession other now (destroySession token st) = lookupSession other now st).
Proof.
  split; [|split].
  - unfold destroySession, Redis.del.
    destruct (isRedisEnabled st) eqn:E, (redisClient st) eqn:R; simpl;
      rewrite ?E, ?R; simpl; by rewrite delete_delete_eq.
  - unfold absent, destroySession, Redis.del.
    destruct (isRedisEnabled st) eqn:E, (redisClient st) eqn:R; simpl;
      intros H; rewrite delete_id by done; rewrite <- ?R, <- ?E; apply state_eta.
  - intros other now. apply lookup_destroy_other.
Qed.

Lemma destroySession_idempotent_witness :
  let st := mkState None false {[ "session_ab"%string := mkSession "admin" 0 100 ]} in
  destroySession "session_zz" st = st
  /\ lookupSession "session_ab" 50 (destroySession "session_zz" st)
     = Some (mkSession "admin" 0 100).
Proof.
  intros st. destruct (destroySession_idempotent "session_zz" st) as (_ & Hid & Hother).
  split.
  - apply Hid. vm_compute. reflexivity.
  - rewrite Hother by discriminate. vm_compute. reflexivity.
Defined.

Lemma validate_result token now st :
  (validateSession (Some token) now st).1
  = if Js.truthy_str (Some token)
    then match lookupSession token now st with
         | Some s => if now >? expiresAt s then None else Some s
         | None => None
         end
    else None.
Proof.
  unfold validateSession. destruct (Js.truthy_str (Some token)); simpl; [|done].
  destruct (lookupSession token now st) as [s|]; [|done].
  by destruct (now >? expiresAt s).
Qed.

(** The hourly sweep is invisible to callers: a validation made at or
    after the sweep returns what it would have returned without it.  In
    memory mode the sweep keeps exactly the sessions whose [expiresAt] is
    not before the sweep; when the cache is enabled it does nothing. *)
Theorem cleanExpiredSessions_invisible (swept : Z) (st : State) :
  (forall tok now, swept <= now ->
     (validateSession tok now (cleanExpiredSessions swept st)).1
     = (validateSession tok now st).1)
  /\ (isRedisEnabled st = false ->
      forall token s,
        memorySessions (cleanExpiredSessions swept st) !! token = Some s
        <-> memorySessions st !! token = Some s /\ swept <= expiresAt s)
  /\ (isRedisEnabled st = true -> cleanExpiredSessions swept st = st).
Proof.
  assert (Hmem : isRedisEnabled st = false ->
            forall token s,
              memorySessions (cleanExpiredSessions swept st) !! token = Some s
              <-> memorySessions st !! token = Some s /\ swept <= expiresAt s).
  { intros E token s. unfold cleanExpiredSessions. rewrite E. simpl.
    rewrite map_lookup_filter_Some. simpl.
    destruct (Z.gtb_spec swept (expiresAt s)); simpl; split; intros [? ?]; split;
      (done || lia). }
  split; [|split; [exact Hmem|]].
  - intros [token|] now Hle; [|done]. rewrite !validate_result.
    destruct (Js.truthy_str (Some token)); [|done].
    destruct (isRedisEnabled st) eqn:E.
    + unfold cleanExpiredSessions. by rewrite E.
    + assert (Hl : forall x, lookupSession token now x = memorySessions x !! token
                             \/ isRedisEnabled x = true).
      { intros x. unfold lookupSession. destruct (isRedisEnabled x); [by right|by left]. }
      assert (Ec : isRedisEnabled (cleanExpiredSessions swept st) = false).
      { unfold cleanExpiredSessions. by rewrite E. }
      destruct (Hl st) as [-> | H]; [|congruence].
      destruct (Hl (cleanExpiredSessions swept st)) as [-> | H]; [|congruence].
      destruct (memorySessions (cleanExpiredSessions swept st) !! token) as [s|] eqn:Hc.
      * apply (Hmem eq_refl) in Hc as [-> _]. done.
      * destruct (memorySessions st !! token) as [s|] eqn:Hs; [|done].
        destruct (Z.gtb_spec now (expiresAt s)); [done|].
        assert (memorySessions (cleanExpiredSessions swept st) !! token = Some s)
          by (apply (Hmem eq_refl); split; [done|lia]).
        congruence.
  - intros E. unfold cleanExpiredSessions. by rewrite E.
Qed.

Lemma cleanExpiredSessions_invisible_witness :
  let st := mkState None false {[ "session_ab"%string := mkSession "admin" 0 100 ]} in
  (validateSession (Some "session_ab"%string) 150 (cleanExpiredSessions 120 st)).1
  = (validateSession (Some "session_ab"%string) 150 st).1.
Proof.
  intros st. apply (proj1 (cleanExpiredSessions_invisible 120 st)). vm_compute. discriminate.
Defined.

Lemma keys_length prefix now (db : gmap string Redis.Entry) :
  length (Redis.keys prefix now db)
  = size (filter (fun kv : string * Redis.Entry =>
                    String.prefix prefix kv.1 = true /\ now < Redis.expireAt kv.2) db).
Proof. unfold Redis.keys. by rewrite length_fmap, length_map_to_list. Qed.

(** [getActiveSessionCount] after a [createSession] that mints a token
    not yet stored: in memory mode the count is one higher at every later
    time, expiry or not (an expired session is counted until it is swept
    or validated); with the cache it is one higher until the entry's
    native expiry and back to the old count from then on.  In memory mode
    destroying a stored token lowers the count by one. *)
Theorem getActiveSessionCount_tracks
  (userId : option string) (rnd : string) (now1 now2 : Z) (st : State) :
  absent (generateSessionToken rnd) st ->
  (isRedisEnabled st = false ->
   forall later,
     getActiveSessionCount later (createSession userId rnd now1 now2 st).2
     = S (getActiveSessionCount later st))
  /\ (isRedisEnabled st = true -> is_Some (redisClient st) ->
      forall later,
        getActiveSessionCount later (createSession userId rnd now1 now2 st).2
        = if later <? now2 + SESSION_DURATION
          then S (getActiveSessionCount later st)
          else getActiveSessionCount later st)
  /\ (isRedisEnabled st = false ->
      forall later,
        getActiveSessionCount later
          (destroySession (generateSessionToken rnd)
             (createSession userId rnd now1 now2 st).2)
        = getActiveSessionCount later st).
Proof.
  intros Habs.
  assert (Hmem : isRedisEnabled st = false ->
            forall later,
              getActiveSessionCount later (createSession userId rnd now1 now2 st).2
              = S (getActiveSessionCount later st)).
  { intros E later. unfold absent in Habs. rewrite E in Habs.
    unfold getActiveSessionCount, createSession. rewrite E. simpl. rewrite ?E.
    by apply map_size_insert_None. }
  split; [exact Hmem|split].
  - intros E [db R] later. unfold absent in Habs. rewrite E, R in Habs.
    unfold getActiveSessionCount, createSession. rewrite E, R. simpl.
    rewrite ?E. rewrite !keys_length. unfold Redis.setex.
    replace (SESSION_DURATION / 1000 * 1000) with SESSION_DURATION by reflexivity.
    destruct (Z.ltb_spec later (now2 + SESSION_DURATION)).
    + rewrite map_filter_insert_True by (simpl; split; [reflexivity|lia]).
      apply map_size_insert_None, map_lookup_filter_None. by left.
    + rewrite map_filter_insert_not'; [done|simpl; lia|].
      intros y Hy. congruence.
  - intros E later.
    unfold getActiveSessionCount, destroySession, createSession. rewrite E. simpl.
    rewrite ?E. simpl. rewrite delete_insert_eq.
    unfold absent in Habs. rewrite E in Habs. by rewrite delete_id.
Qed.

Lemma getActiveSessionCount_tracks_witness :
  let st := mkState None false {[ "session_ab"%string := mkSession "admin" 0 100 ]} in
  getActiveSessionCount 999999999999 (createSession None "cd" 5 5 st).2 = 2%nat.
Proof.
  intros st.
  destruct (getActiveSessionCount_tracks None "cd" 5 5 st) as (H & _).
  - vm_compute. reflexivity.
  - rewrite H by reflexivity. vm_compute. reflexivity.
Defined.

Lemma stored_lookup token session ttl now st :
  stored token session ttl st ->
  lookupSession token now st = Some session \/ lookupSession token now st = None.
Proof.
  unfold stored, lookupSession, Redis.get.
  destruct (isRedisEnabled st), (redisClient st); intros ->; simpl; auto.
  destruct (now <? ttl); auto.
Qed.

Lemma stored_destroy_other token session ttl other st :
  other <> token -> stored token session ttl st ->
  stored token session ttl (destroySession other st).
Proof.
  intros Hne. unfold stored, destroySession, Redis.del.
  destruct (isRedisEnabled st) eqn:E, (redisClient st) eqn:R; simpl;
    rewrite ?E, ?R; simpl; intros H; rewrite lookup_delete_ne; try done.
  intros Heq. by apply key_inj in Heq.
Qed.

Lemma stored_step token session ttl c st :
  stored token session ttl st -> spares token session c ->
  stored token session ttl (step c st)
  /\ forall now, lookupSession token now (step c st) = lookupSession token now st.
Proof.
  intros Hst Hsp. destruct c as [u rnd t1 t2|tok now|tok|now]; simpl in *.
  - (* createSession for another token *)
    unfold stored, lookupSession, createSession, Redis.get, Redis.setex in *.
    destruct (isRedisEnabled st) eqn:E, (redisClient st) eqn:R; simpl;
      rewrite ?E, ?R; simpl; (split; [|intros now']);
      rewrite lookup_insert_ne; try done;
      intros Heq; by apply key_inj in Heq.
  - (* validateSession *)
    unfold validateSession.
    destruct tok as [t|]; [|done].
    destruct (negb (Js.truthy_str (Some t))); [done|]. simpl.
    destruct (lookupSession t now st) as [s|] eqn:Hl; [|done].
    destruct (Z.gtb_spec now (expiresAt s)); [|done]. simpl.
    destruct (decide (t = token)) as [->|Hne].
    + destruct Hsp as [Hsp|Hsp]; [done|].
      destruct (stored_lookup token session ttl now st Hst) as [Hf|Hf];
        rewrite Hf in Hl; [|done]. injection Hl as <-. lia.
    + split; [by apply stored_destroy_other|].
      intros now'. by apply lookup_destroy_other.
  - (* destroySession of another token *)
    split; [by apply stored_destroy_other|].
    intros now'. by apply lookup_destroy_other.
  - (* the sweep *)
    unfold stored, lookupSession, cleanExpiredSessions in *.
    destruct (isRedisEnabled st) eqn:E; [by rewrite ?E|].
    simpl. rewrite ?E.
    assert (filter (fun kv : string * Session => negb (now >? expiresAt kv.2) = true)
              (memorySessions st) !! token = Some session).
    { apply map_lookup_filter_Some. split; [done|]. simpl.
      destruct (Z.gtb_spec now (expiresAt session)); [lia|done]. }
    split; [done|]. intros _. congruence.
Qed.

(** A session outlives everything done to other tokens: along any
    history of calls that spare it (calls on other tokens, and
    validations and sweeps made no later than its own expiry), its record
    stays stored and validating it returns what it returned before. *)
Theorem spared_session_survives
  (token : string) (session : Session) (ttl : Z) (history : list Call) (st : State) :
  stored token session ttl st ->
  Forall (spares token session) history ->
  stored token session ttl (run history st)
  /\ forall now,
       (validateSession (Some token) now (run history st)).1
       = (validateSession (Some token) now st).1.
Proof.
  intros Hst Hh. revert st Hst.
  induction Hh as [|c history Hc _ IH]; intros st Hst; [done|].
  unfold run in *. simpl.
  destruct (stored_step token session ttl c st Hst Hc) as [Hst' Hl].
  destruct (IH _ Hst') as [Hfin Hval]. split; [done|].
  intros now. rewrite Hval, !validate_result. by rewrite Hl.
Qed.

Lemma spared_session_survives_witness :
  let st := mkState None false {[ "session_ab"%string := mkSession "admin" 0 100 ]} in
  let history := [CreateSession None "cd" 5 5; DestroySession "session_cd";
                  CleanExpiredSessions 90; ValidateSession (Some "session_ab"%string) 95] in
  (validateSession (Some "session_ab"%string) 100 (run history st)).1
  = Some (mkSession "admin" 0 100).
Proof.
  intros st history.
  destruct (spared_session_survives "session_ab" (mkSession "admin" 0 100) 0 history st)
    as [_ H].
  - vm_compute. reflexivity.
  - repeat constructor; simpl; (discriminate || lia || (right; lia)).
  - rewrite H. vm_compute. reflexivity.
Defined.

(** A token minted from [n] random bytes starts with "session_", is 8 + 2n
    characters long (72 for the 32 bytes the module draws), is never the
    empty token that [validateSession] rejects, and differs from the
    token minted from any other bytes. *)
Theorem generateSessionToken_format (bytes : list byte) :
  let token := generateSessionToken (Js.toHex bytes) in
  Js.startsWith token "session_" = true
  /\ String.length token = (8 + 2 * length bytes)%nat
  /\ Js.truthy_str (Some token) = true
  /\ (forall bytes', generateSessionToken (Js.toHex bytes') = token -> bytes' = bytes).
Proof.
  intros token. split; [apply (prefix_append "session_")|].
  split; [unfold token, generateSessionToken; by rewrite append_length, toHex_length|].
  split; [done|].
  intros bytes' H. apply SessionStoreProofs.append_inj_r in H.
  apply (f_equal Js.fromHex) in H. rewrite !fromHex_toHex in H. by injection H.
Qed.

Lemma generateSessionToken_format_witness :
  String.length (generateSessionToken (Js.toHex (repeat "a"%byte 32))) = 72%nat
  /\ generateSessionToken (Js.toHex ["a"%byte; "b"%byte])
     = "session_6162"%string.
Proof.
  split.
  - apply (generateSessionToken_format (repeat "a"%byte 32)).
  - reflexivity.
Defined.

Lemma redis_step c st :
  isRedisEnabled st = true -> is_Some (redisClient st) ->
  isRedisEnabled (step c st) = true /\ is_Some (redisClient (step c st))
  /\ memorySessions (step c st) = memorySessions st.
Proof.
  intros E [db R].
  assert (Hd : forall tok,
            isRedisEnabled (destroySession tok st) = true
            /\ is_Some (redisClient (destroySession tok st))
            /\ memorySessions (destroySession tok st) = memorySessions st).
  { intros tok. unfold destroySession. rewrite E, R. simpl. by rewrite ?E. }
  destruct c as [u rnd t1 t2|tok now|tok|now]; simpl.
  - unfold createSession. rewrite E, R. simpl. by rewrite ?E.
  - unfold validateSession.
    destruct (negb (Js.truthy_str tok)); simpl; [by rewrite E, R|].
    destruct (lookupSession _ now st) as [s|]; simpl; [|by rewrite E, R].
    destruct (now >? expiresAt s); simpl; [apply Hd|by rewrite E, R].
  - apply Hd.
  - unfold cleanExpiredSessions. rewrite E. by rewrite E, R.
Qed.

(** While the cache is in use no call touches the in-memory map; so
    after [closeSessionStore], which switches back to that map, no token
    issued since start-up validates any more and the session count is
    zero. *)
Theorem closeSessionStore_drops_sessions
  (db : gmap string Redis.Entry) (history : list Call) (token : option string) (now : Z) :
  let st := run history (mkState (Some db) true ∅) in
  isRedisSessionEnabled st = true
  /\ memorySessions st = ∅
  /\ isRedisSessionEnabled (closeSessionStore st) = false
  /\ validateSession token now (closeSessionStore st) = (None, closeSessionStore st)
  /\ getActiveSessionCount now (closeSessionStore st) = 0%nat.
Proof.
  intros st.
  assert (Hinv : isRedisEnabled st = true /\ is_Some (redisClient st)
                 /\ memorySessions st = ∅).
  { unfold st, run.
    assert (forall s0,
              isRedisEnabled s0 = true /\ is_Some (redisClient s0) /\ memorySessions s0 = ∅ ->
              let s1 := foldl (fun s c => step c s) s0 history in
              isRedisEnabled s1 = true /\ is_Some (redisClient s1) /\ memorySessions s1 = ∅)
      as Hgen.
    { induction history as [|c cs IH]; intros s0 H0; [exact H0|].
      simpl. apply IH. destruct H0 as (E & R & M).
      destruct (redis_step c s0 E R) as (E' & R' & M'). by rewrite M' . }
    apply (Hgen (mkState (Some db) true ∅)). by repeat split. }
  destruct Hinv as (E & [cl R] & M).
  split; [exact E|]. split; [exact M|].
  unfold closeSessionStore. rewrite R, M.
  split; [done|]. split; [|done].
  unfold validateSession. destruct (negb (Js.truthy_str token)); [done|]. simpl.
  unfold lookupSession. simpl. by rewrite lookup_empty.
Qed.

End SessionStoreLaws.

(** ** The in-memory webhook registry *)

Module NotificationsLaws.

Import Notifications.
Import JsLaws.

Local Open Scope Z_scope.

Lemma removeWebhook_split wid pre c post :
  id c = wid -> Forall (fun x => id x <> wid) pre ->
  removeWebhook wid (pre ++ c :: post) = (true, pre ++ post).
Proof.
  intros Hc Hpre. unfold removeWebhook.
  rewrite JsLaws.findIndex_app.
  - by rewrite JsLaws.splice1_app.
  - eapply Forall_impl; [exact Hpre|]. intros x Hx. simpl in Hx.
    by apply String.eqb_neq.
  - by apply String.eqb_eq.
Qed.

Lemma removeWebhook_absent wid configs :
  Forall (fun x => id x <> wid) configs -> removeWebhook wid configs = (false, configs).
Proof.
  intros H. unfold removeWebhook.
  assert (Js.findIndex (fun w => String.eqb (id w) wid) configs = None) as ->; [|done].
  apply JsLaws.findIndex_None. eapply Forall_impl; [exact H|].
  intros x Hx. simpl in Hx. by apply String.eqb_neq.
Qed.

(** [removeWebhook] answers true exactly when some registration carries
    the id; it then drops the first such registration and nothing else,
    keeping the order of the others; when it answers false the registry
    is as it was. *)
Theorem removeWebhook_first_match (wid : string) (configs : list WebhookConfig) :
  ((removeWebhook wid configs).1 = true <-> Exists (fun c => id c = wid) configs)
  /\ ((removeWebhook wid configs).1 = false -> (removeWebhook wid configs).2 = configs)
  /\ (forall pre c post,
        configs = pre ++ c :: post -> id c = wid -> Forall (fun x => id x <> wid) pre ->
        removeWebhook wid configs = (true, pre ++ post)).
Proof.
  split; [|split].
  - unfold removeWebhook.
    destruct (Js.findIndex _ configs) as [i|] eqn:E; simpl.
    + split; [intros _|done].
      apply JsLaws.findIndex_Some in E as (pre & c & post & -> & _ & Hc & _).
      apply Exists_app. right. constructor. by apply String.eqb_eq.
    + split; [done|]. intros H. apply JsLaws.findIndex_None in E.
      apply Exists_exists in H as (x & Hx & Hid).
      rewrite Forall_forall in E. specialize (E x Hx).
      simpl in E. apply String.eqb_neq in E. done.
  - unfold removeWebhook. by destruct (Js.findIndex _ configs).
  - intros pre c post -> Hc Hpre. by apply removeWebhook_split.
Qed.

Lemma removeWebhook_first_match_witness :
  removeWebhook "b2" [regA; regB_empty; regB_absent] = (true, [regA; regB_absent]).
Proof.
  apply (removeWebhook_first_match "b2" [regA; regB_empty; regB_absent]) with
    (pre := [regA]) (c := regB_empty) (post := [regB_absent]).
  - reflexivity.
  - reflexivity.
  - repeat constructor. discriminate.
Defined.

(** A registration added by [addWebhook] under a generated id that no
    earlier registration carries is taken out again by [removeWebhook]
    with the returned id, which restores the registry; the id is the 16
    hex digits of the eight random bytes.  If the caller's object brings
    an [id] of its own, that one is registered instead, and the returned
    id removes nothing. *)
Theorem addWebhook_removeWebhook
  (bytes : list byte) (now : Z) (config : WebhookInput) (configs : list WebhookConfig) :
  let added := addWebhook bytes now config configs in
  Forall (fun c => id c <> Js.toHex bytes) configs ->
  (length bytes = 8%nat -> String.length added.1 = 16%nat)
  /\ (in_id config = None -> removeWebhook added.1 added.2 = (true, configs))
  /\ (forall own, in_id config = Some own -> own <> Js.toHex bytes ->
        removeWebhook added.1 added.2 = (false, added.2)).
Proof.
  intros added Hfresh. unfold added, addWebhook. simpl. split; [|split].
  - intros H. by rewrite toHex_length, H.
  - intros ->. simpl. rewrite removeWebhook_split; [|done..]. by rewrite app_nil_r.
  - intros own -> Hown. simpl. apply removeWebhook_absent.
    apply Forall_app. split; [done|]. by repeat constructor.
Qed.

Lemma addWebhook_removeWebhook_witness :
  let bytes := ["a"; "b"; "c"; "d"; "e"; "f"; "g"; "h"]%byte in
  let added := addWebhook bytes 7 (mkInput None "https://c.example/hook" None None)
                 [regA; regB_absent] in
  added.1 = "6162636465666768"%string
  /\ removeWebhook added.1 added.2 = (true, [regA; regB_absent]).
Proof.
  intros bytes added. split; [reflexivity|].
  apply (addWebhook_removeWebhook bytes 7 (mkInput None "https://c.example/hook" None None)
           [regA; regB_absent]).
  - repeat constructor; discriminate.
  - reflexivity.
Defined.

(** Registrations are served independently of each other: the
    deliveries for a registry are those of its parts in order, and the
    counts are the sums of the counts for its parts.  As the code stands
    no delivery succeeds: the request is refused for its X-Webhook-Event
    header before it is sent, so a registration contributes nothing if it
    is not subscribed to the event and one failure if it is, whatever its
    endpoint would answer, and the call returns no success and one
    failure per recipient. *)
Theorem sendWebhook_additive
  (JSON_stringify : Envelope -> string)
  (hmac_sha256_hex : string -> string -> string)
  (transport : Request -> NetOutcome)
  (event data : string) (now : Z) (cs1 cs2 : list WebhookConfig) :
  let send := sendWebhook JSON_stringify hmac_sha256_hex transport event data now in
  let sent := deliveries JSON_stringify hmac_sha256_hex transport event data now in
  sent (cs1 ++ cs2) = sent cs1 ++ sent cs2
  /\ success (send (cs1 ++ cs2)) = (success (send cs1) + success (send cs2))%nat
  /\ failed (send (cs1 ++ cs2)) = (failed (send cs1) + failed (send cs2))%nat
  /\ (forall c payload,
        rejected (sendToWebhook hmac_sha256_hex transport c payload) = true)
  /\ (forall c,
        send [c] = if subscribed event c then mkSendResult 0 1 else mkSendResult 0 0)
  /\ (forall cs, send cs = mkSendResult 0 (length (recipients event cs))).
Proof.
  intros send sent.
  assert (Hsent : sent (cs1 ++ cs2) = sent cs1 ++ sent cs2).
  { unfold sent, deliveries, recipients. by rewrite List.filter_app, List.map_app. }
  split; [exact Hsent|].
  assert (Hall : forall cs, send cs = mkSendResult 0 (length (recipients event cs))).
  { intros cs. apply NotificationsProofs.sendWebhook_counts. }
  rewrite !Hall. unfold recipients. rewrite List.filter_app, List.length_app. simpl.
  split; [done|]. split; [done|]. split.
  { intros c payload. by rewrite NotificationsProofs.sendToWebhook_rejected. }
  split; [|done].
  intros c. rewrite Hall. unfold recipients. simpl. by destruct (subscribed event c).
Qed.

End NotificationsLaws.

(** ** More on the persistence module *)

Module DbLaws.

Import Exn.
Import Db.
Import JsLaws.

Local Open Scope Z_scope.
Local Open Scope js_scope.

(** [pool.query] on a server with no fault scheduled. *)
Lemma pool_query_ok now s sv b d :
  Pg.faults sv = [] ->
  pool_query now s (mkWorld (Some sv) b d)
  = match exec now s (Pg.committed sv) with
    | inl code =>
        (Throw (PgError code),
         mkWorld (Some (Pg.mkServer (Pg.committed sv) (Pg.session sv) []
                          (Pg.log sv ++ [(s, false)]))) b d)
    | inr (db', r) =>
        (Return r,
         mkWorld (Some (Pg.mkServer db' (Pg.session sv) [] (Pg.log sv ++ [(s, true)]))) b d)
    end.
Proof.
  intros Hf. rewrite DbProofs.pool_query_world.
  unfold Pg.pool_query, Pg.next_fault. rewrite Hf.
  by destruct (exec now s (Pg.committed sv)) as [code|[db' r]].
Qed.

(** [pool.query] when the server refuses the statement. *)
Lemma pool_query_fault now s sv rest b d :
  Pg.faults sv = true :: rest ->
  pool_query now s (mkWorld (Some sv) b d)
  = (Throw (PgError server_fault),
     mkWorld (Some (Pg.mkServer (Pg.committed sv) (Pg.session sv) rest
                      (Pg.log sv ++ [(s, false)]))) b d).
Proof.
  intros Hf. rewrite DbProofs.pool_query_world.
  unfold Pg.pool_query, Pg.next_fault. by rewrite Hf.
Qed.

Lemma database_eta (db : Database) :
  mkDatabase (users db) (users_id_seq db) (accounts db) (accounts_id_seq db) (config db)
    (webhooks db) (usage_history db) (usage_history_id_seq db) = db.
Proof. by destruct db. Qed.

Lemma filter_keep {A} (p : A -> bool) (l : list A) :
  Forall (fun x => p x = true) l -> List.filter p l = l.
Proof.
  induction 1 as [|x l Hx _ IH]; simpl; [done|]. by rewrite Hx, IH.
Qed.

Lemma filter_drop {A} (p : A -> bool) (l : list A) :
  Forall (fun x => p x = false) l -> List.filter p l = [].
Proof.
  induction 1 as [|x l Hx _ IH]; simpl; [done|]. by rewrite Hx, IH.
Qed.

Lemma existsb_false {A} (p : A -> bool) (l : list A) :
  existsb p l = false <-> Forall (fun x => p x = false) l.
Proof.
  induction l as [|x l IH]; simpl; [by split|].
  rewrite orb_false_iff, IH. split.
  - intros [? ?]. by constructor.
  - intros H. by inversion H.
Qed.

(** *** The administrator password *)

(** What [savePassword] stores, [loadPassword] reads back; a save that
    fails answers false and leaves the store as it was.  In database mode
    an empty password is stored but read back as none. *)
Theorem savePassword_loadPassword (password : string) (now now' : Z) :
  (forall w,
     isDatabaseEnabled w = false -> writable (fs w) = true ->
     returned (savePassword password now) w = Some true
     /\ returned (loadPassword now') (after (savePassword password now) w)
        = Some (Some password))
  /\ (forall w,
        isDatabaseEnabled w = false -> writable (fs w) = false ->
        savePassword password now w = (Return false, w))
  /\ (forall sv d,
        Pg.faults sv = [] ->
        returned (savePassword password now) (mkWorld (Some sv) true d) = Some true
        /\ returned (loadPassword now')
             (after (savePassword password now) (mkWorld (Some sv) true d))
           = Some (if Js.truthy_str (Some password) then Some password else None))
  /\ (forall sv d rest,
        Pg.faults sv = true :: rest ->
        returned (savePassword password now) (mkWorld (Some sv) true d) = Some false
        /\ tables (after (savePassword password now) (mkWorld (Some sv) true d))
           = Pg.committed sv).
Proof.
  split; [|split; [|split]].
  - intros w Hfile Hw. unfold returned, after.
    rewrite ServerProofs.savePassword_file by done. simpl. split; [done|].
    rewrite ServerProofs.loadPassword_file; [done|].
    by rewrite DbProofs.isDatabaseEnabled_fs.
  - intros w Hfile Hw. unfold savePassword. rewrite Hfile.
    unfold try_catch, bind, writeJson, ret. by rewrite Hw.
  - intros sv d Hf.
    destruct (ServerProofs.savePassword_db password now sv d Hf) as (sv' & Hs & Hf' & Hc).
    unfold returned, after. rewrite Hs. simpl. split; [done|].
    rewrite ServerProofs.loadPassword_db by done. simpl. by rewrite Hc.
  - intros sv d rest Hf. unfold returned, after, savePassword. simpl.
    unfold try_catch, bind. by rewrite (pool_query_fault _ _ _ rest).
Qed.

Lemma savePassword_loadPassword_witness :
  returned (loadPassword 2) (after (savePassword "$2b$12$abc" 1) freshFiles)
  = Some (Some "$2b$12$abc"%string)
  /\ returned (loadPassword 2) (after (savePassword "" 1) (online Sql.empty)) = Some None.
Proof.
  split.
  - apply (savePassword_loadPassword "$2b$12$abc" 1 2); reflexivity.
  - reflexivity.
Defined.

(** *** Users *)

Lemma createUser_file_inv w username passwordHash role now i w' :
  isDatabaseEnabled w = false ->
  createUser username passwordHash role now w = (Return i, w') ->
  existsb (fun u => String.eqb (Db.username u) username) (storedUsers w) = false
  /\ storedUsers w' = storedUsers w ++ [mkUser i username passwordHash role now]
  /\ isDatabaseEnabled w' = false.
Proof.
  intros Hfile. unfold createUser. rewrite Hfile. unfold bind.
  destruct (ensureDataDir w) as [[[]|e] w1] eqn:He; [|done].
  pose proof (DbProofs.ensureDataDir_users _ _ _ He) as Hu.
  apply DbProofs.ensureDataDir_file in He as (_ & Hp & Hb).
  unfold loadUsersFromFile. rewrite DbProofs.readOr_spec. fold (storedUsers w1). rewrite Hu.
  destruct (existsb _ _) eqn:Hex; [done|].
  unfold writeJson, ret.
  destruct (writable (fs w1) && _); [|done].
  intros [= <- <-]. split; [done|]. split; [done|].
  unfold isDatabaseEnabled in *. simpl. by rewrite Hp, Hb.
Qed.

Lemma createUser_db_inv sv d username passwordHash role now i w' :
  createUser username passwordHash role now (mkWorld (Some sv) true d) = (Return i, w') ->
  exists sv',
    w' = mkWorld (Some sv') true d
    /\ existsb (fun u => String.eqb (users_username u) username) (users (Pg.committed sv))
       = false
    /\ users (Pg.committed sv')
       = users (Pg.committed sv) ++ [mkUserRow i username passwordHash role now]
    /\ Pg.faults sv' = (Pg.next_fault sv).2.
Proof.
  unfold createUser. simpl. unfold try_catch. rewrite DbProofs.pool_query_world.
  unfold Pg.pool_query. destruct (Pg.next_fault sv) as [[] rest]; simpl; [done|].
  destruct (negb _); simpl; [done|].
  destruct (existsb _ _) eqn:Hex; simpl; [done|].
  intros [= <- <-]. eexists. split; [reflexivity|]. done.
Qed.

(** A user name that is taken is refused with the module's own error in
    both back ends, and nothing is stored; so a [createUser] that returns
    keeps the stored user names distinct. *)
Theorem createUser_rejects_duplicate (username passwordHash role : string) (now : Z) :
  (forall w,
     isDatabaseEnabled w = false -> data_dir (fs w) = true ->
     Exists (fun u => Db.username u = username) (storedUsers w) ->
     createUser username passwordHash role now w = (Throw UserExists, w))
  /\ (forall sv d,
        Pg.faults sv = [] ->
        varchar 50 username && varchar 255 passwordHash && varchar 20 role = true ->
        Exists (fun u => users_username u = username) (users (Pg.committed sv)) ->
        (createUser username passwordHash role now (mkWorld (Some sv) true d)).1
        = Throw UserExists
        /\ tables (after (createUser username passwordHash role now)
                     (mkWorld (Some sv) true d)) = Pg.committed sv)
  /\ (forall w i w',
        isDatabaseEnabled w = false ->
        createUser username passwordHash role now w = (Return i, w') ->
        NoDup (List.map Db.username (storedUsers w)) ->
        NoDup (List.map Db.username (storedUsers w')))
  /\ (forall sv d i w',
        createUser username passwordHash role now (mkWorld (Some sv) true d) = (Return i, w') ->
        NoDup (List.map users_username (users (Pg.committed sv))) ->
        NoDup (List.map users_username (userRows w'))).
Proof.
  split; [|split; [|split]].
  - intros w Hfile Hd Hex. unfold createUser. rewrite Hfile.
    unfold bind, ensureDataDir. rewrite Hd.
    unfold loadUsersFromFile. rewrite DbProofs.readOr_spec. fold (storedUsers w).
    assert (existsb (fun u => String.eqb (Db.username u) username) (storedUsers w) = true)
      as ->; [|done].
    apply existsb_exists. apply Exists_exists in Hex as (u & Hu & Hn).
    exists u. split; [by apply list_elem_of_In|]. by apply String.eqb_eq.
  - intros sv d Hf Hlen Hex.
    assert (Hdup : existsb (fun u => String.eqb (users_username u) username)
                     (users (Pg.committed sv)) = true).
    { apply existsb_exists. apply Exists_exists in Hex as (u & Hu & Hn).
      exists u. split; [by apply list_elem_of_In|]. by apply String.eqb_eq. }
    unfold after, createUser. simpl. unfold try_catch.
    rewrite pool_query_ok by done. simpl. rewrite Hlen, Hdup. simpl. done.
  - intros w i w' Hfile Hc Hnd.
    apply createUser_file_inv in Hc as (Hfresh & -> & _); [|done].
    rewrite List.map_app. simpl. apply NoDup_app. split; [done|]. split.
    + intros x Hx Hin. apply list_elem_of_singleton in Hin as ->.
      apply existsb_false in Hfresh. apply list_elem_of_In, List.in_map_iff in Hx
        as (u & Hn & Hu).
      rewrite List.Forall_forall in Hfresh. specialize (Hfresh u Hu). simpl in Hfresh.
      apply String.eqb_neq in Hfresh. done.
    + apply NoDup_singleton.
  - intros sv d i w' Hc Hnd.
    apply createUser_db_inv in Hc as (sv' & -> & Hfresh & Hu & _).
    unfold userRows. simpl. rewrite Hu, List.map_app. simpl.
    apply NoDup_app. split; [done|]. split.
    + intros x Hx Hin. apply list_elem_of_singleton in Hin as ->.
      apply existsb_false in Hfresh. apply list_elem_of_In, List.in_map_iff in Hx
        as (u & Hn & Hu').
      rewrite List.Forall_forall in Hfresh. specialize (Hfresh u Hu'). simpl in Hfresh.
      apply String.eqb_neq in Hfresh. done.
    + apply NoDup_singleton.
Qed.

Lemma createUser_rejects_duplicate_witness :
  let w := after (createUser "alice" "$2b$h1" "user" 10) freshFiles in
  createUser "alice" "$2b$h9" "admin" 20 w = (Throw UserExists, w)
  /\ (createUser "alice" "$2b$h9" "admin" 20 aliceOwnsAccount).1 = Throw UserExists.
Proof.
  intros w. split.
  - apply (createUser_rejects_duplicate "alice" "$2b$h9" "admin" 20); try reflexivity.
    vm_compute. constructor. reflexivity.
  - apply (createUser_rejects_duplicate "alice" "$2b$h9" "admin" 20
             : _ /\ (forall sv d, _ -> _ -> _ -> _ /\ _) /\ _); try reflexivity.
    vm_compute. constructor. reflexivity.
Defined.

Lemma find_app_fresh {A} (p : A -> bool) (l : list A) (x : A) :
  existsb p l = false -> p x = true -> List.find p (l ++ [x]) = Some x.
Proof.
  intros Hl Hx. induction l as [|y l IH]; simpl in *; [by rewrite Hx|].
  apply orb_false_iff in Hl as [-> Hl]. by apply IH.
Qed.

Lemma filter_app_fresh {A} (p : A -> bool) (l : list A) (x : A) :
  existsb p l = false -> p x = true -> List.filter p (l ++ [x]) = [x].
Proof.
  intros Hl Hx. rewrite List.filter_app. simpl. rewrite Hx.
  rewrite filter_drop; [done|]. by apply existsb_false.
Qed.

(** A user that [createUser] has just created is found by [getUser] under
    the name given, with the id returned, the hash and the role, and is
    listed by [getUsers]; no entry of that list carries a password hash. *)
Theorem createUser_getUser (username passwordHash role : string) (now now' : Z) :
  (forall w i w',
     isDatabaseEnabled w = false ->
     createUser username passwordHash role now w = (Return i, w') ->
     getUser username now' w'
     = (Return (Some (mkUserInfo i username (Some passwordHash) role (Some now))), w')
     /\ exists listed,
          getUsers now' w' = (Return listed, w')
          /\ In (mkUserInfo i username None role (Some now)) listed
          /\ Forall (fun u => info_passwordHash u = None) listed)
  /\ (forall sv d i w',
        createUser username passwordHash role now (mkWorld (Some sv) true d) = (Return i, w') ->
        exists sv',
          w' = mkWorld (Some sv') true d
          /\ ((Pg.next_fault sv').1 = false ->
              returned (getUser username now') w'
              = Some (Some (mkUserInfo i username (Some passwordHash) role None))
              /\ exists listed,
                   returned (getUsers now') w' = Some listed
                   /\ In (mkUserInfo i username None role (Some now)) listed
                   /\ Forall (fun u => info_passwordHash u = None) listed)).
Proof.
  split.
  - intros w i w' Hfile Hc.
    apply createUser_file_inv in Hc as (Hfresh & Hu & Hfile'); [|done].
    split.
    + unfold getUser. rewrite Hfile'. unfold bind, loadUsersFromFile.
      rewrite DbProofs.readOr_spec. fold (storedUsers w'). rewrite Hu.
      rewrite find_app_fresh; [done|done|]. simpl. apply String.eqb_refl.
    + eexists. split.
      * unfold getUsers. rewrite Hfile'. unfold bind, loadUsersFromFile.
        rewrite DbProofs.readOr_spec. fold (storedUsers w'). reflexivity.
      * rewrite Hu. split.
        -- rewrite List.map_app. apply List.in_or_app. right. by left.
        -- apply List.Forall_forall. intros x Hx.
           apply List.in_map_iff in Hx as (u & <- & _). done.
  - intros sv d i w' Hc.
    apply createUser_db_inv in Hc as (sv' & -> & Hfresh & Hu & _).
    exists sv'. split; [done|]. intros Hnf. split.
    + unfold returned, getUser. simpl. unfold bind. rewrite DbProofs.pool_query_world.
      unfold Pg.pool_query. destruct (Pg.next_fault sv') as [f rest]. simpl in Hnf. subst f.
      simpl. rewrite Hu. rewrite filter_app_fresh; [done|done|]. simpl.
      apply String.eqb_refl.
    + unfold returned, getUsers. simpl. unfold bind. rewrite DbProofs.pool_query_world.
      unfold Pg.pool_query. destruct (Pg.next_fault sv') as [f rest]. simpl in Hnf. subst f.
      simpl. eexists. split; [reflexivity|]. split.
      * apply List.in_map_iff. exists (mkUserRow i username passwordHash role now).
        split; [done|]. apply JsProofs.sortBy_In. rewrite Hu.
        apply List.in_or_app. right. by left.
      * apply List.Forall_forall. intros x Hx.
        apply List.in_map_iff in Hx as (u & <- & _). done.
Qed.

Lemma createUser_getUser_witness :
  getUser "alice" 20 (after (createUser "alice" "$2b$h1" "user" 10) freshFiles)
  = (Return (Some (mkUserInfo 1 "alice" (Some "$2b$h1"%string) "user" (Some 10))),
     after (createUser "alice" "$2b$h1" "user" 10) freshFiles).
Proof.
  apply (createUser_getUser "alice" "$2b$h1" "user" 10 20) with (w := freshFiles);
    reflexivity.
Defined.

(** [deleteUser] answers false exactly when no stored user has the id,
    and then changes nothing. *)
Theorem deleteUser_unknown (userId now : Z) :
  (forall w,
     isDatabaseEnabled w = false ->
     (Forall (fun u => Db.id u <> userId) (storedUsers w) ->
      deleteUser userId now w = (Return false, w))
     /\ (forall w',
           deleteUser userId now w = (Return false, w') ->
           w' = w /\ Forall (fun u => Db.id u <> userId) (storedUsers w)))
  /\ (forall sv d,
        Pg.faults sv = [] ->
        Forall (fun u => users_id u <> userId) (users (Pg.committed sv)) ->
        returned (deleteUser userId now) (mkWorld (Some sv) true d) = Some false
        /\ tables (after (deleteUser userId now) (mkWorld (Some sv) true d))
           = Pg.committed sv).
Proof.
  split.
  - intros w Hfile. unfold deleteUser. rewrite Hfile. unfold bind, loadUsersFromFile.
    rewrite DbProofs.readOr_spec. fold (storedUsers w). split.
    + intros Habs.
      assert (Js.findIndex (fun u => Db.id u =? userId) (storedUsers w) = None) as ->; [|done].
      apply findIndex_None. eapply Forall_impl; [exact Habs|].
      intros u Hu. simpl in Hu. lia.
    + intros w'. destruct (Js.findIndex _ _) as [index|] eqn:E.
      * unfold writeJson, ret. by destruct (writable (fs w) && _).
      * intros [= <-]. split; [done|]. apply findIndex_None in E.
        eapply Forall_impl; [exact E|]. intros u Hu. simpl in Hu. lia.
  - intros sv d Hf Habs.
    assert (Hkeep : Forall (fun u => negb (users_id u =? userId) = true)
                      (users (Pg.committed sv))).
    { eapply Forall_impl; [exact Habs|]. intros u Hu. simpl in Hu.
      apply negb_true_iff. lia. }
    assert (Hgone : Forall (fun u => (users_id u =? userId) = false)
                      (users (Pg.committed sv))).
    { eapply Forall_impl; [exact Habs|]. intros u Hu. simpl in Hu. lia. }
    unfold returned, after, deleteUser. simpl. unfold bind.
    rewrite pool_query_ok by done. simpl.
    rewrite (filter_drop _ _ Hgone), (filter_keep _ _ Hkeep). simpl.
    split; [done|]. apply database_eta.
Qed.

Lemma deleteUser_unknown_witness :
  deleteUser 7 30 aliceWithWebhook = (Return false, aliceWithWebhook)
  /\ returned (deleteUser 7 30) aliceOwnsAccount = Some false.
Proof.
  split.
  - apply (deleteUser_unknown 7 30); [reflexivity|].
    vm_compute. repeat constructor. discriminate.
  - apply (deleteUser_unknown 7 30 : _ /\ (forall sv d, _ -> _ -> _ /\ _)); [reflexivity|].
    vm_compute. repeat constructor. discriminate.
Defined.

(** *** Webhook registrations *)

Lemma insert_middle {A} (pre : list A) (old new : A) (post : list A) :
  <[length pre := new]> (pre ++ old :: post) = pre ++ new :: post.
Proof. induction pre as [|x pre IH]; simpl; [done|]. by rewrite IH. Qed.

Lemma id_differs (l : list Webhook) (wid : string) :
  Forall (fun h => wh_id h <> wid) l ->
  Forall (fun h => String.eqb (wh_id h) wid = false) l.
Proof.
  intros H. eapply Forall_impl; [exact H|]. intros h Hh. simpl in Hh.
  by apply String.eqb_neq.
Qed.

Lemma upserted_split webhook pre old post :
  wh_id old = wh_id webhook -> Forall (fun h => wh_id h <> wh_id webhook) pre ->
  upserted webhook (pre ++ old :: post) = pre ++ webhook :: post.
Proof.
  intros Hold Hpre. unfold upserted.
  rewrite findIndex_app; [apply insert_middle|by apply id_differs|by apply String.eqb_eq].
Qed.

Lemma upserted_fresh webhook l :
  Forall (fun h => wh_id h <> wh_id webhook) l -> upserted webhook l = l ++ [webhook].
Proof.
  intros H. unfold upserted.
  assert (Js.findIndex (fun h => String.eqb (wh_id h) (wh_id webhook)) l = None) as ->; [|done].
  by apply findIndex_None, id_differs.
Qed.

(** Either shape of [upserted]. *)
Lemma upserted_cases webhook l :
  (exists pre old post,
     l = pre ++ old :: post /\ wh_id old = wh_id webhook
     /\ Forall (fun h => wh_id h <> wh_id webhook) pre
     /\ upserted webhook l = pre ++ webhook :: post)
  \/ (Forall (fun h => wh_id h <> wh_id webhook) l /\ upserted webhook l = l ++ [webhook]).
Proof.
  destruct (Js.findIndex (fun h => String.eqb (wh_id h) (wh_id webhook)) l) as [i|] eqn:E.
  - left. apply findIndex_Some in E as (pre & old & post & -> & _ & Hold & Hpre).
    apply String.eqb_eq in Hold.
    assert (Hpre' : Forall (fun h => wh_id h <> wh_id webhook) pre).
    { eapply Forall_impl; [exact Hpre|]. intros h Hh. simpl in Hh. by apply String.eqb_neq. }
    exists pre, old, post. repeat split; try done. by apply upserted_split.
  - right. apply findIndex_None in E.
    assert (Hl : Forall (fun h => wh_id h <> wh_id webhook) l).
    { eapply Forall_impl; [exact E|]. intros h Hh. simpl in Hh. by apply String.eqb_neq. }
    split; [done|]. by apply upserted_fresh.
Qed.

Lemma upserted_idem webhook l : upserted webhook (upserted webhook l) = upserted webhook l.
Proof.
  destruct (upserted_cases webhook l) as [(pre & old & post & -> & Hold & Hpre & ->)|[Hl ->]].
  - by apply upserted_split.
  - by apply (upserted_split webhook l webhook []).
Qed.

Lemma getWebhooks_file userId now w :
  isDatabaseEnabled w = false -> getWebhooks userId now w = (Return (storedWebhooks w), w).
Proof.
  intros Hfile. unfold getWebhooks. rewrite Hfile.
  exact (DbProofs.readOr_spec WEBHOOKS_FILE [] w).
Qed.

Lemma saveWebhook_file webhook now w :
  isDatabaseEnabled w = false -> writable (fs w) = true ->
  saveWebhook webhook now w
  = (Return true,
     mkWorld (pool w) (isDbEnabled w)
       (mkFileSystem true true (accounts_json (fs w)) (password_json (fs w))
          (users_json (fs w)) (Stored (upserted webhook (storedWebhooks w)))
          (usage_history_json (fs w)))).
Proof.
  intros Hfile Hw. unfold saveWebhook. rewrite Hfile. unfold bind, ensureDataDir.
  destruct (data_dir (fs w)) eqn:Hd.
  - rewrite getWebhooks_file by done. unfold writeJson, ret. rewrite Hw, Hd. simpl.
    by rewrite Hw, Hd.
  - rewrite Hw. rewrite getWebhooks_file by (by rewrite DbProofs.isDatabaseEnabled_fs).
    unfold writeJson, ret. simpl. by rewrite ?Hw.
Qed.

Lemma deleteWebhook_file webhookId now w :
  isDatabaseEnabled w = false ->
  deleteWebhook webhookId now w
  = match Js.findIndex (fun h => String.eqb (wh_id h) webhookId) (storedWebhooks w) with
    | Some index =>
        (writeJson WEBHOOKS_FILE (Js.splice1 index (storedWebhooks w));; ret true) w
    | None => (Return false, w)
    end.
Proof.
  intros Hfile. unfold deleteWebhook. rewrite Hfile. unfold bind at 1.
  rewrite getWebhooks_file by done.
  by destruct (Js.findIndex _ _).
Qed.

(** In file mode [saveWebhook] replaces the first stored registration
    with the same id in place, or appends the registration if there is
    none; the result is what [getWebhooks] returns next, saving the same
    registration again changes nothing, and ids that were distinct stay
    distinct. *)
Theorem saveWebhook_upsert (webhook : Webhook) (now : Z) (w : World) :
  isDatabaseEnabled w = false -> writable (fs w) = true ->
  let w' := after (saveWebhook webhook now) w in
  returned (saveWebhook webhook now) w = Some true
  /\ (forall pre old post,
        storedWebhooks w = pre ++ old :: post -> wh_id old = wh_id webhook ->
        Forall (fun h => wh_id h <> wh_id webhook) pre ->
        storedWebhooks w' = pre ++ webhook :: post)
  /\ (Forall (fun h => wh_id h <> wh_id webhook) (storedWebhooks w) ->
      storedWebhooks w' = storedWebhooks w ++ [webhook])
  /\ In webhook (storedWebhooks w')
  /\ (forall userId now', returned (getWebhooks userId now') w' = Some (storedWebhooks w'))
  /\ (forall now', saveWebhook webhook now' w' = (Return true, w'))
  /\ (NoDup (List.map wh_id (storedWebhooks w)) ->
      NoDup (List.map wh_id (storedWebhooks w'))).
Proof.
  intros Hfile Hw w'.
  assert (Hw' : w' = mkWorld (pool w) (isDbEnabled w)
                  (mkFileSystem true true (accounts_json (fs w)) (password_json (fs w))
                     (users_json (fs w)) (Stored (upserted webhook (storedWebhooks w)))
                     (usage_history_json (fs w)))).
  { unfold w', after. by rewrite saveWebhook_file. }
  assert (Hs : storedWebhooks w' = upserted webhook (storedWebhooks w)) by by rewrite Hw'.
  assert (Hfile' : isDatabaseEnabled w' = false).
  { rewrite Hw'. by rewrite DbProofs.isDatabaseEnabled_fs. }
  split; [unfold returned; by rewrite saveWebhook_file|].
  split; [intros pre old post Hl Hold Hpre; rewrite Hs, Hl; by apply upserted_split|].
  split; [intros Hl; rewrite Hs; by apply upserted_fresh|].
  split.
  { rewrite Hs.
    destruct (upserted_cases webhook (storedWebhooks w))
      as [(pre & old & post & _ & _ & _ & ->)|[_ ->]];
      apply List.in_or_app; right; by left. }
  split; [intros userId now'; unfold returned; by rewrite getWebhooks_file|].
  split.
  { intros now'. rewrite saveWebhook_file by (done || by rewrite Hw').
    rewrite Hs, upserted_idem. rewrite Hw' at 4. by rewrite Hw'. }
  intros Hnd. rewrite Hs.
  destruct (upserted_cases webhook (storedWebhooks w))
    as [(pre & old & post & Hl & Hold & _ & ->)|[Hl ->]].
  - rewrite Hl in Hnd. rewrite List.map_app in *. simpl in *. by rewrite <- Hold.
  - rewrite List.map_app. simpl. apply NoDup_app. split; [done|]. split; [|apply NoDup_singleton].
    intros x Hx Hin. apply list_elem_of_singleton in Hin as ->.
    apply list_elem_of_In, List.in_map_iff in Hx as (h & Hid & Hh).
    rewrite List.Forall_forall in Hl. by apply (Hl h Hh).
Qed.

Lemma saveWebhook_upsert_witness :
  let webhook := mkWebhook "w1" None (Some "ops2"%string) "https://b.example/hook"
                   (Some "s3cret"%string) (Some ["service_down"%string]) (Some true) 50 in
  storedWebhooks (after (saveWebhook webhook 50) aliceWithWebhook) = [webhook].
Proof.
  intros webhook.
  apply (saveWebhook_upsert webhook 50 aliceWithWebhook eq_refl eq_refl) with
    (pre := []) (old := mkWebhook "w1" (Some 1) (Some "ops"%string) "https://a.example/hook"
                          None None (Some true) 11) (post := []).
  - reflexivity.
  - reflexivity.
  - constructor.
Defined.

Lemma row_id_differs (l : list WebhookRow) (wid : string) :
  Forall (fun r => webhooks_id r <> wid) l ->
  existsb (fun r => String.eqb (webhooks_id r) wid) l = false.
Proof.
  intros H. apply existsb_false. eapply Forall_impl; [exact H|].
  intros r Hr. simpl in Hr. by apply String.eqb_neq.
Qed.

Lemma saveWebhook_db webhook now sv d :
  Pg.faults sv = [] ->
  returned (saveWebhook webhook now) (mkWorld (Some sv) true d) = Some true ->
  saveWebhook webhook now (mkWorld (Some sv) true d)
  = (Return true,
     mkWorld
       (Some (Pg.mkServer
                (mkDatabase (users (Pg.committed sv)) (users_id_seq (Pg.committed sv))
                   (accounts (Pg.committed sv)) (accounts_id_seq (Pg.committed sv))
                   (config (Pg.committed sv))
                   (upsert_webhook (webhookToRow now webhook) (webhooks (Pg.committed sv)))
                   (usage_history (Pg.committed sv))
                   (usage_history_id_seq (Pg.committed sv)))
                (Pg.session sv) []
                (Pg.log sv ++ [(UpsertWebhook (webhookToRow now webhook), true)])))
       true d).
Proof.
  intros Hf. unfold returned, saveWebhook. simpl. unfold bind.
  rewrite pool_query_ok by done. simpl.
  destruct (negb _); simpl; [done|].
  destruct (negb _ && negb _); simpl; done.
Qed.

(** In database mode a [saveWebhook] that succeeds appends the
    registration if its id is new; if the id is taken it rewrites the
    name, URL, secret, events and enabled flag of that row and keeps its
    owner and creation time, whatever the object passed says, and leaves
    every other row and table as it was. *)
Theorem saveWebhook_db_upsert (webhook : Webhook) (now : Z) (sv : Pg.Server) (d : FileSystem) :
  Pg.faults sv = [] ->
  returned (saveWebhook webhook now) (mkWorld (Some sv) true d) = Some true ->
  let w' := after (saveWebhook webhook now) (mkWorld (Some sv) true d) in
  (Forall (fun r => webhooks_id r <> wh_id webhook) (webhooks (Pg.committed sv)) ->
   webhookRows w' = webhooks (Pg.committed sv) ++ [webhookToRow now webhook])
  /\ (Exists (fun r => webhooks_id r = wh_id webhook) (webhooks (Pg.committed sv)) ->
      Forall2
        (fun r r' =>
           webhooks_id r' = webhooks_id r
           /\ webhooks_user_id r' = webhooks_user_id r
           /\ webhooks_created_at r' = webhooks_created_at r
           /\ (webhooks_id r = wh_id webhook ->
               webhooks_name r' = wh_name webhook /\ webhooks_url r' = wh_url webhook
               /\ webhooks_secret r' = wh_secret webhook
               /\ webhooks_events r' = wh_events webhook
               /\ webhooks_enabled r' = webhooks_enabled (webhookToRow now webhook))
           /\ (webhooks_id r <> wh_id webhook -> r' = r))
        (webhooks (Pg.committed sv)) (webhookRows w'))
  /\ userRows w' = users (Pg.committed sv)
  /\ accountRows w' = accounts (Pg.committed sv).
Proof.
  intros Hf Hok w'. unfold w', after. rewrite saveWebhook_db by done.
  unfold webhookRows, userRows, accountRows. simpl.
  split; [|split; [|done]].
  - intros Hfresh. unfold upsert_webhook. simpl.
    by rewrite row_id_differs.
  - intros Hex. unfold upsert_webhook. simpl.
    assert (existsb (fun r => String.eqb (webhooks_id r) (wh_id webhook))
              (webhooks (Pg.committed sv)) = true) as ->.
    { apply existsb_exists. apply Exists_exists in Hex as (r & Hr & Hid).
      exists r. split; [by apply list_elem_of_In|]. by apply String.eqb_eq. }
    clear. induction (webhooks (Pg.committed sv)) as [|r rows IH]; simpl; constructor; [|done].
    destruct (String.eqb_spec (webhooks_id r) (wh_id webhook)); simpl.
    + repeat split; done.
    + repeat split; done.
Qed.

Lemma saveWebhook_db_upsert_witness :
  let db := mkDatabase [mkUserRow 1 "alice" "$2b$h1" "user" 10] 2 [] 1 ∅
              [mkWebhookRow "w1" (Some 1) None "https://a.example/hook" None None true 11]
              [] 1 in
  let webhook := mkWebhook "w1" (Some 9) (Some "ops"%string) "https://b.example/hook"
                   None (Some []) (Some false) 50 in
  webhookRows (after (saveWebhook webhook 50) (online db))
  = [mkWebhookRow "w1" (Some 1) (Some "ops"%string) "https://b.example/hook" None (Some [])
       false 11]
  /\ userRows (after (saveWebhook webhook 50) (online db)) = users db.
Proof.
  intros db webhook. split; [reflexivity|].
  apply (saveWebhook_db_upsert webhook 50 (Pg.connect db)); reflexivity.
Defined.

(** A registration saved under a new id and then deleted by that id
    leaves the store as it was before the save, in both back ends;
    [deleteWebhook] answers false, and changes nothing, when no
    registration has the id. *)
Theorem deleteWebhook_saveWebhook (webhook : Webhook) (now now' : Z) :
  (forall w,
     isDatabaseEnabled w = false -> writable (fs w) = true ->
     Forall (fun h => wh_id h <> wh_id webhook) (storedWebhooks w) ->
     let w1 := after (saveWebhook webhook now) w in
     returned (deleteWebhook (wh_id webhook) now') w1 = Some true
     /\ storedWebhooks (after (deleteWebhook (wh_id webhook) now') w1) = storedWebhooks w)
  /\ (forall w webhookId,
        isDatabaseEnabled w = false ->
        Forall (fun h => wh_id h <> webhookId) (storedWebhooks w) ->
        deleteWebhook webhookId now' w = (Return false, w))
  /\ (forall sv d,
        Pg.faults sv = [] ->
        Forall (fun r => webhooks_id r <> wh_id webhook) (webhooks (Pg.committed sv)) ->
        returned (saveWebhook webhook now) (mkWorld (Some sv) true d) = Some true ->
        let w1 := after (saveWebhook webhook now) (mkWorld (Some sv) true d) in
        returned (deleteWebhook (wh_id webhook) now') w1 = Some true
        /\ tables (after (deleteWebhook (wh_id webhook) now') w1) = Pg.committed sv)
  /\ (forall sv d webhookId,
        Pg.faults sv = [] ->
        Forall (fun r => webhooks_id r <> webhookId) (webhooks (Pg.committed sv)) ->
        returned (deleteWebhook webhookId now') (mkWorld (Some sv) true d) = Some false
        /\ tables (after (deleteWebhook webhookId now') (mkWorld (Some sv) true d))
           = Pg.committed sv).
Proof.
  split; [|split; [|split]].
  - intros w Hfile Hw Hfresh w1.
    assert (Hw1 : w1 = mkWorld (pool w) (isDbEnabled w)
                    (mkFileSystem true true (accounts_json (fs w)) (password_json (fs w))
                       (users_json (fs w)) (Stored (storedWebhooks w ++ [webhook]))
                       (usage_history_json (fs w)))).
    { unfold w1, after. rewrite saveWebhook_file by done. simpl.
      by rewrite upserted_fresh. }
    assert (Hfile1 : isDatabaseEnabled w1 = false).
    { rewrite Hw1. by rewrite DbProofs.isDatabaseEnabled_fs. }
    unfold returned, after. rewrite deleteWebhook_file by done.
    assert (Hs : storedWebhooks w1 = storedWebhooks w ++ [webhook]) by by rewrite Hw1.
    rewrite Hs. rewrite findIndex_app; [|by apply id_differs|apply String.eqb_refl].
    rewrite splice1_app, app_nil_r. unfold bind, writeJson, ret.
    rewrite Hw1. simpl. done.
  - intros w webhookId Hfile Habs. rewrite deleteWebhook_file by done.
    assert (Js.findIndex (fun h => String.eqb (wh_id h) webhookId) (storedWebhooks w) = None)
      as ->; [|done].
    by apply findIndex_None, id_differs.
  - intros sv d Hf Hfresh Hok w1. unfold w1, after. rewrite saveWebhook_db by done.
    unfold returned, deleteWebhook. simpl.
    unfold upsert_webhook. simpl. rewrite row_id_differs by done.
    rewrite !List.filter_app. simpl. rewrite String.eqb_refl. simpl.
    rewrite filter_drop by (apply existsb_false; by apply row_id_differs).
    rewrite filter_keep.
    + simpl. split; [done|]. rewrite app_nil_r. apply database_eta.
    + eapply Forall_impl; [exact Hfresh|]. intros r Hr. simpl in Hr.
      apply negb_true_iff. by apply String.eqb_neq.
  - intros sv d webhookId Hf Habs.
    unfold returned, after, deleteWebhook. simpl. unfold bind.
    rewrite pool_query_ok by done. simpl.
    rewrite filter_drop by (apply existsb_false; by apply row_id_differs).
    rewrite filter_keep.
    + simpl. split; [done|]. apply database_eta.
    + eapply Forall_impl; [exact Habs|]. intros r Hr. simpl in Hr.
      apply negb_true_iff. by apply String.eqb_neq.
Qed.

Lemma deleteWebhook_saveWebhook_witness :
  let webhook := mkWebhook "w2" None None "https://b.example/hook" None None None 50 in
  storedWebhooks
    (after (deleteWebhook "w2" 60) (after (saveWebhook webhook 50) aliceWithWebhook))
  = storedWebhooks aliceWithWebhook
  /\ deleteWebhook "zz" 60 aliceWithWebhook = (Return false, aliceWithWebhook).
Proof.
  intros webhook. split.
  - apply (deleteWebhook_saveWebhook webhook 50 60); try reflexivity.
    vm_compute. repeat constructor. discriminate.
  - apply (deleteWebhook_saveWebhook webhook 50 60
             : _ /\ (forall w webhookId, _ -> _ -> _) /\ _); [reflexivity|].
    vm_compute. repeat constructor. discriminate.
Defined.

(** *** Usage history *)

(** A measurement that [recordUsage] has stored is returned by every
    [getUsageHistory] whose window still contains it and whose account
    filter selects it: the filter selects every account when it is absent
    or the empty string, and only the named account otherwise.  From the
    file the record comes back with the amount it was given.  From the
    table, whose column is DECIMAL(10, 4), a record of that account and
    time comes back; an amount the column cannot hold is refused, and the
    call throws. *)
Theorem recordUsage_getUsageHistory
  (accountName : string) (usageAmount now1 now2 days now : Z) (account : option string) :
  now2 - THIRTY_DAYS < now1 -> now - days * DAY < now1 ->
  let record := mkUsageRecord accountName usageAmount now1 in
  let selected := Js.truthy_str account = false \/ account = Some accountName in
  (forall w w' l w'',
     isDatabaseEnabled w = false ->
     recordUsage accountName usageAmount now1 now2 w = (Return true, w') ->
     getUsageHistory account days now w' = (Return l, w'') ->
     (In record l <-> selected)
     /\ Forall (fun h => Js.truthy_str account = true -> account = Some (Db.accountName h)) l)
  /\ (forall sv d w' l w'',
        recordUsage accountName usageAmount now1 now2 (mkWorld (Some sv) true d)
        = (Return true, w') ->
        getUsageHistory account days now w' = (Return l, w'') ->
        ((exists h, In h l /\ Db.accountName h = accountName /\ recordedAt h = now1)
         <-> selected)
        /\ Forall (fun h => Js.truthy_str account = true -> account = Some (Db.accountName h))
             l)
  /\ (forall sv d,
        Sql.decimal_10_4 usageAmount = false ->
        returned (recordUsage accountName usageAmount now1 now2) (mkWorld (Some sv) true d)
        = None).
Proof.
  intros Hkept Hwin record selected.
  assert (Hsel : forall name,
            negb (Js.truthy_str account) || String.eqb name (default ""%string account) = true
            <-> (Js.truthy_str account = false \/ account = Some name)).
  { intros name. destruct account as [[|c a]|]; simpl; try (split; [by left|done]).
    rewrite String.eqb_eq. split; [intros ->; by right|].
    intros [?|[= ->]]; done. }
  assert (Hday : now - days * 24 * 60 * 60 * 1000 = now - days * DAY) by (unfold DAY; lia).
  split; [|split].
  - intros w w' l w'' Hfile Hrec Hget.
    apply DbProofs.recordUsage_file in Hrec as [Hfile' Hfs]; [|done].
    rewrite DbProofs.getUsageHistory_file in Hget by done. injection Hget as <- <-.
    assert (Hs : storedUsage w'
                 = List.filter (fun h => recordedAt h >? now2 - THIRTY_DAYS)
                     (storedUsage w ++ [record])).
    { unfold storedUsage at 1, contentOr. simpl. by rewrite Hfs. }
    split.
    + rewrite JsProofs.sortBy_In, List.filter_In, Hs, List.filter_In.
      rewrite andb_true_iff, Hsel. simpl. unfold selected.
      split; [intros (_ & _ & Hyes); exact Hyes|]. intros Hyes.
      repeat split; try done.
      * apply List.in_or_app. right. by left.
      * lia.
      * rewrite Hday. lia.
    + apply List.Forall_forall. intros h Hh.
      apply JsProofs.sortBy_In, List.filter_In in Hh as [_ Hh].
      apply andb_true_iff in Hh as [_ Hh]. apply Hsel in Hh as [Hh|Hh]; [congruence|done].
  - intros sv d w' l w'' Hrec Hget.
    apply DbProofs.recordUsage_db in Hrec as (sv' & -> & Hrows).
    apply DbProofs.getUsageHistory_db in Hget as (sv'' & _ & _ & ->).
    split.
    + split.
      * intros (h & Hin & Hname & _).
        apply List.in_map_iff in Hin as (r & <- & Hin).
        apply JsProofs.sortBy_In, List.filter_In in Hin as [_ Hin].
        apply andb_true_iff in Hin as [_ Hin]. apply Hsel in Hin.
        simpl in Hname. by rewrite Hname in Hin.
      * intros Hyes. exists record. split; [|done].
        apply List.in_map_iff.
        exists (mkUsageRow (usage_history_id_seq (Pg.committed sv)) accountName usageAmount
                  now1).
        split; [done|]. apply JsProofs.sortBy_In, List.filter_In. split.
        -- rewrite Hrows. apply List.in_or_app. right. by left.
        -- simpl. apply andb_true_iff. split; [rewrite Hday; lia|]. by apply Hsel.
    + apply List.Forall_forall. intros h Hh.
      apply List.in_map_iff in Hh as (r & <- & Hin).
      apply JsProofs.sortBy_In, List.filter_In in Hin as [_ Hin].
      apply andb_true_iff in Hin as [_ Hin]. apply Hsel in Hin as [Hin|Hin]; [congruence|done].
  - intros sv d Hbig. unfold returned, recordUsage. simpl. unfold bind.
    rewrite DbProofs.pool_query_world. unfold Pg.pool_query.
    destruct (Pg.next_fault sv) as [[] rest]; simpl; [done|].
    destruct (Sql.varchar 255 accountName); simpl; [|done].
    by rewrite Hbig.
Qed.

Lemma recordUsage_getUsageHistory_witness :
  returned (getUsageHistory (Some "prod"%string) 7 (10 * DAY))
    (after (recordUsage "prod" 42 (9 * DAY) (9 * DAY)) freshFiles)
  = Some [mkUsageRecord "prod" 42 (9 * DAY)]
  /\ In (mkUsageRecord "prod" 42 (9 * DAY))
       (default [] (returned (getUsageHistory (Some ""%string) 7 (10 * DAY))
                      (after (recordUsage "prod" 42 (9 * DAY) (9 * DAY)) freshFiles))).
Proof.
  split; [reflexivity|].
  apply (recordUsage_getUsageHistory "prod" 42 (9 * DAY) (9 * DAY) 7 (10 * DAY)
           (Some ""%string) eq_refl eq_refl) with
    (w := freshFiles) (w' := after (recordUsage "prod" 42 (9 * DAY) (9 * DAY)) freshFiles)
    (w'' := after (recordUsage "prod" 42 (9 * DAY) (9 * DAY)) freshFiles);
    try reflexivity.
  by left.
Defined.

(** *** Accounts *)

Lemma saveAccounts_file_inv accounts enc encryptFn secret userId now w w' :
  isDatabaseEnabled w = false ->
  saveAccounts accounts enc encryptFn secret userId now w = (Return true, w') ->
  accounts_json (fs w')
  = Stored (if enc then List.map (encryptAccount encryptFn secret) accounts else accounts)
  /\ isDatabaseEnabled w' = false.
Proof.
  intros Hfile. unfold saveAccounts. rewrite Hfile.
  unfold try_catch, bind, writeJson, ret.
  destruct (writable (fs w) && _); [|done].
  intros [= <-]. split; [done|]. by rewrite DbProofs.isDatabaseEnabled_fs.
Qed.

Lemma saveAccounts_db_inv accounts enc encryptFn secret userId now sv d w' :
  Pg.session sv = Pg.Idle ->
  saveAccounts accounts enc encryptFn secret userId now (mkWorld (Some sv) true d)
  = (Return true, w') ->
  exists sv',
    w' = mkWorld (Some sv') true d
    /\ Sql.accounts (Pg.committed sv')
       = List.filter (fun r => negb (inScope userId r)) (Sql.accounts (Pg.committed sv))
         ++ storedRows enc encryptFn secret userId (accounts_id_seq (Pg.committed sv))
              accounts.
Proof.
  intros Hidle Hsave. rewrite DbProofs.saveAccounts_db in Hsave.
  destruct (DbProofs.saveTransaction_atomic (deleteStmt userId) accounts enc encryptFn secret
              userId now sv true d (DbProofs.isData_deleteStmt _) Hidle)
    as (sv' & ok & Heq & _ & Hok & _).
  rewrite Hsave in Heq. injection Heq as <- ->.
  exists sv'. split; [done|].
  by apply (DbProofs.txCommitted_accounts enc encryptFn secret userId now accounts sv sv'), Hok.
Qed.

Lemma storedRows_names enc encryptFn secret userId i accounts :
  Forall2 (fun a r => accounts_name r = name a /\ accounts_user_id r = userId)
    accounts (storedRows enc encryptFn secret userId i accounts).
Proof.
  revert i. induction accounts as [|a l IH]; intros i; simpl; constructor; [|apply IH].
  unfold storedRow. destruct (enc && _); [|done]. by destruct (encryptFn _ _).
Qed.

Lemma storedRows_sealed encryptFn secret userId i accounts :
  Forall (fun a => is_Some (encryptFn (default ""%string (token a)) secret)) accounts ->
  Forall (fun r => Js.truthy_str (accounts_token r) = false)
    (storedRows true encryptFn secret userId i accounts).
Proof.
  intros H. revert i. induction H as [|a l [enc Ha] _ IH]; intros i; simpl; constructor;
    [|apply IH].
  unfold storedRow. simpl. rewrite Ha. by destruct (Js.truthy_str (token a)) eqn:E.
Qed.

Lemma storedRows_fallback encryptFn secret userId i accounts a :
  In a accounts -> Js.truthy_str (token a) = true ->
  encryptFn (default ""%string (token a)) secret = None ->
  exists r,
    In r (storedRows true encryptFn secret userId i accounts)
    /\ accounts_name r = name a /\ accounts_token r = token a
    /\ accounts_encrypted_token r = None.
Proof.
  intros Hin Ht Hnone. revert i. induction accounts as [|b l IH]; intros i; [done|].
  destruct Hin as [->|Hin].
  - eexists. split; [by left|]. unfold storedRow. simpl. by rewrite Ht, Hnone.
  - destruct (IH Hin (i + 1)) as (r & Hr & ?). exists r. split; [by right|done].
Qed.

(** With encryption switched on, a successful [saveAccounts] stores one
    object or row per account, under the account's name.  If the cipher
    accepts every token, nothing stored holds a clear token.  If the
    cipher throws for an account, the save still succeeds and that account
    is stored with its token in clear. *)
Theorem saveAccounts_seals_tokens
  (accounts : list Account) (encryptFn : Encrypt) (secret : string)
  (userId : option Z) (now : Z) :
  (forall w w',
     isDatabaseEnabled w = false ->
     saveAccounts accounts true encryptFn secret userId now w = (Return true, w') ->
     exists stored,
       accounts_json (fs w') = Stored stored
       /\ Forall2 (fun a s => name s = name a) accounts stored
       /\ (Forall (fun a => is_Some (encryptFn (default ""%string (token a)) secret))
             accounts ->
           Forall (fun s => Js.truthy_str (token s) = false) stored)
       /\ (forall a,
             In a accounts -> Js.truthy_str (token a) = true ->
             encryptFn (default ""%string (token a)) secret = None ->
             In a stored))
  /\ (forall sv d w',
        Pg.session sv = Pg.Idle ->
        saveAccounts accounts true encryptFn secret userId now (mkWorld (Some sv) true d)
        = (Return true, w') ->
        exists rows,
          accountRows w'
          = List.filter (fun r => negb (inScope userId r)) (Sql.accounts (Pg.committed sv))
            ++ rows
          /\ Forall2 (fun a r => accounts_name r = name a /\ accounts_user_id r = userId)
               accounts rows
          /\ (Forall (fun a => is_Some (encryptFn (default ""%string (token a)) secret))
                accounts ->
              Forall (fun r => Js.truthy_str (accounts_token r) = false) rows)
          /\ (forall a,
                In a accounts -> Js.truthy_str (token a) = true ->
                encryptFn (default ""%string (token a)) secret = None ->
                exists r,
                  In r rows /\ accounts_name r = name a /\ accounts_token r = token a
                  /\ accounts_encrypted_token r = None)).
Proof.
  split.
  - intros w w' Hfile Hsave.
    apply saveAccounts_file_inv in Hsave as [Hfs _]; [|done].
    eexists. split; [exact Hfs|]. split; [|split].
    + clear. induction accounts as [|a l IH]; simpl; [constructor|].
      constructor; [|exact IH].
      unfold encryptAccount. destruct (Js.truthy_str (token a)); [|done].
      by destruct (encryptFn _ _).
    + clear. intros Hall. induction Hall as [|a l [enc Ha] _ IH]; simpl; [constructor|].
      constructor; [|exact IH].
      unfold encryptAccount. rewrite Ha. by destruct (Js.truthy_str (token a)) eqn:E.
    + intros a Hin Ht Hnone. apply List.in_map_iff. exists a. split; [|done].
      unfold encryptAccount. by rewrite Ht, Hnone.
  - intros sv d w' Hidle Hsave.
    apply saveAccounts_db_inv in Hsave as (sv' & -> & Hrows); [|done].
    eexists. split; [exact Hrows|]. split; [apply storedRows_names|]. split.
    + apply storedRows_sealed.
    + intros a. apply storedRows_fallback.
Qed.

Lemma saveAccounts_seals_tokens_witness :
  let cipher : Encrypt := fun clear _ => Some ("enc:" +:+ clear) in
  let save := saveAccounts [mkAccount "x" (Some "sk-x"%string) None] true cipher "k" None 50 in
  exists stored,
    accounts_json (fs (after save freshFiles)) = Stored stored
    /\ Forall (fun s => Js.truthy_str (token s) = false) stored.
Proof.
  intros cipher save.
  destruct (saveAccounts_seals_tokens [mkAccount "x" (Some "sk-x"%string) None] cipher "k"
              None 50) as [Hfile _].
  destruct (Hfile freshFiles (after save freshFiles) eq_refl eq_refl)
    as (stored & Hs & _ & Hsealed & _).
  exists stored. split; [exact Hs|]. apply Hsealed.
  repeat constructor. by eexists.
Defined.

Lemma filter_filter_impl {A} (p q : A -> bool) (l : list A) :
  (forall x, p x = true -> q x = true) ->
  List.filter p (List.filter q l) = List.filter p l.
Proof.
  intros H. induction l as [|x l IH]; simpl; [done|].
  destruct (q x) eqn:Eq; simpl; [by rewrite IH|].
  destruct (p x) eqn:Ep; [|done]. apply H in Ep. congruence.
Qed.

Lemma storedRows_inScope enc encryptFn secret userId i accounts :
  userId <> Some 0 ->
  Forall (fun r => negb (inScope userId r) = false)
    (storedRows enc encryptFn secret userId i accounts).
Proof.
  intros Hne. eapply Forall_impl; [apply DbProofs.storedRows_from|].
  intros r [_ Hr]. simpl in *. unfold inScope. rewrite Hr.
  destruct userId as [uid|]; simpl; [|done].
  destruct (Z.eqb_spec uid 0) as [->|_]; [done|]. simpl. by rewrite Z.eqb_refl.
Qed.

(** A [saveAccounts] in database mode, whether it commits or rolls back,
    touches only the rows of the scope it was called for: the rows
    outside it are the same, in the same order, so the rows any other
    user owns are the same. *)
Theorem saveAccounts_scope_isolation
  (accounts : list Account) (enc : bool) (encryptFn : Encrypt) (secret : string)
  (userId : option Z) (now : Z) (sv : Pg.Server) (d : FileSystem) :
  Pg.session sv = Pg.Idle -> userId <> Some 0 ->
  let w' := after (saveAccounts accounts enc encryptFn secret userId now)
              (mkWorld (Some sv) true d) in
  List.filter (fun r => negb (inScope userId r)) (accountRows w')
  = List.filter (fun r => negb (inScope userId r)) (Sql.accounts (Pg.committed sv))
  /\ (forall other,
        other <> 0 -> userId <> Some other ->
        List.filter (fun r => owner_is other (accounts_user_id r)) (accountRows w')
        = List.filter (fun r => owner_is other (accounts_user_id r))
            (Sql.accounts (Pg.committed sv))).
Proof.
  intros Hidle Hne w'.
  assert (Hout : List.filter (fun r => negb (inScope userId r)) (accountRows w')
                 = List.filter (fun r => negb (inScope userId r))
                     (Sql.accounts (Pg.committed sv))).
  { unfold w', after. rewrite DbProofs.saveAccounts_db.
    destruct (DbProofs.saveTransaction_atomic (deleteStmt userId) accounts enc encryptFn
                secret userId now sv true d (DbProofs.isData_deleteStmt _) Hidle)
      as (sv' & r & Heq & _ & Hok & Hfail & Hlost & _).
    rewrite Heq. unfold accountRows. simpl. destruct r as [[]|e].
    - specialize (Hok eq_refl).
      apply (DbProofs.txCommitted_accounts enc encryptFn secret userId now accounts sv sv')
        in Hok.
      rewrite Hok, List.filter_app.
      rewrite (filter_drop _ (storedRows _ _ _ _ _ _)) by by apply storedRows_inScope.
      rewrite app_nil_r. by apply filter_filter_impl.
    - destruct (Hfail eq_refl) as [-> _]. done.
    - destruct (Hlost e eq_refl) as [_ [-> _]]. done. }
  split; [exact Hout|].
  intros other Hother Hdiff.
  assert (Himpl : forall r : AccountRow,
            owner_is other (accounts_user_id r) = true ->
            negb (inScope userId r) = true).
  { intros r Hr. apply DbProofs.owner_is_Some in Hr. unfold inScope. rewrite Hr.
    destruct userId as [uid|]; simpl; [|done].
    destruct (Z.eqb_spec uid 0); simpl; [done|].
    apply negb_true_iff. apply Z.eqb_neq. intros ->. done. }
  rewrite <- (filter_filter_impl _ _ (accountRows w') Himpl), Hout.
  by apply filter_filter_impl.
Qed.

Lemma saveAccounts_scope_isolation_witness :
  let save := saveAccounts [mkAccount "g" (Some "sk-g"%string) None] false
                (fun _ _ => None) "k" None 50 in
  List.filter (fun r => owner_is 1 (accounts_user_id r))
    (accountRows (after save aliceOwnsAccount))
  = [mkAccountRow 1 (Some 1) "alice-prod" (Some "sk-alice"%string) None].
Proof.
  intros save.
  assert (H := saveAccounts_scope_isolation [mkAccount "g" (Some "sk-g"%string) None] false
                 (fun _ _ => None) "k" None 50
                 (Pg.connect
                    (mkDatabase [mkUserRow 1 "alice" "$2b$h1" "user" 10] 2
                       [mkAccountRow 1 (Some 1) "alice-prod" (Some "sk-alice"%string) None] 2
                       ∅ [] [] 1))
                 (mkFileSystem true true Missing Missing Missing Missing Missing)
                 eq_refl).
  destruct H as [_ H]; [discriminate|].
  apply (H 1); [lia|discriminate].
Defined.

(** The file back end reads back what it saved, for any pair of scopes
    (it ignores them), with or without encryption, provided the cipher
    inverts itself; a save that cannot write answers false and changes
    nothing. *)
Theorem saveAccounts_file_roundtrip
  (accounts : list Account) (enc : bool) (encryptFn : Encrypt) (decryptFn : Decrypt)
  (secret : string) (userId userId' : option Z) (now now' : Z) (w : World) :
  isDatabaseEnabled w = false ->
  roundTrips encryptFn decryptFn secret -> Forall plain accounts ->
  (writable (fs w) = true ->
   returned (saveAccounts accounts enc encryptFn secret userId now) w = Some true
   /\ returned (loadAccounts enc decryptFn secret userId' now')
        (after (saveAccounts accounts enc encryptFn secret userId now) w)
      = Some accounts)
  /\ (writable (fs w) = false ->
      saveAccounts accounts enc encryptFn secret userId now w = (Return false, w)).
Proof.
  intros Hfile Hrt Hp. split.
  - intros Hw.
    assert (Hs : returned (saveAccounts accounts enc encryptFn secret userId now) w
                 = Some true).
    { unfold returned, saveAccounts. rewrite Hfile.
      unfold try_catch, bind, writeJson, ret. by rewrite Hw. }
    split; [exact Hs|].
    unfold returned in *. unfold after.
    destruct (saveAccounts accounts enc encryptFn secret userId now w) as [[[]|e] w'] eqn:E;
      try done.
    simpl.
    by rewrite (DbProofs.saveAccounts_loadAccounts_file accounts enc encryptFn decryptFn
                  secret userId userId' now now' w w' Hfile Hrt Hp E).
  - intros Hw. unfold saveAccounts. rewrite Hfile.
    unfold try_catch, bind, writeJson, ret. by rewrite Hw.
Qed.

Lemma saveAccounts_file_roundtrip_witness :
  let encryptFn : Encrypt := fun clear _ => Some ("enc:" +:+ clear) in
  let decryptFn : Decrypt :=
    fun enc _ =>
      match enc with
      | String _ (String _ (String _ (String _ clear))) => Some clear
      | _ => None
      end in
  let accounts := [mkAccount "x" (Some "sk-x"%string) None] in
  returned (loadAccounts true decryptFn "k" (Some 3) 60)
    (after (saveAccounts accounts true encryptFn "k" None 50) freshFiles)
  = Some accounts.
Proof.
  intros encryptFn decryptFn accounts.
  apply (saveAccounts_file_roundtrip accounts true encryptFn decryptFn "k" None (Some 3) 50 60
           freshFiles eq_refl).
  - intros clear enc [= <-]. reflexivity.
  - repeat constructor.
  - reflexivity.
Defined.

(** In database mode, what a user's successful [saveAccounts] stored is
    what [loadAccounts] returns for that user next, whatever rows other
    users or nobody owned before, provided the cipher inverts itself and
    the SELECT is not refused. *)
Theorem saveAccounts_loadAccounts_user
  (accounts : list Account) (enc : bool) (encryptFn : Encrypt) (decryptFn : Decrypt)
  (secret : string) (uid now now' : Z) (sv : Pg.Server) (d : FileSystem) (w' : World) :
  Pg.session sv = Pg.Idle -> uid <> 0 ->
  roundTrips encryptFn decryptFn secret -> Forall plain accounts ->
  saveAccounts accounts enc encryptFn secret (Some uid) now (mkWorld (Some sv) true d)
  = (Return true, w') ->
  exists sv',
    w' = mkWorld (Some sv') true d
    /\ Pg.session sv' = Pg.Idle
    /\ ((Pg.next_fault sv').1 = false ->
        returned (loadAccounts enc decryptFn secret (Some uid) now') w' = Some accounts
        /\ tables (after (loadAccounts enc decryptFn secret (Some uid) now') w')
           = Pg.committed sv').
Proof.
  intros Hidle Hne Hrt Hp Hsave.
  destruct (DbProofs.saveAccounts_loadAccounts_scoped accounts enc encryptFn decryptFn secret
              uid now now' sv d w' Hidle Hne Hrt Hp Hsave) as (sv' & -> & Hload).
  exists sv'. split; [done|]. split.
  - rewrite DbProofs.saveAccounts_db in Hsave.
    destruct (DbProofs.saveTransaction_atomic (deleteStmt (Some uid)) accounts enc encryptFn
                secret (Some uid) now sv true d (DbProofs.isData_deleteStmt _) Hidle)
      as (sv'' & ok & Heq & Hidle' & _).
    rewrite Hsave in Heq. by injection Heq as <- ->.
  - intros Hnf. split; [by apply Hload|].
    unfold after. rewrite DbProofs.loadAccounts_db. unfold tables. simpl.
    unfold Pg.pool_query. destruct (Pg.next_fault sv') as [f rest]. simpl in Hnf. subst f.
    assert (Hsc : scope (Some uid) = Some uid).
    { unfold scope. simpl. by destruct (Z.eqb_spec uid 0). }
    by rewrite Hsc.
Qed.

Lemma saveAccounts_loadAccounts_user_witness :
  let accounts := [mkAccount "x" (Some "sk-x"%string) None;
                   mkAccount "y" (Some "sk-y"%string) None] in
  let save := saveAccounts accounts false (fun _ _ => None) "k" (Some 1) 50 in
  returned (loadAccounts false (fun _ _ => None) "k" (Some 1) 60) (after save aliceOwnsAccount)
  = Some accounts.
Proof.
  intros accounts save.
  destruct (saveAccounts_loadAccounts_user accounts false (fun _ _ => None)
              (fun _ _ => None) "k" 1 50 60
              (Pg.connect
                 (mkDatabase [mkUserRow 1 "alice" "$2b$h1" "user" 10] 2
                    [mkAccountRow 1 (Some 1) "alice-prod" (Some "sk-alice"%string) None] 2
                    ∅ [] [] 1))
              (mkFileSystem true true Missing Missing Missing Missing Missing)
              (after save aliceOwnsAccount))
    as (sv' & Hw & _ & Hload).
  - reflexivity.
  - lia.
  - intros clear enc H. discriminate H.
  - repeat constructor.
  - reflexivity.
  - injection Hw as <-. apply Hload. reflexivity.
Defined.

Lemma txCommitted_legacy enc encryptFn secret now accounts sv sv' :
  txCommitted now
    (DeleteAccountsAll :: List.map (insertStmt enc encryptFn secret None) accounts) sv sv' ->
  Sql.accounts (Pg.committed sv')
  = storedRows enc encryptFn secret None (accounts_id_seq (Pg.committed sv)) accounts.
Proof.
  intros [_ He]. simpl in He.
  by apply DbProofs.effects_inserts in He.
Qed.

(** The single-tenant db.js reads back exactly what it saved, whatever
    the table held before: its save clears the whole table and its load
    selects the whole table. *)
Theorem legacy_saveAccounts_loadAccounts
  (accounts : list Account) (enc : bool) (encryptFn : Encrypt) (decryptFn : Decrypt)
  (secret : string) (now now' : Z) (sv : Pg.Server) (d : FileSystem) (w' : World) :
  Pg.session sv = Pg.Idle ->
  roundTrips encryptFn decryptFn secret -> Forall plain accounts ->
  DbLegacy.saveAccounts accounts enc encryptFn secret now (mkWorld (Some sv) true d)
  = (Return true, w') ->
  exists sv',
    w' = mkWorld (Some sv') true d
    /\ List.map accounts_name (Sql.accounts (Pg.committed sv')) = List.map name accounts
    /\ ((Pg.next_fault sv').1 = false ->
        returned (DbLegacy.loadAccounts enc decryptFn secret now') w' = Some accounts).
Proof.
  intros Hidle Hrt Hp Hsave.
  rewrite DbProofs.saveAccounts_legacy_db in Hsave.
  destruct (DbProofs.saveTransaction_atomic DeleteAccountsAll accounts enc encryptFn secret
              None now sv true d eq_refl Hidle)
    as (sv' & ok & Heq & _ & Hok & _).
  rewrite Hsave in Heq. injection Heq as <- ->.
  exists sv'. split; [done|].
  apply txCommitted_legacy in Hok; [|done]. split.
  - rewrite Hok. clear. generalize (accounts_id_seq (Pg.committed sv)).
    induction accounts as [|a l IH]; intros i; simpl; [done|]. rewrite IH. f_equal.
    unfold storedRow. destruct (enc && _); [|done]. by destruct (encryptFn _ _).
  - intros Hnf. unfold returned. rewrite DbProofs.loadAccounts_legacy_db. simpl.
    unfold Pg.pool_query. destruct (Pg.next_fault sv') as [f rest]. simpl in Hnf. subst f.
    simpl. rewrite Hok.
    rewrite JsProofs.sortBy_increasing by apply DbProofs.storedRows_increasing.
    by rewrite DbProofs.decryptRow_storedRows.
Qed.

Lemma legacy_saveAccounts_loadAccounts_witness :
  let accounts := [mkAccount "global" (Some "sk-g"%string) None] in
  let save := DbLegacy.saveAccounts accounts false (fun _ _ => None) "k" 50 in
  let db := mkDatabase [] 1 [mkAccountRow 1 None "old" (Some "sk-old"%string) None] 2
              ∅ [] [] 1 in
  returned (DbLegacy.loadAccounts false (fun _ _ => None) "k" 60) (after save (online db))
  = Some accounts.
Proof.
  intros accounts save db.
  destruct (legacy_saveAccounts_loadAccounts accounts false (fun _ _ => None)
              (fun _ _ => None) "k" 50 60 (Pg.connect db)
              (mkFileSystem true true Missing Missing Missing Missing Missing)
              (after save (online db)))
    as (sv' & Hw & _ & Hload).
  - reflexivity.
  - intros clear enc H. discriminate H.
  - repeat constructor.
  - reflexivity.
  - injection Hw as <-. apply Hload. reflexivity.
Defined.

Lemma createUser_db_seq sv d username passwordHash role now i w' :
  createUser username passwordHash role now (mkWorld (Some sv) true d) = (Return i, w') ->
  i = users_id_seq (Pg.committed sv)
  /\ users_id_seq (tables w') = i + 1
  /\ userRows w' = users (Pg.committed sv) ++ [mkUserRow i username passwordHash role now].
Proof.
  unfold createUser. simpl. unfold try_catch. rewrite DbProofs.pool_query_world.
  unfold Pg.pool_query. destruct (Pg.next_fault sv) as [[] rest]; simpl; [done|].
  destruct (negb _); simpl; [done|].
  destruct (existsb _ _) eqn:Hex; simpl; [done|].
  by intros [= <- <-].
Qed.

(** In database mode the id [createUser] returns has never been handed
    out before: while every stored id lies below the sequence, the new id
    differs from all of them, the ids stay pairwise distinct, and neither
    the insert nor a later [deleteUser] brings the sequence back within
    reach of a stored id. *)
Theorem createUser_db_fresh_id
  (username passwordHash role : string) (now : Z) (sv : Pg.Server) (d : FileSystem)
  (i : Z) (w' : World) :
  Forall (fun u => users_id u < users_id_seq (Pg.committed sv)) (users (Pg.committed sv)) ->
  createUser username passwordHash role now (mkWorld (Some sv) true d) = (Return i, w') ->
  Forall (fun u => users_id u <> i) (users (Pg.committed sv))
  /\ Forall (fun u => users_id u < users_id_seq (tables w')) (userRows w')
  /\ (NoDup (List.map users_id (users (Pg.committed sv))) ->
      NoDup (List.map users_id (userRows w')))
  /\ (forall userId now',
        let w'' := after (deleteUser userId now') w' in
        users_id_seq (tables w'') = i + 1
        /\ Forall (fun u => users_id u < users_id_seq (tables w'')) (userRows w'')).
Proof.
  intros Hinv Hc.
  pose proof (createUser_db_inv _ _ _ _ _ _ _ _ Hc) as (sv' & Hw & _).
  apply createUser_db_seq in Hc as (Hi & Hseq & Hrows).
  assert (Hlt : Forall (fun u => users_id u < users_id_seq (tables w')) (userRows w')).
  { rewrite Hrows, Hseq. apply Forall_app. split.
    - eapply Forall_impl; [exact Hinv|]. intros u Hu. simpl in Hu. lia.
    - repeat constructor. simpl. lia. }
  split; [|split; [exact Hlt|split]].
  - eapply Forall_impl; [exact Hinv|]. intros u Hu. simpl in Hu. lia.
  - intros Hnd. rewrite Hrows, List.map_app. simpl.
    apply NoDup_app. split; [done|]. split; [|apply NoDup_singleton].
    intros x Hx Hin. apply list_elem_of_singleton in Hin as ->.
    apply list_elem_of_In, List.in_map_iff in Hx as (u & Hid & Hu).
    rewrite List.Forall_forall in Hinv. specialize (Hinv u Hu). simpl in Hinv. lia.
  - intros userId now' w''. subst w'. unfold w'', after, deleteUser. simpl.
    unfold bind. rewrite DbProofs.pool_query_world.
    unfold tables, userRows in *. simpl in *.
    unfold Pg.pool_query. destruct (Pg.next_fault sv') as [[] rest]; simpl.
    + split; [exact Hseq|exact Hlt].
    + split; [exact Hseq|].
      apply List.Forall_forall. intros u Hu. apply List.filter_In in Hu as [Hu _].
      rewrite List.Forall_forall in Hlt. by apply Hlt.
Qed.

Lemma createUser_db_fresh_id_witness :
  let create := createUser "bob" "$2b$h2" "user" 20 in
  returned create aliceOwnsAccount = Some 2
  /\ Forall (fun u => users_id u <> 2) (userRows aliceOwnsAccount)
  /\ List.map users_id (userRows (after (deleteUser 1 30) (after create aliceOwnsAccount)))
     = [2].
Proof.
  intros create. split; [reflexivity|]. split; [|reflexivity].
  apply (createUser_db_fresh_id "bob" "$2b$h2" "user" 20
           (Pg.connect
              (mkDatabase [mkUserRow 1 "alice" "$2b$h1" "user" 10] 2
                 [mkAccountRow 1 (Some 1) "alice-prod" (Some "sk-alice"%string) None] 2
                 ∅ [] [] 1))
           (mkFileSystem true true Missing Missing Missing Missing Missing)
           2 (after create aliceOwnsAccount)).
  - repeat constructor.
  - reflexivity.
Defined.

(** *** The save transaction and the connection *)

(** An amount of a million or more does not fit DECIMAL(10, 4): the
    insert is refused and [recordUsage], which has no handler in database
    mode, throws.  The largest amount below is stored. *)
Example recordUsage_out_of_range :
  (recordUsage "prod" (10 ^ 10) 50 50 aliceOwnsAccount).1
  = Throw (PgError Sql.numeric_value_out_of_range)
  /\ returned (recordUsage "prod" (10 ^ 10 - 1) 50 50) aliceOwnsAccount = Some true.
Proof. split; reflexivity. Qed.

(** In the relational back end, started on an idle connection,
    [saveAccounts] ends in one of three ways, and in each the connection
    is idle afterwards.  It returns true: the server has executed,
    successfully and in this order, BEGIN, the delete for the scope, one
    insert per account and COMMIT, and the stored tables are the old ones
    with the delete and the inserts applied.  It returns false: a
    statement was refused, a ROLLBACK was the last statement and
    succeeded, and the stored tables are the old ones.  It throws: the
    connection failed, either at the check-out, before any statement, or
    at the ROLLBACK that followed a refused statement, and the stored
    tables are the old ones.  Whenever any statement of the call is
    refused, the call does not return true and the stored tables are
    unchanged.  The same holds for db.js, which clears the whole table. *)
Theorem saveAccounts_all_or_nothing
  (accounts : list Account) (encryptionEnabled : bool) (encryptFn : Encrypt)
  (secret : string) (userId : option Z) (now : Z) (sv : Pg.Server) (d : FileSystem) :
  Pg.session sv = Pg.Idle ->
  (exists sv' (r : Outcome bool),
     saveAccounts accounts encryptionEnabled encryptFn secret userId now
       (mkWorld (Some sv) true d)
     = (r, mkWorld (Some sv') true d)
     /\ Pg.session sv' = Pg.Idle
     /\ (r = Return true ->
         txCommitted now
           (deleteStmt userId
            :: List.map (insertStmt encryptionEnabled encryptFn secret userId) accounts)
           sv sv')
     /\ (r = Return false -> txRolledBack sv sv')
     /\ (forall e, r = Throw e -> e = PgError Sql.connection_failure /\ txLost sv sv')
     /\ (forall entries,
           Pg.log sv' = Pg.log sv ++ entries -> Exists failed entries ->
           r <> Return true /\ Pg.committed sv' = Pg.committed sv))
  /\ (exists sv' (r : Outcome bool),
        DbLegacy.saveAccounts accounts encryptionEnabled encryptFn secret now
          (mkWorld (Some sv) true d)
        = (r, mkWorld (Some sv') true d)
        /\ Pg.session sv' = Pg.Idle
        /\ (r = Return true ->
            txCommitted now
              (DeleteAccountsAll
               :: List.map (insertStmt encryptionEnabled encryptFn secret None) accounts)
              sv sv')
        /\ (r = Return false -> txRolledBack sv sv')
        /\ (forall e, r = Throw e -> e = PgError Sql.connection_failure /\ txLost sv sv')
        /\ (forall entries,
              Pg.log sv' = Pg.log sv ++ entries -> Exists failed entries ->
              r <> Return true /\ Pg.committed sv' = Pg.committed sv)).
Proof.
  intros Hidle. split.
  - rewrite DbProofs.saveAccounts_db.
    apply DbProofs.saveTransaction_atomic; [apply DbProofs.isData_deleteStmt|done].
  - rewrite DbProofs.saveAccounts_legacy_db.
    by apply DbProofs.saveTransaction_atomic.
Qed.

(** The theorem on alice's server, for a save that replaces her accounts
    while the server refuses the insert. *)
Lemma saveAccounts_all_or_nothing_witness :
  let db := mkDatabase [mkUserRow 1 "alice" "$2b$h1" "user" 10] 2
              [mkAccountRow 1 (Some 1) "alice-prod" (Some "sk-alice"%string) None] 2
              ∅ [] [] 1 in
  let sv := Pg.mkServer db Pg.Idle [false; false; false; true] [] in
  let save := saveAccounts [mkAccount "x" (Some "sk-x"%string) None] false
                (fun _ _ => None) "k" (Some 1) 50 in
  returned save (mkWorld (Some sv) true (fs freshFiles)) <> Some true
  /\ accountRows (after save (mkWorld (Some sv) true (fs freshFiles))) = Sql.accounts db.
Proof.
  intros db sv save.
  destruct (saveAccounts_all_or_nothing [mkAccount "x" (Some "sk-x"%string) None] false
              (fun _ _ => None) "k" (Some 1) 50 sv (fs freshFiles) eq_refl)
    as [(sv' & r & Heq & _ & _ & _ & _ & Hrefused) _].
  assert (Hlog : Pg.log sv'
                 = Pg.log sv
                   ++ [(BEGIN, true);
                       (DeleteAccountsOfUser 1, true);
                       (InsertAccountClear (Some 1) "x" (Some "sk-x"%string), false);
                       (ROLLBACK, true)]).
  { apply (f_equal (fun x => Pg.log <$> pool x.2)) in Heq. simpl in Heq.
    by injection Heq as <-. }
  destruct (Hrefused _ Hlog) as [Hr Hc].
  { apply Exists_cons_tl, Exists_cons_tl, Exists_cons_hd. reflexivity. }
  unfold returned, after, save. rewrite Heq. simpl. split.
  - destruct r as [[]|e]; [done|discriminate|discriminate].
  - unfold accountRows. simpl. by rewrite Hc.
Defined.

End DbLaws.

(** ** More on the password and session handlers *)

Module ServerLaws.

Import Exn.
Import Db.
Import Server.

Local Open Scope Z_scope.
Local Open Scope js_scope.

Lemma storedPassword_file w :
  isDatabaseEnabled w = false ->
  storedPassword w = match password_json (fs w) with Stored p => Some p | _ => None end.
Proof. intros H. unfold storedPassword. by rewrite H. Qed.

Lemma loadPassword_file' now w :
  isDatabaseEnabled w = false -> loadPassword now w = (Return (storedPassword w), w).
Proof.
  intros H. rewrite ServerProofs.loadPassword_file by done. by rewrite storedPassword_file.
Qed.

Lemma truthy_prefix (p : string) : Js.startsWith p "$2" = true -> Js.truthy_str (Some p) = true.
Proof. by destruct p. Qed.

(** What [savePassword] leaves in the password slot: the value passed,
    or what was there if the write failed. *)
Lemma savePassword_stores value now w :
  storedPassword (after (savePassword value now) w) = storedPassword w
  \/ storedPassword (after (savePassword value now) w) = Some value.
Proof.
  unfold after. destruct (isDatabaseEnabled w) eqn:Hen.
  - destruct (DbProofs.enabled_pool w Hen) as [sv ->].
    unfold savePassword. simpl. unfold try_catch, bind.
    rewrite DbProofs.pool_query_world. unfold Pg.pool_query.
    destruct (Pg.next_fault sv) as [[] rest]; simpl; [by left|].
    right. unfold storedPassword. simpl. apply lookup_insert_eq.
  - unfold savePassword. rewrite Hen. unfold try_catch, bind, writeJson, ret.
    destruct (writable (fs w) && _); simpl; [|by left].
    right. unfold storedPassword. by rewrite DbProofs.isDatabaseEnabled_fs, Hen.
Qed.

Section Passwords.

Variable bcrypt_hash : string -> nat -> string -> string.
Variable bcrypt_compare : string -> string -> bool.

(** What the tests of the module assert of every hash bcrypt returns. *)
Hypothesis bcrypt_format :
  forall password rounds salt, Js.startsWith (bcrypt_hash password rounds salt) "$2" = true.

Lemma hashed_isHashed password salt :
  PasswordUtils.isHashed (Some (PasswordUtils.hashPassword bcrypt_hash password salt)) = true.
Proof. apply ServerProofs.isHashed_startsWith, bcrypt_format. Qed.

(** POST /api/set-password stores the bcrypt hash of the password when
    [loadPassword] finds none, and refuses without writing when it finds
    one.  [loadPassword] finds none also when the password file cannot be
    read or the database refuses the SELECT: the handler then replaces
    whatever was stored.  A password set this way opens a session at the
    next login, given that bcrypt accepts a password against its own
    hash. *)
Theorem setPassword_first_run (password salt : string) (now : Z) :
  (forall w,
     isDatabaseEnabled w = false -> Js.truthy_str (storedPassword w) = true ->
     setPasswordHandler bcrypt_hash password salt now w = (Return SetAlreadySet, w))
  /\ (forall w,
        isDatabaseEnabled w = false -> Js.truthy_str (storedPassword w) = false ->
        (writable (fs w) = true ->
         returned (setPasswordHandler bcrypt_hash password salt now) w = Some SetOk
         /\ storedPassword (after (setPasswordHandler bcrypt_hash password salt now) w)
            = Some (PasswordUtils.hashPassword bcrypt_hash password salt))
        /\ (writable (fs w) = false ->
            setPasswordHandler bcrypt_hash password salt now w = (Return SetFailed, w)))
  /\ (forall sv d,
        Pg.faults sv = [] ->
        Js.truthy_str (storedPassword (mkWorld (Some sv) true d)) = true ->
        returned (setPasswordHandler bcrypt_hash password salt now) (mkWorld (Some sv) true d)
        = Some SetAlreadySet
        /\ tables (after (setPasswordHandler bcrypt_hash password salt now)
                     (mkWorld (Some sv) true d)) = Pg.committed sv)
  /\ (forall sv d,
        Pg.faults sv = [] ->
        Js.truthy_str (storedPassword (mkWorld (Some sv) true d)) = false ->
        returned (setPasswordHandler bcrypt_hash password salt now) (mkWorld (Some sv) true d)
        = Some SetOk
        /\ storedPassword (after (setPasswordHandler bcrypt_hash password salt now)
                             (mkWorld (Some sv) true d))
           = Some (PasswordUtils.hashPassword bcrypt_hash password salt))
  /\ (forall sv d,
        Pg.faults sv = [true] ->
        returned (setPasswordHandler bcrypt_hash password salt now) (mkWorld (Some sv) true d)
        = Some SetOk
        /\ storedPassword (after (setPasswordHandler bcrypt_hash password salt now)
                             (mkWorld (Some sv) true d))
           = Some (PasswordUtils.hashPassword bcrypt_hash password salt))
  /\ (forall w salt' rnd now' sessions,
        isDatabaseEnabled w = false ->
        storedPassword w = Some (PasswordUtils.hashPassword bcrypt_hash password salt) ->
        bcrypt_compare password (PasswordUtils.hashPassword bcrypt_hash password salt) = true ->
        verifyPasswordHandler bcrypt_hash bcrypt_compare password salt' rnd now' sessions w
        = (Return (LoginOk (SessionStore.generateSessionToken rnd),
                   (SessionStore.createSession None rnd now' now' sessions).2), w)).
Proof.
  split; [|split; [|split; [|split; [|split]]]].
  - intros w Hfile Ht. unfold setPasswordHandler, loadAdminPassword, bind.
    rewrite loadPassword_file' by done. by rewrite Ht.
  - intros w Hfile Ht. split.
    + intros Hw. unfold returned, after, setPasswordHandler, loadAdminPassword, bind.
      rewrite loadPassword_file' by done. rewrite Ht.
      unfold saveAdminPassword. cbv zeta.
      rewrite ServerProofs.savePassword_file by done. simpl. split; [done|].
      unfold storedPassword. by rewrite DbProofs.isDatabaseEnabled_fs, Hfile.
    + intros Hw. unfold setPasswordHandler, loadAdminPassword, bind.
      rewrite loadPassword_file' by done. rewrite Ht.
      unfold saveAdminPassword. cbv zeta. unfold savePassword. rewrite Hfile.
      unfold try_catch, bind, writeJson, ret. by rewrite Hw.
  - intros sv d Hf Ht. unfold returned, after, setPasswordHandler, loadAdminPassword, bind.
    rewrite ServerProofs.loadPassword_db by done.
    unfold storedPassword in Ht. simpl in Ht.
    destruct (config (Pg.committed sv) !! "admin_password"%string) as [v|]; [|done].
    cbn beta iota. by rewrite Ht, Ht.
  - intros sv d Hf Ht. unfold returned, after, setPasswordHandler, loadAdminPassword, bind.
    rewrite ServerProofs.loadPassword_db by done.
    unfold storedPassword in Ht. simpl in Ht.
    assert (Hnone : Js.truthy_str
                      (match config (Pg.committed sv) !! "admin_password"%string with
                       | Some v => if Js.truthy_str (Some v) then Some v else None
                       | None => None
                       end) = false).
    { destruct (config (Pg.committed sv) !! "admin_password"%string) as [v|]; [|done].
      by rewrite Ht. }
    rewrite Hnone. unfold saveAdminPassword. cbv zeta.
    destruct (ServerProofs.savePassword_db (PasswordUtils.hashPassword bcrypt_hash password salt)
                now
                (Pg.mkServer (Pg.committed sv) (Pg.session sv) []
                   (Pg.log sv ++ [(SelectAdminPassword, true)])) d eq_refl)
      as (sv' & Heq & _ & Hc).
    rewrite Heq. simpl. split; [done|]. unfold storedPassword. simpl. exact Hc.
  - intros sv d Hf. unfold returned, after, setPasswordHandler, loadAdminPassword, bind.
    unfold loadPassword. simpl. unfold try_catch, bind.
    rewrite (DbLaws.pool_query_fault _ _ _ [] _ _ Hf). simpl.
    split; [done|]. unfold storedPassword. simpl. apply lookup_insert_eq.
  - intros w salt' rnd now' sessions Hfile Hs Hcmp.
    unfold verifyPasswordHandler, loadAdminPassword, bind.
    rewrite loadPassword_file' by done. rewrite Hs. cbn beta iota.
    rewrite (truthy_prefix (PasswordUtils.hashPassword bcrypt_hash password salt)
               (bcrypt_format _ _ _)), hashed_isHashed.
    cbn [negb default from_option Datatypes.id].
    unfold PasswordUtils.verifyPassword.
    rewrite (bcrypt_format password PasswordUtils.SALT_ROUNDS salt
             : Js.startsWith (PasswordUtils.hashPassword bcrypt_hash password salt) "$2" = true).
    cbn [negb]. rewrite Hcmp. unfold ret, SessionStore.createSession.
    by destruct (SessionStore.isRedisEnabled sessions), (SessionStore.redisClient sessions).
Qed.

Lemma loadPassword_stored now w r w1 :
  loadPassword now w = (r, w1) -> storedPassword w1 = storedPassword w.
Proof.
  intros H. pose proof (ServerProofs.loadPassword_preserves now w) as Hp.
  unfold after in Hp. by rewrite H in Hp.
Qed.

Lemma savePassword_stored value now w r w1 :
  savePassword value now w = (r, w1) ->
  storedPassword w1 = storedPassword w \/ storedPassword w1 = Some value.
Proof.
  intros H. pose proof (savePassword_stores value now w) as Hp.
  unfold after in Hp. by rewrite H in Hp.
Qed.

(** The only value the password handlers ever write into the password
    slot is the bcrypt hash of the password submitted: after
    /api/set-password or /api/verify-password the slot holds what it held
    before or that hash, in either back end and whatever fails;
    /api/check-password writes nothing.  So a stored value in hashed
    format stays in hashed format, and a login against it writes nothing
    at all. *)
Theorem password_writes_are_hashes
  (password salt rnd : string) (now : Z) (sessions : SessionStore.State) (w : World) :
  let set := setPasswordHandler bcrypt_hash password salt now in
  let login := verifyPasswordHandler bcrypt_hash bcrypt_compare password salt rnd now sessions in
  let hash := PasswordUtils.hashPassword bcrypt_hash password salt in
  (storedPassword (after set w) = storedPassword w
   \/ storedPassword (after set w) = Some hash)
  /\ (storedPassword (after login w) = storedPassword w
      \/ storedPassword (after login w) = Some hash)
  /\ storedPassword (after (checkPasswordHandler now) w) = storedPassword w
  /\ (PasswordUtils.isHashed (storedPassword w) = true ->
      PasswordUtils.isHashed (storedPassword (after set w)) = true
      /\ PasswordUtils.isHashed (storedPassword (after login w)) = true)
  /\ (PasswordUtils.isHashed (storedPassword w) = true ->
      isDatabaseEnabled w = false -> after login w = w).
Proof.
  intros set login hash.
  assert (Hset : storedPassword (after set w) = storedPassword w
                 \/ storedPassword (after set w) = Some hash).
  { unfold after, set, setPasswordHandler, loadAdminPassword, bind.
    destruct (loadPassword now w) as [[saved|e] w1] eqn:El;
      apply loadPassword_stored in El; [|by left].
    destruct (Js.truthy_str saved); [by left|].
    unfold saveAdminPassword. cbv zeta.
    destruct (savePassword _ now w1) as [[ok|e] w2] eqn:Es;
      apply savePassword_stored in Es; rewrite El in Es.
    - by destruct ok.
    - done. }
  assert (Hlogin : storedPassword (after login w) = storedPassword w
                   \/ storedPassword (after login w) = Some hash).
  { unfold after, login, verifyPasswordHandler, loadAdminPassword, bind.
    destruct (loadPassword now w) as [[saved|e] w1] eqn:El;
      apply loadPassword_stored in El; [|by left].
    destruct (negb (Js.truthy_str saved)); [by left|].
    destruct (PasswordUtils.verifyPassword _ _ _); [|by left].
    destruct (negb (PasswordUtils.isHashed saved)).
    - unfold saveAdminPassword. cbv zeta.
      destruct (savePassword _ now w1) as [[ok|e] w2] eqn:Es;
        apply savePassword_stored in Es; rewrite El in Es; [|done].
      unfold ret. by destruct (SessionStore.createSession _ _ _ _ _).
    - unfold ret. destruct (SessionStore.createSession _ _ _ _ _). by left. }
  split; [exact Hset|]. split; [exact Hlogin|]. split.
  { unfold after, checkPasswordHandler, loadAdminPassword, bind.
    destruct (loadPassword now w) as [[saved|e] w1] eqn:El;
      by apply loadPassword_stored in El. }
  split.
  { intros Hh. split.
    - destruct Hset as [->| ->]; [done|apply hashed_isHashed].
    - destruct Hlogin as [->| ->]; [done|apply hashed_isHashed]. }
  intros Hh Hfile.
  unfold after, login, verifyPasswordHandler, loadAdminPassword, bind.
  rewrite loadPassword_file' by done.
  destruct (negb (Js.truthy_str (storedPassword w))); [done|].
  destruct (PasswordUtils.verifyPassword _ _ _); [|done].
  rewrite Hh. simpl. unfold ret. by destruct (SessionStore.createSession _ _ _ _ _).
Qed.

(** [requireAuth] lets every request through, credentials or not, when
    [loadPassword] finds no password: none stored, an empty one, a
    password file that cannot be read, or a database that refuses the
    SELECT while a password is stored.  With a password found and no
    session token, a request passes exactly when its password header
    verifies against the stored value. *)
Theorem requireAuth_open_without_password
  (password sessionToken : option string) (now : Z) (sessions : SessionStore.State) :
  (forall w,
     isDatabaseEnabled w = false -> Js.truthy_str (storedPassword w) = false ->
     requireAuth bcrypt_compare password sessionToken now sessions w
     = (Return (Next None, sessions), w))
  /\ (forall sv d rest,
        Pg.faults sv = true :: rest ->
        (requireAuth bcrypt_compare password sessionToken now sessions
           (mkWorld (Some sv) true d)).1
        = Return (Next None, sessions))
  /\ (forall sv d,
        Pg.faults sv = [] ->
        Js.truthy_str (storedPassword (mkWorld (Some sv) true d)) = false ->
        (requireAuth bcrypt_compare password sessionToken now sessions
           (mkWorld (Some sv) true d)).1
        = Return (Next None, sessions))
  /\ (forall w stored,
        isDatabaseEnabled w = false -> storedPassword w = Some stored ->
        Js.truthy_str (Some stored) = true ->
        requireAuth bcrypt_compare password None now sessions w
        = (Return (if Js.truthy_str password
                      && PasswordUtils.verifyPassword bcrypt_compare
                           (default ""%string password) stored
                   then Next None else Unauthorized, sessions), w)).
Proof.
  split; [|split; [|split]].
  - intros w Hfile Ht. unfold requireAuth, loadAdminPassword, bind.
    rewrite loadPassword_file' by done. by rewrite Ht.
  - intros sv d rest Hf. unfold requireAuth, loadAdminPassword, bind.
    unfold loadPassword. simpl. unfold try_catch, bind.
    by rewrite (DbLaws.pool_query_fault _ _ _ rest _ _ Hf).
  - intros sv d Hf Ht. unfold requireAuth, loadAdminPassword, bind.
    rewrite ServerProofs.loadPassword_db by done.
    unfold storedPassword in Ht. simpl in Ht.
    destruct (config (Pg.committed sv) !! "admin_password"%string) as [v|]; [|done].
    cbn beta iota. by rewrite Ht.
  - intros w stored Hfile Hs Ht. unfold requireAuth, loadAdminPassword, bind.
    rewrite loadPassword_file' by done. rewrite Hs, Ht. simpl.
    by destruct (Js.truthy_str password && _).
Qed.

Lemma createSession_token u rnd t1 t2 st :
  (SessionStore.createSession u rnd t1 t2 st).1 = SessionStore.generateSessionToken rnd.
Proof.
  unfold SessionStore.createSession.
  by destruct (SessionStore.isRedisEnabled st), (SessionStore.redisClient st).
Qed.

Lemma login_file_inv password salt rnd now sessions w tok sessions' w1 :
  isDatabaseEnabled w = false ->
  verifyPasswordHandler bcrypt_hash bcrypt_compare password salt rnd now sessions w
  = (Return (LoginOk tok, sessions'), w1) ->
  tok = SessionStore.generateSessionToken rnd
  /\ sessions' = (SessionStore.createSession None rnd now now sessions).2
  /\ isDatabaseEnabled w1 = false
  /\ Js.truthy_str (storedPassword w1) = true.
Proof.
  intros Hfile. unfold verifyPasswordHandler, loadAdminPassword, bind.
  rewrite loadPassword_file' by done.
  destruct (Js.truthy_str (storedPassword w)) eqn:Ht; [|done]. cbn [negb].
  destruct (PasswordUtils.verifyPassword _ _ _); [|done].
  pose proof (createSession_token None rnd now now sessions) as Htok.
  destruct (SessionStore.createSession None rnd now now sessions) as [t s'].
  simpl in Htok. subst t.
  destruct (negb (PasswordUtils.isHashed (storedPassword w))).
  - unfold saveAdminPassword. cbv zeta. unfold savePassword. rewrite Hfile.
    unfold try_catch, bind, writeJson, ret.
    destruct (writable (fs w) && _); simpl.
    + intros [= <- <- <-]. split; [done|]. split; [done|].
      assert (Hfile1 : isDatabaseEnabled
                         (mkWorld (pool w) (isDbEnabled w)
                            (set_file PASSWORD_FILE
                               (PasswordUtils.hashPassword bcrypt_hash password salt) (fs w)))
                       = false) by (by rewrite DbProofs.isDatabaseEnabled_fs).
      split; [exact Hfile1|].
      rewrite storedPassword_file by exact Hfile1. simpl.
      apply truthy_prefix, bcrypt_format.
    + intros [= <- <- <-]. done.
  - unfold ret. simpl. intros [= <- <- <-]. done.
Qed.

(** The session token handed out by a successful login authorises
    requests, without a password header, at every time before the
    session expires (ten days after the login); after /api/logout with
    that token the same request is refused. *)
Theorem login_session_authorizes
  (password salt rnd : string) (now now' : Z) (sessions sessions' : SessionStore.State)
  (w w1 : World) (tok : string) :
  isDatabaseEnabled w = false ->
  verifyPasswordHandler bcrypt_hash bcrypt_compare password salt rnd now sessions w
  = (Return (LoginOk tok, sessions'), w1) ->
  now' < now + SessionStore.SESSION_DURATION ->
  requireAuth bcrypt_compare None (Some tok) now' sessions' w1
  = (Return (Next (Some (SessionStore.mkSession "admin" now
                           (now + SessionStore.SESSION_DURATION))), sessions'), w1)
  /\ requireAuth bcrypt_compare None (Some tok) now' (logoutHandler (Some tok) sessions') w1
     = (Return (Unauthorized, logoutHandler (Some tok) sessions'), w1).
Proof.
  intros Hfile Hlogin Hlive.
  apply login_file_inv in Hlogin as (-> & -> & Hfile1 & Ht); [|done].
  pose proof (SessionStoreProofs.token_truthy rnd) as Htok.
  assert (Hne : SessionStore.generateSessionToken rnd <> ""%string) by done.
  split.
  - unfold requireAuth, loadAdminPassword, bind.
    rewrite loadPassword_file' by done. rewrite Ht, Htok. cbn [negb].
    rewrite (SessionStoreProofs.validate_live _
               (SessionStore.mkSession "admin" now (now + SessionStore.SESSION_DURATION)));
      [done|done| |simpl; lia].
    by apply (SessionStoreProofs.lookup_created None).
  - unfold logoutHandler. rewrite Htok. simpl.
    unfold requireAuth, loadAdminPassword, bind.
    rewrite loadPassword_file' by done. rewrite Ht, Htok. cbn [negb].
    rewrite SessionStoreProofs.validate_absent
      by apply SessionStoreProofs.absent_destroySession.
    done.
Qed.

End Passwords.

Lemma setPassword_first_run_witness :
  storedPassword (after (setPasswordHandler toy_hash "hunter22" "salt" 5) freshFiles)
  = Some (toy_hash "hunter22" 12 "salt")
  /\ setPasswordHandler toy_hash "other" "salt" 6 legacyPasswordFile
     = (Return SetAlreadySet, legacyPasswordFile).
Proof.
  split.
  - apply (setPassword_first_run toy_hash toy_compare (fun _ _ _ => eq_refl)
             "hunter22" "salt" 5); reflexivity.
  - reflexivity.
Defined.

Lemma password_writes_are_hashes_witness :
  let sessions := SessionStore.mkState None false ∅ in
  let w := after (setPasswordHandler toy_hash "hunter22" "salt" 5) freshFiles in
  after (verifyPasswordHandler toy_hash toy_compare "hunter22" "pepper" "00ff" 9 sessions) w
  = w.
Proof.
  intros sessions w.
  apply (password_writes_are_hashes toy_hash toy_compare (fun _ _ _ => eq_refl)
           "hunter22" "pepper" "00ff" 9 sessions w); reflexivity.
Defined.

Lemma requireAuth_open_without_password_witness :
  let sessions := SessionStore.mkState None false ∅ in
  let unreadable := mkWorld None false
                      (mkFileSystem true true Missing Unreadable Missing Missing Missing) in
  requireAuth toy_compare None None 7 sessions unreadable
  = (Return (Next None, sessions), unreadable)
  /\ requireAuth toy_compare None None 7 sessions legacyPasswordFile
     = (Return (Unauthorized, sessions), legacyPasswordFile).
Proof.
  intros sessions unreadable. split.
  - apply (requireAuth_open_without_password toy_compare None None 7 sessions); reflexivity.
  - apply (requireAuth_open_without_password toy_compare None None 7 sessions
             : _ /\ _ /\ _ /\ (forall w stored, _ -> _ -> _ -> _)) with (stored := "abc123"%string);
      reflexivity.
Defined.

Lemma login_session_authorizes_witness :
  let sessions := SessionStore.mkState None false ∅ in
  let login := verifyPasswordHandler toy_hash toy_compare "abc123" "salt" "00ff" 100 sessions in
  let sessions' := (SessionStore.createSession None "00ff" 100 100 sessions).2 in
  let w1 := after login legacyPasswordFile in
  requireAuth toy_compare None (Some "session_00ff"%string) 200 sessions' w1
  = (Return (Next (Some (SessionStore.mkSession "admin" 100
                           (100 + SessionStore.SESSION_DURATION))), sessions'), w1)
  /\ requireAuth toy_compare None (Some "session_00ff"%string) 200
       (logoutHandler (Some "session_00ff"%string) sessions') w1
     = (Return (Unauthorized, logoutHandler (Some "session_00ff"%string) sessions'), w1).
Proof.
  intros sessions login sessions' w1.
  apply (login_session_authorizes toy_hash toy_compare (fun _ _ _ => eq_refl)
           "abc123" "salt" "00ff" 100 200 sessions sessions' legacyPasswordFile w1
           "session_00ff"); reflexivity.
Defined.

Section AccountHandlers.

Variable encryptData : Encrypt.
Variable decryptData : Decrypt.
Variable ACCOUNTS_SECRET : option string.

(** DELETE /api/server-accounts/:index in file mode, over a stored list
    that loads in clear.  An index that is not an integer from 0 to 999
    is refused by the validator with 400 and changes nothing.  An index
    from 0 to 999 inside the list removes exactly the account at that
    position, so that the next load returns the others in their order;
    one from 0 to 999 beyond the end of the list answers 404 and changes
    nothing. *)
Theorem deleteServerAccount_by_index
  (index : option Z) (now now' : Z) (w : World) (accounts : list Account) :
  isDatabaseEnabled w = false -> writable (fs w) = true ->
  roundTrips encryptData decryptData (default ""%string ACCOUNTS_SECRET) ->
  returned (loadServerAccounts decryptData ACCOUNTS_SECRET now) w = Some accounts ->
  Forall plain accounts ->
  let handler :=
    deleteServerAccountHandler encryptData decryptData ACCOUNTS_SECRET index now in
  (forall pre a post,
     accounts = pre ++ a :: post -> index = Some (Z.of_nat (length pre)) ->
     (length pre <= 999)%nat ->
     returned handler w = Some AccountDeleted
     /\ returned (loadServerAccounts decryptData ACCOUNTS_SECRET now') (after handler w)
        = Some (pre ++ post))
  /\ (forall i,
        index = Some i -> 0 <= i <= 999 -> Z.of_nat (length accounts) <= i ->
        handler w = (Return AccountNotFound, w))
  /\ (index = None \/ (exists i, index = Some i /\ (i < 0 \/ 999 < i)) ->
      handler w = (Return AccountBadIndex, w)).
Proof.
  intros Hfile Hw Hrt Hload Hp handler.
  assert (Hl : loadServerAccounts decryptData ACCOUNTS_SECRET now w = (Return accounts, w)).
  { unfold returned, loadServerAccounts in *.
    rewrite DbProofs.loadAccounts_file in * by done. simpl in Hload. by injection Hload as ->. }
  split; [|split].
  - intros pre a post -> Hi Hbound. subst handler. subst index.
    unfold returned, after, deleteServerAccountHandler, validateIndex.
    assert ((0 <=? Z.of_nat (length pre)) && (Z.of_nat (length pre) <=? 999) = true) as ->.
    { apply andb_true_iff. split; apply Z.leb_le; lia. }
    cbn [negb from_option]. unfold Datatypes.id, bind. rewrite Hl.
    assert ((0 <=? Z.of_nat (length pre))
            && (Z.of_nat (length pre) <? Z.of_nat (length (pre ++ a :: post))) = true) as ->.
    { rewrite List.length_app. simpl.
      apply andb_true_iff. split; [apply Z.leb_le|apply Z.ltb_lt]; lia. }
    rewrite Nat2Z.id, JsLaws.splice1_app.
    destruct (saveServerAccounts encryptData ACCOUNTS_SECRET (pre ++ post) now w)
      as [[ok|e] w'] eqn:Es.
    + unfold saveServerAccounts in Es.
      assert (ok = true) as ->.
      { unfold saveAccounts in Es. rewrite Hfile in Es.
        unfold try_catch, bind, writeJson, ret in Es. rewrite Hw in Es. simpl in Es.
        by injection Es as <- _. }
      simpl. split; [done|]. unfold loadServerAccounts.
      rewrite (DbProofs.saveAccounts_loadAccounts_file (pre ++ post) _ encryptData decryptData
                 _ None None now now' w w' Hfile Hrt); [done| |exact Es].
      apply Forall_app in Hp as [Hpre Hpost]. apply Forall_app. split; [done|].
      by inversion Hpost.
    + unfold saveServerAccounts, saveAccounts in Es. rewrite Hfile in Es.
      unfold try_catch, bind, writeJson, ret in Es. rewrite Hw in Es. simpl in Es. done.
  - intros i -> Hi Hout. unfold handler, deleteServerAccountHandler, validateIndex.
    assert ((0 <=? i) && (i <=? 999) = true) as ->.
    { apply andb_true_iff. split; apply Z.leb_le; lia. }
    cbn [negb from_option]. unfold Datatypes.id, bind. rewrite Hl.
    assert ((0 <=? i) && (i <? Z.of_nat (length accounts)) = false) as ->; [|done].
    apply andb_false_iff. right. apply Z.ltb_ge. lia.
  - intros Hbad. unfold handler, deleteServerAccountHandler, validateIndex.
    destruct Hbad as [->|(i & -> & Hi)]; [done|].
    assert ((0 <=? i) && (i <=? 999) = false) as ->; [|done].
    apply andb_false_iff.
    destruct Hi; [left; apply Z.leb_gt|right; apply Z.leb_gt]; lia.
Qed.

End AccountHandlers.

Lemma deleteServerAccount_by_index_witness :
  let w := mkWorld None false
             (mkFileSystem true true
                (Stored [mkAccount "one" (Some "sk-1"%string) None;
                         mkAccount "two" (Some "sk-2"%string) None;
                         mkAccount "three" (Some "sk-3"%string) None])
                Missing Missing Missing Missing) in
  let handler := deleteServerAccountHandler (fun _ _ => None) (fun _ _ => None) None
                   (Some 1) 10 in
  returned (loadServerAccounts (fun _ _ => None) None 20) (after handler w)
  = Some [mkAccount "one" (Some "sk-1"%string) None;
          mkAccount "three" (Some "sk-3"%string) None].
Proof.
  intros w handler.
  apply (deleteServerAccount_by_index (fun _ _ => None) (fun _ _ => None) None (Some 1) 10 20 w
           [mkAccount "one" (Some "sk-1"%string) None;
            mkAccount "two" (Some "sk-2"%string) None;
            mkAccount "three" (Some "sk-3"%string) None]) with
    (pre := [mkAccount "one" (Some "sk-1"%string) None])
    (a := mkAccount "two" (Some "sk-2"%string) None)
    (post := [mkAccount "three" (Some "sk-3"%string) None]); try reflexivity.
  - intros clear enc H. discriminate H.
  - repeat constructor.
  - simpl. lia.
Defined.

(** *** The webhook API and the dispatcher *)

Lemma recipients_ids event (configs : list Notifications.WebhookConfig) wid :
  Forall (fun c => Notifications.id c <> wid) configs ->
  ~ In wid (List.map Notifications.id (Notifications.recipients event configs)).
Proof.
  intros H Hin. apply List.in_map_iff in Hin as (c & Hid & Hc).
  apply List.filter_In in Hc as [Hc _].
  rewrite List.Forall_forall in H. by apply (H c Hc).
Qed.

(** In file mode, POST /api/webhooks with a generated id that is not yet
    stored answers with that id and leaves the registry equal to the
    stored registrations, the new one last.  A later [sendWebhook]
    delivers to the new registration exactly when the request carried no
    [events] or a list containing the event type.  DELETE /api/webhooks
    with the returned id then restores both the stored list and the
    registry. *)
Theorem webhook_api_registry
  (url : string) (name secret : option string) (events : option (list string))
  (bytes : list byte) (now now' : Z) (registry : list Notifications.WebhookConfig)
  (w : World) :
  isDatabaseEnabled w = false -> writable (fs w) = true ->
  Forall (fun h => wh_id h <> Js.toHex bytes) (storedWebhooks w) ->
  let post := postWebhookHandler url name secret events bytes now registry in
  let added := Notifications.mkConfig (Js.toHex bytes) url secret events now in
  let registry' := List.map toConfig (storedWebhooks w) ++ [added] in
  (post w).1 = Return (WebhookSaved (Js.toHex bytes), registry')
  /\ List.map toConfig (storedWebhooks (after post w)) = registry'
  /\ (forall JSON_stringify hmac_sha256_hex transport event data at_,
        In (Js.toHex bytes)
          (List.map (fun sent => Notifications.id sent.1)
             (Notifications.deliveries JSON_stringify hmac_sha256_hex transport
                event data at_ registry'))
        <-> (events = None \/ exists evs, events = Some evs /\ In event evs))
  /\ (deleteWebhookHandler (Js.toHex bytes) now' registry' (after post w)).1
     = Return (WebhookDeleted, List.map toConfig (storedWebhooks w))
  /\ storedWebhooks (after (deleteWebhookHandler (Js.toHex bytes) now' registry')
                       (after post w))
     = storedWebhooks w.
Proof.
  intros Hfile Hw Hfresh post added registry'.
  set (webhook := mkWebhook (Js.toHex bytes) None name url secret events (Some true) now).
  set (w1 := mkWorld (pool w) (isDbEnabled w)
               (mkFileSystem true true (accounts_json (fs w)) (password_json (fs w))
                  (users_json (fs w)) (Stored (storedWebhooks w ++ [webhook]))
                  (usage_history_json (fs w)))).
  assert (Hfile1 : isDatabaseEnabled w1 = false)
    by (unfold w1; by rewrite DbProofs.isDatabaseEnabled_fs).
  assert (Hpost : post w = (Return (WebhookSaved (Js.toHex bytes), registry'), w1)).
  { unfold post, postWebhookHandler, bind. cbv zeta. fold webhook.
    rewrite DbLaws.saveWebhook_file by done.
    rewrite DbLaws.upserted_fresh by done. fold w1.
    rewrite DbLaws.getWebhooks_file by done. unfold ret. simpl.
    unfold registry'.
    change (storedWebhooks w1) with (storedWebhooks w ++ [webhook]).
    by rewrite List.map_app. }
  assert (Hs1 : storedWebhooks w1 = storedWebhooks w ++ [webhook]) by done.
  split; [by rewrite Hpost|].
  split; [unfold after; rewrite Hpost; simpl; rewrite Hs1; by rewrite List.map_app|].
  split.
  { intros JSON_stringify hmac_sha256_hex transport event data at_.
    unfold Notifications.deliveries. rewrite List.map_map. simpl.
    fold (List.map Notifications.id (Notifications.recipients event registry')).
    unfold registry', Notifications.recipients. rewrite List.filter_app, List.map_app.
    rewrite List.in_app_iff. simpl.
    pose proof (NotificationsProofs.subscribed_iff event added) as Hsub.
    simpl in Hsub. rewrite <- Hsub. clear Hsub.
    split.
    - intros [Hold|Hnew].
      + exfalso. revert Hold. apply recipients_ids.
        apply Forall_map. eapply Forall_impl; [exact Hfresh|]. done.
      + destruct (Notifications.subscribed event added); [done|]. by destruct Hnew.
    - intros ->. right. by left. }
  assert (Hdel : Db.deleteWebhook (Js.toHex bytes) now' w1
                 = (Return true,
                    mkWorld (pool w) (isDbEnabled w)
                      (mkFileSystem true true (accounts_json (fs w)) (password_json (fs w))
                         (users_json (fs w)) (Stored (storedWebhooks w))
                         (usage_history_json (fs w))))).
  { rewrite DbLaws.deleteWebhook_file by done. rewrite Hs1.
    rewrite JsLaws.findIndex_app;
      [|by apply DbLaws.id_differs|apply String.eqb_refl].
    rewrite JsLaws.splice1_app, app_nil_r. done. }
  unfold after. rewrite Hpost. simpl.
  unfold deleteWebhookHandler, bind. rewrite Hdel.
  rewrite DbLaws.getWebhooks_file by (by rewrite DbProofs.isDatabaseEnabled_fs).
  done.
Qed.

Lemma webhook_api_registry_witness :
  let bytes := ["a"; "b"; "c"; "d"; "e"; "f"; "g"; "h"]%byte in
  let post := postWebhookHandler "https://c.example/hook" None None
                (Some ["service_down"%string]) bytes 50 [] in
  List.map toConfig (storedWebhooks (after post aliceWithWebhook))
  = List.map toConfig (storedWebhooks aliceWithWebhook)
    ++ [Notifications.mkConfig "6162636465666768" "https://c.example/hook" None
          (Some ["service_down"%string]) 50].
Proof.
  intros bytes post.
  apply (webhook_api_registry "https://c.example/hook" None None
           (Some ["service_down"%string]) bytes 50 60 [] aliceWithWebhook eq_refl eq_refl).
  repeat constructor. discriminate.
Defined.

End ServerLaws.
